(** * Remittance service (week 3): query engine, fee rule and record store

    A shallow embedding of the FastAPI remittance service:
    [database.py] (the two in-memory dictionaries and their id counters),
    [schemas.py] (enumerations and request bodies), [dependencies.py]
    (pagination, filter and sorting parameters), [routers/remittances.py]
    and [routers/corridors.py] (the handlers).

    Conventions of the embedding.
    - A Python [str] is a list of Unicode code points; [int] is [Z];
      [float] is the kernel's binary64 [float], so the arithmetic of the
      fee rule is the IEEE arithmetic Python performs.
    - A Python [dict] keeps insertion order, and the handlers iterate over
      it, so a dictionary is an association list with in-place replacement.
    - A handler is a function of the store; its outcome carries the store it
      leaves behind, both when it returns and when it raises. *)

From Stdlib Require Import ZArith NArith List Bool Lia String Ascii.
From Stdlib Require Import Sorting.Sorted Sorting.Permutation.
From Stdlib Require Import DecimalPos DecimalZ.
From Stdlib Require Import Floats.PrimFloat Floats.FloatOps Floats.SpecFloat.
Import ListNotations.

Set Warnings "-inexact-float".
Local Open Scope Z_scope.

(** ** Python strings *)

(** A [str]: its code points, in order.  [len] counts code points. *)
Definition str : Type := list N.

(** The code points of an ASCII literal. *)
Definition u (s : string) : str := List.map N_of_ascii (list_ascii_of_string s).

Definition len {A : Type} (l : list A) : Z := Z.of_nat (List.length l).

Fixpoint str_eqb (a b : str) : bool :=
  match a, b with
  | [], [] => true
  | x :: a', y :: b' => N.eqb x y && str_eqb a' b'
  | _, _ => false
  end.

(** [a < b] on strings: lexicographic on code points. *)
Fixpoint str_ltb (a b : str) : bool :=
  match a, b with
  | _, [] => false
  | [], _ :: _ => true
  | x :: a', y :: b' => N.ltb x y || (N.eqb x y && str_ltb a' b')
  end.

Fixpoint startswith (s p : str) : bool :=
  match p, s with
  | [], _ => true
  | _ :: _, [] => false
  | x :: p', y :: s' => N.eqb x y && startswith s' p'
  end.

(** [p in s] for strings: [p] occurs in [s] as a contiguous block. *)
Fixpoint contains (p s : str) : bool :=
  startswith s p ||
  match s with
  | [] => false
  | _ :: s' => contains p s'
  end.

(** [str.lower()].  Python lowercases by the Unicode tables, which are not part
    of the repository; the development is parametric in the function and uses
    two facts about it: the empty string stays empty, and lowercasing never
    removes a code point. *)
Class Lowercase : Type := {
  lower : str -> str;
  lower_nil : lower [] = [];
  lower_len : forall s, (List.length s <= List.length (lower s))%nat
}.

(** [str(n)] for an integer. *)
Fixpoint uint_str (d : Decimal.uint) : str :=
  match d with
  | Decimal.Nil => []
  | Decimal.D0 d' => 48%N :: uint_str d'
  | Decimal.D1 d' => 49%N :: uint_str d'
  | Decimal.D2 d' => 50%N :: uint_str d'
  | Decimal.D3 d' => 51%N :: uint_str d'
  | Decimal.D4 d' => 52%N :: uint_str d'
  | Decimal.D5 d' => 53%N :: uint_str d'
  | Decimal.D6 d' => 54%N :: uint_str d'
  | Decimal.D7 d' => 55%N :: uint_str d'
  | Decimal.D8 d' => 56%N :: uint_str d'
  | Decimal.D9 d' => 57%N :: uint_str d'
  end.

Definition str_of_int (n : Z) : str :=
  match Z.to_int n with
  | Decimal.Pos d => uint_str d
  | Decimal.Neg d => 45%N :: uint_str d
  end.

(** [s.zfill(width)]: zeros on the left, after a sign if there is one. *)
Definition zfill (s : str) (width : nat) : str :=
  let zeros := List.repeat 48%N (width - List.length s) in
  match s with
  | c :: s' => if N.eqb c 45 || N.eqb c 43 then c :: zeros ++ s' else zeros ++ s
  | [] => zeros
  end.

(** ** Python numbers *)

(** [a // b] on integers: floor division, which raises on a zero divisor. *)
Definition floordiv (a b : Z) : option Z :=
  if b =? 0 then None else Some (a / b).

(** [l[start:stop]] with integer bounds: a negative bound counts from the end,
    and both are clamped to the list. *)
Definition slice {A : Type} (l : list A) (start stop : Z) : list A :=
  let n := len l in
  let clamp i := if i <? 0 then Z.max 0 (i + n) else Z.min i n in
  let a := clamp start in
  let b := clamp stop in
  List.firstn (Z.to_nat (b - a)) (List.skipn (Z.to_nat a) l).

(** The integer nearest to [m * 2^e * 100], ties to the even one. *)
Definition scaled_half_even (m : positive) (e : Z) : Z :=
  let v := Zpos m * 100 in
  match e with
  | Zneg p =>
      let d := Z.pow_pos 2 p in
      let q := v / d in
      let r := v mod d in
      match Z.compare (2 * r) d with
      | Lt => q
      | Gt => q + 1
      | Eq => if Z.even q then q else q + 1
      end
  | _ => v * 2 ^ e
  end.

(** [round(x, 2)] on a float.  CPython prints the exact value of [x] with two
    decimals, correctly rounded (ties to even), and reads the decimal back as
    the nearest float.  Reading [n/100] back is the correctly rounded
    quotient of the integers [n] and [100]. *)
Definition round2 (x : float) : float :=
  match Prim2SF x with
  | S754_finite s m e =>
      match scaled_half_even m e with
      | Zpos n =>
          SF2Prim (SFdiv prec emax (S754_finite s n 0) (S754_finite false 100 0))
      | _ => SF2Prim (S754_zero s)
      end
  | _ => x
  end.

(** ** [datetime] *)

Record datetime : Type := Datetime {
  year : Z; month : Z; day : Z;
  hour : Z; minute : Z; second : Z; microsecond : Z
}.

Definition datetime_fields (d : datetime) : list Z :=
  [year d; month d; day d; hour d; minute d; second d; microsecond d].

Fixpoint lex_ltb (a b : list Z) : bool :=
  match a, b with
  | x :: a', y :: b' => (x <? y) || ((x =? y) && lex_ltb a' b')
  | _, _ => false
  end.

Definition datetime_ltb (a b : datetime) : bool :=
  lex_ltb (datetime_fields a) (datetime_fields b).

(** [now.strftime('%Y%m%d')], for a year of four digits at most, as every
    reading of the clock has. *)
Definition strftime_Ymd (now : datetime) : str :=
  zfill (str_of_int (year now)) 4 ++
  zfill (str_of_int (month now)) 2 ++
  zfill (str_of_int (day now)) 2.

(** ** [schemas.py]: enumerations *)

Inductive SortOrder : Type := asc | desc.

Inductive RemittanceSortField : Type :=
  by_amount | by_fee | by_created_at | by_sender_name.

Inductive RemittanceStatus : Type :=
  pending | processing | completed | cancelled | failed.

Inductive PaymentMethod : Type :=
  bank_transfer | cash | mobile_wallet | debit_card.

Inductive Currency : Type := USD | EUR | GBP.

Definition RemittanceStatus_eqb (a b : RemittanceStatus) : bool :=
  match a, b with
  | pending, pending | processing, processing | completed, completed
  | cancelled, cancelled | failed, failed => true
  | _, _ => false
  end.

Definition PaymentMethod_eqb (a b : PaymentMethod) : bool :=
  match a, b with
  | bank_transfer, bank_transfer | cash, cash
  | mobile_wallet, mobile_wallet | debit_card, debit_card => true
  | _, _ => false
  end.

Definition Currency_eqb (a b : Currency) : bool :=
  match a, b with
  | USD, USD | EUR, EUR | GBP, GBP => true
  | _, _ => false
  end.

(** ** The stored records

    The dictionaries of [database.py] hold one [dict] per record; the keys of
    such a record are the fields below. *)

Module Corridor.
Record t : Type := mk {
  id : Z;
  name : str;
  code : str;
  origin_country : str;
  destination_country : str;
  base_fee_percentage : float;
  is_active : bool;
  created_at : datetime
}.
End Corridor.

Module Remittance.
Record t : Type := mk {
  id : Z;
  reference_code : str;
  sender_name : str;
  recipient_name : str;
  corridor_id : Z;
  amount : float;
  currency : Currency;
  exchange_rate : float;
  fee : float;
  payment_method : PaymentMethod;
  status : RemittanceStatus;
  is_express : bool;
  created_at : datetime
}.
End Remittance.

(** ** Request bodies *)

(** [RemittanceCreate]: every field is required but [is_express], which
    defaults to [False]; none accepts [null]. *)
Module RemittanceCreate.
Record t : Type := mk {
  sender_name : str;
  recipient_name : str;
  amount : float;
  currency : Currency;
  exchange_rate : float;
  payment_method : PaymentMethod;
  is_express : bool;
  corridor_id : Z
}.

(** The [Field] constraints of the schema: FastAPI answers 422 before the
    handler runs when one fails. *)
Definition valid (b : t) : bool :=
  (2 <=? len (sender_name b)) && (len (sender_name b) <=? 100) &&
  (2 <=? len (recipient_name b)) && (len (recipient_name b) <=? 100) &&
  PrimFloat.ltb 0 (amount b) && PrimFloat.leb (amount b) 10000 &&
  PrimFloat.ltb 0 (exchange_rate b) &&
  (0 <? corridor_id b).
End RemittanceCreate.

(** A field of a partial-update body ([model_dump(exclude_unset=True)]): left
    out of the request, sent as [null], or sent with a value. *)
Inductive field (A : Type) : Type :=
| Unset
| Null
| Value (a : A).
Arguments Unset {A}.
Arguments Null {A}.
Arguments Value {A} a.

(** ["k" in update_data] *)
Definition is_set {A : Type} (f : field A) : bool :=
  match f with Unset => false | _ => true end.

(** The value a key holds after [record.update(update_data)]; [None] when
    the update stores a [null] there, which the typed records cannot hold. *)
Definition updated {A : Type} (old : A) (f : field A) : option A :=
  match f with
  | Unset => Some old
  | Null => None
  | Value a => Some a
  end.

(** A constraint on a field's value; an unset or [null] field passes. *)
Definition on_value {A : Type} (f : field A) (p : A -> bool) : bool :=
  match f with Value a => p a | _ => true end.

Module RemittanceUpdate.
Record t : Type := mk {
  sender_name : field str;
  recipient_name : field str;
  amount : field float;
  currency : field Currency;
  exchange_rate : field float;
  payment_method : field PaymentMethod;
  corridor_id : field Z;
  status : field RemittanceStatus;
  is_express : field bool
}.

(** The body with no field set. *)
Definition empty : t :=
  mk Unset Unset Unset Unset Unset Unset Unset Unset Unset.

(** The [Field] constraints: they bind a field that carries a value. *)
Definition valid (b : t) : bool :=
  on_value (sender_name b) (fun s => (2 <=? len s) && (len s <=? 100)) &&
  on_value (recipient_name b) (fun s => (2 <=? len s) && (len s <=? 100)) &&
  on_value (amount b) (fun a => PrimFloat.ltb 0 a && PrimFloat.leb a 10000) &&
  on_value (exchange_rate b) (fun x => PrimFloat.ltb 0 x) &&
  on_value (corridor_id b) (fun c => 0 <? c).
End RemittanceUpdate.

Module CorridorUpdate.
Record t : Type := mk {
  name : field str;
  code : field str;
  origin_country : field str;
  destination_country : field str;
  base_fee_percentage : field float;
  is_active : field bool
}.

Definition empty : t := mk Unset Unset Unset Unset Unset Unset.
End CorridorUpdate.

(** ** [dict] with integer keys, in insertion order *)

Definition dict (V : Type) : Type := list (Z * V).

(** [d.get(k)] *)
Fixpoint dict_get {V : Type} (d : dict V) (k : Z) : option V :=
  match d with
  | [] => None
  | (k', v) :: d' => if k' =? k then Some v else dict_get d' k
  end.

(** [d[k] = v]: a present key keeps its place, a new one goes last. *)
Fixpoint dict_set {V : Type} (d : dict V) (k : Z) (v : V) : dict V :=
  match d with
  | [] => [(k, v)]
  | (k', v') :: d' =>
      if k' =? k then (k, v) :: d' else (k', v') :: dict_set d' k v
  end.

(** [del d[k]] *)
Definition dict_del {V : Type} (d : dict V) (k : Z) : dict V :=
  List.filter (fun kv => negb (fst kv =? k)) d.

(** [d.values()] *)
Definition values {V : Type} (d : dict V) : list V := List.map snd d.

(** ** [database.py]: the store *)

Record Store : Type := mkStore {
  corridors_db : dict Corridor.t;
  remittances_db : dict Remittance.t;
  next_corridor_id : Z;
  next_remittance_id : Z
}.

Definition set_corridors_db (db : Store) (d : dict Corridor.t) : Store :=
  mkStore d (remittances_db db) (next_corridor_id db) (next_remittance_id db).

Definition set_remittances_db (db : Store) (d : dict Remittance.t) : Store :=
  mkStore (corridors_db db) d (next_corridor_id db) (next_remittance_id db).

(** [get_next_corridor_id()]: the current value, and the store with the
    counter moved on. *)
Definition get_next_corridor_id (db : Store) : Z * Store :=
  let current := next_corridor_id db in
  (current,
   mkStore (corridors_db db) (remittances_db db) (current + 1) (next_remittance_id db)).

Definition get_next_remittance_id (db : Store) : Z * Store :=
  let current := next_remittance_id db in
  (current,
   mkStore (corridors_db db) (remittances_db db) (next_corridor_id db) (current + 1)).

(** ** Exceptions and outcomes *)

(** The messages the handlers raise, with the value each interpolates (the
    corridor id of a partial update may be [None]). *)
Inductive Detail : Type :=
| remesa_no_encontrada (remittance_id : Z)
| corredor_no_encontrado (corridor_id : option Z)
| corredor_no_activo_actualmente (name : str)
| corredor_no_activo (name : str)
| termino_de_busqueda_corto
| otro_corredor_con_codigo (code : str)
| corredor_con_codigo (code : str)
| corredor_con_remesas
| estado_no_eliminable (status : RemittanceStatus).

Inductive Exn : Type :=
| HTTPException (status_code : Z) (detail : Detail)
| RequestValidationError
| ZeroDivisionError
| KeyError (key : Z).

(** What a handler does to the store: it returns a value, or it raises an
    exception; either way [db] is the store afterwards.  [NullStored] is the
    one case the typed records do not follow: a partial update that writes a
    [null] into a stored record. *)
Inductive Outcome (A : Type) : Type :=
| Return (db : Store) (a : A)
| Raise (db : Store) (e : Exn)
| NullStored.
Arguments Return {A} db a.
Arguments Raise {A} db e.
Arguments NullStored {A}.

(** The error kinds of the specification.  The handlers answer 404 for an
    unknown identifier and 400 for every other refusal, and FastAPI answers
    422 for a request that fails its schema; the kind of a 400 is read off
    its message: a bad reference or query is a validation error, a duplicate
    code, a blocked deletion or a refused state is a conflict.  An exception
    no handler catches has no kind. *)
Inductive ErrorKind : Type := NotFound | ValidationError | ConflictError.

Definition error_kind (e : Exn) : option ErrorKind :=
  match e with
  | HTTPException 404 _ => Some NotFound
  | HTTPException 400 d =>
      match d with
      | corredor_no_encontrado _ | corredor_no_activo_actualmente _
      | corredor_no_activo _ | termino_de_busqueda_corto => Some ValidationError
      | otro_corredor_con_codigo _ | corredor_con_codigo _ | corredor_con_remesas
      | estado_no_eliminable _ => Some ConflictError
      | remesa_no_encontrada _ => None
      end
  | HTTPException _ _ => None
  | RequestValidationError => Some ValidationError
  | ZeroDivisionError | KeyError _ => None
  end.

(** The result of a helper that does not touch the store. *)
Inductive Res (A : Type) : Type :=
| Val (a : A)
| Exc (e : Exn).
Arguments Val {A} a.
Arguments Exc {A} e.

(** ** [dependencies.py] *)

Module PaginationParams.
Record t : Type := mk {
  page : Z;
  per_page : Z;
  offset : Z
}.

(** [PaginationParams(page, per_page)] as a dependency: FastAPI checks the
    [Query] bounds ([page >= 1], [1 <= per_page <= 50]) and answers 422 when
    one fails; otherwise the constructor computes the offset. *)
Definition __init__ (page per_page : Z) : Res t :=
  if (1 <=? page) && (1 <=? per_page) && (per_page <=? 50)
  then Val (mk page per_page ((page - 1) * per_page))
  else Exc RequestValidationError.
End PaginationParams.

Module RemittanceFilters.
Record t : Type := mk {
  search : option str;
  corridor_id : option Z;
  min_amount : option float;
  max_amount : option float;
  status : option RemittanceStatus;
  currency : option Currency;
  payment_method : option PaymentMethod;
  is_express : option bool
}.

(** No filter given. *)
Definition none : t := mk None None None None None None None None.
End RemittanceFilters.

Module SortingParams.
Record t : Type := mk {
  sort_by : RemittanceSortField;
  order : SortOrder
}.

(** The defaults of the dependency: newest first. *)
Definition default : t := mk by_created_at desc.
End SortingParams.

(** ** [list.sort(key=..., reverse=...)]

    The sort is stable and compares keys with [<] only.  With
    [reverse=True] Python reverses the list, sorts it, and reverses it again,
    so that equal keys still keep their order. *)

Fixpoint insert_sorted {A : Type} (lt : A -> A -> bool) (x : A) (l : list A) : list A :=
  match l with
  | [] => [x]
  | y :: l' => if lt x y then x :: l else y :: insert_sorted lt x l'
  end.

Definition sort_stable {A : Type} (lt : A -> A -> bool) (l : list A) : list A :=
  List.fold_left (fun acc x => insert_sorted lt x acc) l [].

Definition list_sort {A : Type} (lt : A -> A -> bool) (reverse : bool) (l : list A) : list A :=
  if reverse then List.rev (sort_stable lt (List.rev l)) else sort_stable lt l.

(** [key(a) < key(b)] for [key = lambda x: x.get(sort_field, "")]. *)
Definition sort_key_ltb (sort_field : RemittanceSortField) (a b : Remittance.t) : bool :=
  match sort_field with
  | by_amount => PrimFloat.ltb (Remittance.amount a) (Remittance.amount b)
  | by_fee => PrimFloat.ltb (Remittance.fee a) (Remittance.fee b)
  | by_created_at => datetime_ltb (Remittance.created_at a) (Remittance.created_at b)
  | by_sender_name => str_ltb (Remittance.sender_name a) (Remittance.sender_name b)
  end.

(** ** Responses *)

(** A remittance with a ["corridor"] key added. *)
Record Enriched : Type := mkEnriched {
  remittance : Remittance.t;
  corridor : option Corridor.t
}.

Module PaginatedResponse.
Record t : Type := mk {
  items : list Enriched;
  total : Z;
  page : Z;
  per_page : Z;
  pages : Z;
  has_next : bool;
  has_prev : bool
}.
End PaginatedResponse.

(** The answer of [/remittances/search]: the page and the query. *)
Record SearchResponse : Type := mkSearchResponse {
  query : str;
  result_page : PaginatedResponse.t
}.

(** ** [routers/remittances.py]: helpers *)

Definition _calculate_fee (db : Store) (amount : float) (corridor_id : Z)
    (is_express : bool) : Res float :=
  match dict_get (corridors_db db) corridor_id with
  | None => Exc (KeyError corridor_id)
  | Some corridor =>
      let fee_percentage := Corridor.base_fee_percentage corridor in
      let fee_percentage :=
        if is_express then PrimFloat.add fee_percentage 2 else fee_percentage in
      Val (round2 (PrimFloat.div (PrimFloat.mul amount fee_percentage) 100))
  end.

(** [REM-YYYYMMDD-XXX]; [now] is the clock reading of the call. *)
Definition _generate_reference_code (now : datetime) (remittance_id : Z) : str :=
  u "REM-" ++ strftime_Ymd now ++ u "-" ++ zfill (str_of_int remittance_id) 3.

Definition _enrich_with_corridor (db : Store) (remittance : Remittance.t) : Enriched :=
  mkEnriched remittance (dict_get (corridors_db db) (Remittance.corridor_id remittance)).

Section Handlers.

Context {L : Lowercase}.

(** [needle in haystack.lower()], the needle already lowercased. *)
Definition in_lower (needle_lower haystack : str) : bool :=
  contains needle_lower (lower haystack).

(** The eight filters, applied one after the other; [if filters.search:]
    skips the first one for an absent and for an empty search string. *)
Definition _apply_filters (items : list Remittance.t) (filters : RemittanceFilters.t)
    : list Remittance.t :=
  let result := items in
  let result :=
    match RemittanceFilters.search filters with
    | Some (c :: s) =>
        let search_lower := lower (c :: s) in
        List.filter (fun r =>
          in_lower search_lower (Remittance.sender_name r)
          || in_lower search_lower (Remittance.recipient_name r)
          || in_lower search_lower (Remittance.reference_code r)) result
    | _ => result
    end in
  let result :=
    match RemittanceFilters.corridor_id filters with
    | Some corridor_id =>
        List.filter (fun r => Remittance.corridor_id r =? corridor_id) result
    | None => result
    end in
  let result :=
    match RemittanceFilters.min_amount filters with
    | Some min_amount =>
        List.filter (fun r => PrimFloat.leb min_amount (Remittance.amount r)) result
    | None => result
    end in
  let result :=
    match RemittanceFilters.max_amount filters with
    | Some max_amount =>
        List.filter (fun r => PrimFloat.leb (Remittance.amount r) max_amount) result
    | None => result
    end in
  let result :=
    match RemittanceFilters.status filters with
    | Some status =>
        List.filter (fun r => RemittanceStatus_eqb (Remittance.status r) status) result
    | None => result
    end in
  let result :=
    match RemittanceFilters.currency filters with
    | Some currency =>
        List.filter (fun r => Currency_eqb (Remittance.currency r) currency) result
    | None => result
    end in
  let result :=
    match RemittanceFilters.payment_method filters with
    | Some payment_method =>
        List.filter
          (fun r => PaymentMethod_eqb (Remittance.payment_method r) payment_method)
          result
    | None => result
    end in
  let result :=
    match RemittanceFilters.is_express filters with
    | Some is_express =>
        List.filter (fun r => Bool.eqb (Remittance.is_express r) is_express) result
    | None => result
    end in
  result.

(** ** [GET /remittances/search] *)

(** One turn of the loop over [remittances_db.values()]. *)
Definition search_match (db : Store) (query_lower : str) (remittance : Remittance.t) : bool :=
  let match_ :=
    in_lower query_lower (Remittance.sender_name remittance)
    || in_lower query_lower (Remittance.recipient_name remittance)
    || in_lower query_lower (Remittance.reference_code remittance) in
  if negb match_ then
    match dict_get (corridors_db db) (Remittance.corridor_id remittance) with
    | Some corridor =>
        in_lower query_lower (Corridor.origin_country corridor)
        || in_lower query_lower (Corridor.destination_country corridor)
        || in_lower query_lower (Corridor.code corridor)
    | None =>
        (* [corridors_db.get(id, {})]: every [.get(key, "")] gives [""] *)
        in_lower query_lower [] || in_lower query_lower [] || in_lower query_lower []
    end
  else match_.

Fixpoint search_loop (db : Store) (query_lower : str) (rest : list Remittance.t)
    (results : list Enriched) : list Enriched :=
  match rest with
  | [] => results
  | remittance :: rest' =>
      search_loop db query_lower rest'
        (if search_match db query_lower remittance
         then results ++ [_enrich_with_corridor db remittance]
         else results)
  end.

(** The list [results] the loop builds for a query. *)
Definition search_results (db : Store) (q : str) : list Enriched :=
  search_loop db (lower q) (values (remittances_db db)) [].

(** [page] and [per_page] are plain [int] parameters here: no bound is
    declared on them, and a zero [per_page] divides by zero when something
    matched. *)
Definition search_remittances (db : Store) (q : str) (page per_page : Z)
    : Outcome SearchResponse :=
  if len q <? 2 then Raise db (HTTPException 400 termino_de_busqueda_corto)
  else
    let results := search_results db q in
    let total := len results in
    match (if 0 <? total then floordiv (total + per_page - 1) per_page else Some 1) with
    | None => Raise db ZeroDivisionError
    | Some pages =>
        let start := (page - 1) * per_page in
        let items := slice results start (start + per_page) in
        Return db
          (mkSearchResponse q
             (PaginatedResponse.mk items total page per_page pages
                (page <? pages) (1 <? page)))
    end.

(** ** [GET /remittances] *)

Definition list_remittances (db : Store) (pagination : PaginationParams.t)
    (filters : RemittanceFilters.t) (sorting : SortingParams.t)
    : Outcome PaginatedResponse.t :=
  let result := values (remittances_db db) in
  let result := _apply_filters result filters in
  let sort_field := SortingParams.sort_by sorting in
  let reverse := match SortingParams.order sorting with desc => true | asc => false end in
  let result := list_sort (sort_key_ltb sort_field) reverse result in
  let total := len result in
  match (if 0 <? total
         then floordiv (total + PaginationParams.per_page pagination - 1)
                       (PaginationParams.per_page pagination)
         else Some 1) with
  | None => Raise db ZeroDivisionError
  | Some pages =>
      let start := PaginationParams.offset pagination in
      let end_ := start + PaginationParams.per_page pagination in
      let items := slice result start end_ in
      let items := List.map (_enrich_with_corridor db) items in
      Return db
        (PaginatedResponse.mk items total
           (PaginationParams.page pagination) (PaginationParams.per_page pagination)
           pages
           (PaginationParams.page pagination <? pages)
           (1 <? PaginationParams.page pagination))
  end.

End Handlers.

(** ** [POST /remittances] *)

(** FastAPI validates a request body against its schema before it calls the
    handler. *)
Definition with_body {A B : Type} (valid : A -> bool)
    (handler : Store -> A -> Outcome B) (db : Store) (body : A) : Outcome B :=
  if valid body then handler db body else Raise db RequestValidationError.

(** [now_ref] and [now_created] are the two readings of the clock, for the
    reference code and for [created_at]. *)
Definition create_remittance (now_ref now_created : datetime) (db : Store)
    (remittance : RemittanceCreate.t) : Outcome Enriched :=
  let corridor_id := RemittanceCreate.corridor_id remittance in
  match dict_get (corridors_db db) corridor_id with
  | None => Raise db (HTTPException 400 (corredor_no_encontrado (Some corridor_id)))
  | Some corridor =>
      if negb (Corridor.is_active corridor)
      then Raise db (HTTPException 400 (corredor_no_activo_actualmente (Corridor.name corridor)))
      else
        let (new_id, db) := get_next_remittance_id db in
        match _calculate_fee db (RemittanceCreate.amount remittance) corridor_id
                (RemittanceCreate.is_express remittance) with
        | Exc e => Raise db e
        | Val fee =>
            let remittance_dict :=
              Remittance.mk new_id
                (_generate_reference_code now_ref new_id)
                (RemittanceCreate.sender_name remittance)
                (RemittanceCreate.recipient_name remittance)
                corridor_id
                (RemittanceCreate.amount remittance)
                (RemittanceCreate.currency remittance)
                (RemittanceCreate.exchange_rate remittance)
                fee
                (RemittanceCreate.payment_method remittance)
                pending
                (RemittanceCreate.is_express remittance)
                now_created in
            let db := set_remittances_db db
                        (dict_set (remittances_db db) new_id remittance_dict) in
            Return db (_enrich_with_corridor db remittance_dict)
        end
  end.

(** ** [PUT /remittances/{id}] *)

Definition replace_remittance (remittance_id : Z) (db : Store)
    (remittance : RemittanceCreate.t) : Outcome Enriched :=
  match dict_get (remittances_db db) remittance_id with
  | None => Raise db (HTTPException 404 (remesa_no_encontrada remittance_id))
  | Some existing =>
      let corridor_id := RemittanceCreate.corridor_id remittance in
      match dict_get (corridors_db db) corridor_id with
      | None => Raise db (HTTPException 400 (corredor_no_encontrado (Some corridor_id)))
      | Some corridor =>
          if negb (Corridor.is_active corridor)
          then Raise db (HTTPException 400 (corredor_no_activo_actualmente (Corridor.name corridor)))
          else
            match _calculate_fee db (RemittanceCreate.amount remittance) corridor_id
                    (RemittanceCreate.is_express remittance) with
            | Exc e => Raise db e
            | Val fee =>
                let remittance_dict :=
                  Remittance.mk remittance_id
                    (Remittance.reference_code existing)
                    (RemittanceCreate.sender_name remittance)
                    (RemittanceCreate.recipient_name remittance)
                    corridor_id
                    (RemittanceCreate.amount remittance)
                    (RemittanceCreate.currency remittance)
                    (RemittanceCreate.exchange_rate remittance)
                    fee
                    (RemittanceCreate.payment_method remittance)
                    (Remittance.status existing)
                    (RemittanceCreate.is_express remittance)
                    (Remittance.created_at existing) in
                let db := set_remittances_db db
                            (dict_set (remittances_db db) remittance_id remittance_dict) in
                Return db (_enrich_with_corridor db remittance_dict)
            end
      end
  end.

(** ** [PATCH /remittances/{id}] *)

(** [record.update(update_data)] on a stored remittance; [None] when a field
    was sent as [null]. *)
Definition Remittance_update (r : Remittance.t) (update_data : RemittanceUpdate.t)
    : option Remittance.t :=
  match updated (Remittance.sender_name r) (RemittanceUpdate.sender_name update_data),
        updated (Remittance.recipient_name r) (RemittanceUpdate.recipient_name update_data),
        updated (Remittance.corridor_id r) (RemittanceUpdate.corridor_id update_data),
        updated (Remittance.amount r) (RemittanceUpdate.amount update_data),
        updated (Remittance.currency r) (RemittanceUpdate.currency update_data),
        updated (Remittance.exchange_rate r) (RemittanceUpdate.exchange_rate update_data),
        updated (Remittance.payment_method r) (RemittanceUpdate.payment_method update_data),
        updated (Remittance.status r) (RemittanceUpdate.status update_data),
        updated (Remittance.is_express r) (RemittanceUpdate.is_express update_data)
  with
  | Some sender_name, Some recipient_name, Some corridor_id, Some amount,
    Some currency, Some exchange_rate, Some payment_method, Some status,
    Some is_express =>
      Some (Remittance.mk (Remittance.id r) (Remittance.reference_code r)
              sender_name recipient_name corridor_id amount currency exchange_rate
              (Remittance.fee r) payment_method status is_express
              (Remittance.created_at r))
  | _, _, _, _, _, _, _, _, _ => None
  end.

Definition Remittance_set_fee (r : Remittance.t) (fee : float) : Remittance.t :=
  Remittance.mk (Remittance.id r) (Remittance.reference_code r)
    (Remittance.sender_name r) (Remittance.recipient_name r)
    (Remittance.corridor_id r) (Remittance.amount r) (Remittance.currency r)
    (Remittance.exchange_rate r) fee (Remittance.payment_method r)
    (Remittance.status r) (Remittance.is_express r) (Remittance.created_at r).

(** The corridor check of the partial update: the exception it raises, if any.
    A [null] corridor id is looked up like any other key and is not found. *)
Definition update_corridor_check (db : Store) (corridor_id : field Z) : option Exn :=
  match corridor_id with
  | Unset => None
  | Null => Some (HTTPException 400 (corredor_no_encontrado None))
  | Value cid =>
      match dict_get (corridors_db db) cid with
      | None => Some (HTTPException 400 (corredor_no_encontrado (Some cid)))
      | Some corridor =>
          if negb (Corridor.is_active corridor)
          then Some (HTTPException 400 (corredor_no_activo (Corridor.name corridor)))
          else None
      end
  end.

Definition update_remittance (remittance_id : Z) (db : Store)
    (remittance : RemittanceUpdate.t) : Outcome Enriched :=
  match dict_get (remittances_db db) remittance_id with
  | None => Raise db (HTTPException 404 (remesa_no_encontrada remittance_id))
  | Some existing =>
      let update_data := remittance in
      match update_corridor_check db (RemittanceUpdate.corridor_id update_data) with
      | Some e => Raise db e
      | None =>
          match Remittance_update existing update_data with
          | None => NullStored
          | Some current =>
              let db := set_remittances_db db
                          (dict_set (remittances_db db) remittance_id current) in
              if is_set (RemittanceUpdate.amount update_data)
                 || is_set (RemittanceUpdate.corridor_id update_data)
                 || is_set (RemittanceUpdate.is_express update_data)
              then
                match _calculate_fee db (Remittance.amount current)
                        (Remittance.corridor_id current)
                        (Remittance.is_express current) with
                | Exc e => Raise db e
                | Val fee =>
                    let current := Remittance_set_fee current fee in
                    let db := set_remittances_db db
                                (dict_set (remittances_db db) remittance_id current) in
                    Return db (_enrich_with_corridor db current)
                end
              else Return db (_enrich_with_corridor db current)
          end
      end
  end.

(** ** [DELETE /remittances/{id}] *)

Definition delete_remittance (remittance_id : Z) (db : Store) : Outcome unit :=
  match dict_get (remittances_db db) remittance_id with
  | None => Raise db (HTTPException 404 (remesa_no_encontrada remittance_id))
  | Some remittance =>
      match Remittance.status remittance with
      | pending | cancelled =>
          Return (set_remittances_db db (dict_del (remittances_db db) remittance_id)) tt
      | st => Raise db (HTTPException 400 (estado_no_eliminable st))
      end
  end.

(** ** [routers/corridors.py] *)

Definition Corridor_update (c : Corridor.t) (update_data : CorridorUpdate.t)
    : option Corridor.t :=
  match updated (Corridor.name c) (CorridorUpdate.name update_data),
        updated (Corridor.code c) (CorridorUpdate.code update_data),
        updated (Corridor.origin_country c) (CorridorUpdate.origin_country update_data),
        updated (Corridor.destination_country c)
          (CorridorUpdate.destination_country update_data),
        updated (Corridor.base_fee_percentage c)
          (CorridorUpdate.base_fee_percentage update_data),
        updated (Corridor.is_active c) (CorridorUpdate.is_active update_data)
  with
  | Some name, Some code, Some origin_country, Some destination_country,
    Some base_fee_percentage, Some is_active =>
      Some (Corridor.mk (Corridor.id c) name code origin_country destination_country
              base_fee_percentage is_active (Corridor.created_at c))
  | _, _, _, _, _, _ => None
  end.

(** [PATCH /corridors/{id}] *)
Definition update_corridor (corridor_id : Z) (db : Store) (corridor : CorridorUpdate.t)
    : Outcome Corridor.t :=
  match dict_get (corridors_db db) corridor_id with
  | None => Raise db (HTTPException 404 (corredor_no_encontrado (Some corridor_id)))
  | Some stored =>
      let update_data := corridor in
      let duplicate :=
        match CorridorUpdate.code update_data with
        | Value code =>
            if List.existsb
                 (fun kv => negb (fst kv =? corridor_id)
                            && str_eqb (Corridor.code (snd kv)) code)
                 (corridors_db db)
            then Some code else None
        | _ => None
        end in
      match duplicate with
      | Some code => Raise db (HTTPException 400 (otro_corredor_con_codigo code))
      | None =>
          match Corridor_update stored update_data with
          | None => NullStored
          | Some c =>
              Return (set_corridors_db db (dict_set (corridors_db db) corridor_id c)) c
          end
      end
  end.

(** [DELETE /corridors/{id}] *)
Definition delete_corridor (corridor_id : Z) (db : Store) : Outcome unit :=
  match dict_get (corridors_db db) corridor_id with
  | None => Raise db (HTTPException 404 (corredor_no_encontrado (Some corridor_id)))
  | Some _ =>
      let has_remittances :=
        List.existsb (fun r => Remittance.corridor_id r =? corridor_id)
          (values (remittances_db db)) in
      if has_remittances
      then Raise db (HTTPException 400 corredor_con_remesas)
      else Return (set_corridors_db db (dict_del (corridors_db db) corridor_id)) tt
  end.

(** ** The seeded store of [database.py] *)

(** Accented letters of the seeded names, by code point. *)
Definition a' : str := [225%N].
Definition e' : str := [233%N].
Definition i' : str := [237%N].
Definition o' : str := [243%N].
Definition n' : str := [241%N].

Definition at_ (y m d h mi s : Z) : datetime := Datetime y m d h mi s 0.

Definition seed_corridors : dict Corridor.t :=
  [ (1, Corridor.mk 1 (u "Estados Unidos a M" ++ e' ++ u "xico") (u "US-MX")
          (u "Estados Unidos") (u "M" ++ e' ++ u "xico") 3.5 true
          (at_ 2024 1 1 10 0 0));
    (2, Corridor.mk 2 (u "Estados Unidos a Colombia") (u "US-CO")
          (u "Estados Unidos") (u "Colombia") 4.0 true
          (at_ 2024 1 1 10 0 0));
    (3, Corridor.mk 3 (u "Estados Unidos a Guatemala") (u "US-GT")
          (u "Estados Unidos") (u "Guatemala") 4.5 true
          (at_ 2024 1 15 8 0 0));
    (4, Corridor.mk 4 (u "Espa" ++ n' ++ u "a a Ecuador") (u "ES-EC")
          (u "Espa" ++ n' ++ u "a") (u "Ecuador") 3.8 true
          (at_ 2024 2 1 9 0 0));
    (5, Corridor.mk 5 (u "Reino Unido a India") (u "UK-IN")
          (u "Reino Unido") (u "India") 2.5 false
          (at_ 2024 2 15 11 0 0)) ].

Definition seed_remittances : dict Remittance.t :=
  [ (1, Remittance.mk 1 (u "REM-20240115-001")
          (u "Carlos Garc" ++ i' ++ u "a")
          (u "Mar" ++ i' ++ u "a Garc" ++ i' ++ u "a L" ++ o' ++ u "pez")
          1 500.00 USD 17.45 17.50 bank_transfer completed false
          (at_ 2024 1 15 9 0 0));
    (2, Remittance.mk 2 (u "REM-20240120-002")
          (u "Juan P" ++ e' ++ u "rez")
          (u "Ana P" ++ e' ++ u "rez Mu" ++ n' ++ u "oz")
          2 1200.00 USD 4185.50 48.00 debit_card completed false
          (at_ 2024 1 20 14 0 0));
    (3, Remittance.mk 3 (u "REM-20240201-003")
          (u "Miguel Torres") (u "Pedro Torres Ruiz")
          3 300.00 USD 7.82 19.50 cash processing true
          (at_ 2024 2 1 10 0 0));
    (4, Remittance.mk 4 (u "REM-20240210-004")
          (u "Roberto S" ++ a' ++ u "nchez")
          (u "Luc" ++ i' ++ u "a S" ++ a' ++ u "nchez Vega")
          4 800.00 EUR 1.08 30.40 bank_transfer pending false
          (at_ 2024 2 10 8 30 0));
    (5, Remittance.mk 5 (u "REM-20240215-005")
          (u "Laura Mart" ++ i' ++ u "nez")
          (u "Carmen D" ++ i' ++ u "az Mart" ++ i' ++ u "nez")
          1 2000.00 USD 17.52 110.00 mobile_wallet completed true
          (at_ 2024 2 15 11 0 0));
    (6, Remittance.mk 6 (u "REM-20240301-006")
          (u "Andr" ++ e' ++ u "s L" ++ o' ++ u "pez")
          (u "Felipe L" ++ o' ++ u "pez Herrera")
          2 150.00 USD 4192.30 6.00 cash failed false
          (at_ 2024 3 1 16 0 0));
    (7, Remittance.mk 7 (u "REM-20240305-007")
          (u "Diana Ram" ++ i' ++ u "rez")
          (u "Jorge Ram" ++ i' ++ u "rez Solano")
          1 750.00 USD 17.48 26.25 debit_card pending false
          (at_ 2024 3 5 9 0 0));
    (8, Remittance.mk 8 (u "REM-20240310-008")
          (u "Patricia Flores") (u "Rosa Flores Morales")
          3 450.00 USD 7.85 20.25 bank_transfer cancelled false
          (at_ 2024 3 10 10 0 0)) ].

Definition seed : Store := mkStore seed_corridors seed_remittances 6 9.

(** ** A lowercasing for the seeded data

    Python's [str.lower()] on Basic Latin and Latin-1: [A]-[Z] and the
    accented capitals U+00C0-U+00DE (but the multiplication sign U+00D7) move
    32 code points up, every other code point of the two blocks is left as it
    is.  Code points above U+00FF, which the seeded data does not use, are left
    as they are. *)
Definition lower_cp (c : N) : N :=
  if ((65 <=? c) && (c <=? 90))%N then (c + 32)%N
  else if ((192 <=? c) && (c <=? 222) && negb (c =? 215))%N then (c + 32)%N
  else c.

Definition latin1_lower (s : str) : str := List.map lower_cp s.

Definition Latin1 : Lowercase :=
  Build_Lowercase latin1_lower eq_refl
    (fun s => eq_ind_r (fun n => (List.length s <= n)%nat) (le_n _)
                (List.length_map lower_cp s)).

(** ** The specification's formulas

    The definitions below follow the words of the specification, not the
    code; the theorems compare the handlers with them. *)

(** The fee rule: [round(a * (p + 2.0 if e else p) / 100, 2)]. *)
Definition computeFee (amount baseFeePercentage : float) (isExpress : bool) : float :=
  round2
    (PrimFloat.div
       (PrimFloat.mul amount
          (if isExpress then PrimFloat.add baseFeePercentage 2 else baseFeePercentage))
       100).

(** [ceil(a / b)] for a positive [b]. *)
Definition ceil_div (a b : Z) : Z := - ((- a) / b).

(** A predicate that may be absent: absent, it holds of everything. *)
Definition present {A : Type} (o : option A) (p : A -> bool) : bool :=
  match o with
  | None => true
  | Some v => p v
  end.

Section Specification.

Context {L : Lowercase}.

(** [q] occurs in [s], case ignored. *)
Definition ci_substring (q s : str) : bool := contains (lower q) (lower s).

(** The free-text predicate of the filter engine. *)
Definition text_match (q : str) (r : Remittance.t) : bool :=
  ci_substring q (Remittance.sender_name r)
  || ci_substring q (Remittance.recipient_name r)
  || ci_substring q (Remittance.reference_code r).

(** A record satisfies every predicate that is present. *)
Definition satisfies (f : RemittanceFilters.t) (r : Remittance.t) : bool :=
  present (RemittanceFilters.search f) (fun q => text_match q r)
  && present (RemittanceFilters.corridor_id f) (fun c => Remittance.corridor_id r =? c)
  && present (RemittanceFilters.min_amount f)
       (fun m => PrimFloat.leb m (Remittance.amount r))
  && present (RemittanceFilters.max_amount f)
       (fun m => PrimFloat.leb (Remittance.amount r) m)
  && present (RemittanceFilters.status f)
       (fun s => RemittanceStatus_eqb (Remittance.status r) s)
  && present (RemittanceFilters.currency f)
       (fun c => Currency_eqb (Remittance.currency r) c)
  && present (RemittanceFilters.payment_method f)
       (fun m => PaymentMethod_eqb (Remittance.payment_method r) m)
  && present (RemittanceFilters.is_express f)
       (fun e => Bool.eqb (Remittance.is_express r) e).

(** The search engine's match: a field of the remittance, or, when none of
    them matches, a field of the corridor the remittance refers to. *)
Definition search_hit (db : Store) (q : str) (r : Remittance.t) : bool :=
  text_match q r
  || (negb (text_match q r)
      && match dict_get (corridors_db db) (Remittance.corridor_id r) with
         | Some c =>
             ci_substring q (Corridor.origin_country c)
             || ci_substring q (Corridor.destination_country c)
             || ci_substring q (Corridor.code c)
         | None => false
         end).

End Specification.

(** The corridor a request names is missing from the store, or inactive. *)
Definition unusable_corridor (db : Store) (corridor_id : Z) : Prop :=
  dict_get (corridors_db db) corridor_id = None
  \/ exists c, dict_get (corridors_db db) corridor_id = Some c
               /\ Corridor.is_active c = false.

(** A partial update carries one of the three fields the fee depends on. *)
Definition fee_fields_supplied (body : RemittanceUpdate.t) : bool :=
  is_set (RemittanceUpdate.amount body)
  || is_set (RemittanceUpdate.corridor_id body)
  || is_set (RemittanceUpdate.is_express body).

(** A stored remittance with another status, all else the same. *)
Definition Remittance_set_status (r : Remittance.t) (s : RemittanceStatus)
    : Remittance.t :=
  Remittance.mk (Remittance.id r) (Remittance.reference_code r)
    (Remittance.sender_name r) (Remittance.recipient_name r)
    (Remittance.corridor_id r) (Remittance.amount r) (Remittance.currency r)
    (Remittance.exchange_rate r) (Remittance.fee r) (Remittance.payment_method r)
    s (Remittance.is_express r) (Remittance.created_at r).

(** The comparison of a sort key that is totally ordered up to equal keys:
    irreflexive, transitive, and with incomparability transitive. *)
Definition strict_weak_order {A : Type} (lt : A -> A -> bool) : Prop :=
  (forall x, lt x x = false)
  /\ (forall x y z, lt x y = true -> lt y z = true -> lt x z = true)
  /\ (forall x y z, lt x y = true -> lt x z = true \/ lt z y = true).

(** [p] selects records of one key: no two of them compare as smaller. *)
Definition same_key {A : Type} (lt : A -> A -> bool) (p : A -> bool) : Prop :=
  forall x y, p x = true -> p y = true -> lt x y = false.

(** No element is smaller than one before it. *)
Definition ascending {A : Type} (lt : A -> A -> bool) (l : list A) : Prop :=
  StronglySorted (fun a b => lt b a = false) l.

(** No element is smaller than one after it. *)
Definition descending {A : Type} (lt : A -> A -> bool) (l : list A) : Prop :=
  StronglySorted (fun a b => lt a b = false) l.

(** ** Stores and bodies used in the examples *)

(** The seeded store after [PATCH /corridors/1] has raised the base fee of
    the first corridor to 5 percent. *)
Definition seed_repriced : Store :=
  match update_corridor 1 seed
          (CorridorUpdate.mk Unset Unset Unset Unset (Value 5%float) Unset) with
  | Return db _ => db
  | _ => seed
  end.

(** The body that sends back to remittance 1 the values it already has. *)
Definition same_as_remittance_1 : RemittanceCreate.t :=
  RemittanceCreate.mk
    (u "Carlos Garc" ++ i' ++ u "a")
    (u "Mar" ++ i' ++ u "a Garc" ++ i' ++ u "a L" ++ o' ++ u "pez")
    500 USD 17.45 bank_transfer false 1.

(** A partial update that sets the status and nothing else. *)
Definition only_status (s : RemittanceStatus) : RemittanceUpdate.t :=
  RemittanceUpdate.mk Unset Unset Unset Unset Unset Unset Unset (Value s) Unset.

(** A partial update that sets the amount and nothing else. *)
Definition only_amount (a : float) : RemittanceUpdate.t :=
  RemittanceUpdate.mk Unset Unset (Value a) Unset Unset Unset Unset Unset Unset.

(** A partial update that sets the corridor and nothing else. *)
Definition only_corridor (c : Z) : RemittanceUpdate.t :=
  RemittanceUpdate.mk Unset Unset Unset Unset Unset Unset (Value c) Unset Unset.

(** A creation request for corridor [c]. *)
Definition request_for (c : Z) : RemittanceCreate.t :=
  RemittanceCreate.mk (u "Ana Ruiz") (u "Luis Ruiz") 250 USD 17.5 cash false c.

(** ** [routers/corridors.py]: the remaining handlers *)

(** FastAPI checks a [Path(..., gt=0)] identifier before it calls the
    handler. *)
Definition with_path {B : Type} (handler : Z -> Store -> Outcome B) (ident : Z)
    (db : Store) : Outcome B :=
  if 0 <? ident then handler ident db else Raise db RequestValidationError.

Module CorridorCreate.
Record t : Type := mk {
  name : str;
  code : str;
  origin_country : str;
  destination_country : str;
  base_fee_percentage : float;
  is_active : bool
}.

Definition upper (c : N) : bool := ((65 <=? c) && (c <=? 90))%N.

(** [^[A-Z]{2}-[A-Z]{2}$] *)
Definition code_pattern (s : str) : bool :=
  match s with
  | [a; b; d; x; y] => upper a && upper b && N.eqb d 45 && upper x && upper y
  | _ => false
  end.

(** The [Field] constraints of [CorridorBase]. *)
Definition valid (b : t) : bool :=
  (2 <=? len (name b)) && (len (name b) <=? 100) &&
  (4 <=? len (code b)) && (len (code b) <=? 10) && code_pattern (code b) &&
  (2 <=? len (origin_country b)) && (len (origin_country b) <=? 50) &&
  (2 <=? len (destination_country b)) && (len (destination_country b) <=? 50) &&
  PrimFloat.ltb 0 (base_fee_percentage b) && PrimFloat.leb (base_fee_percentage b) 15.
End CorridorCreate.

(** A creation request for a corridor with code [code]. *)
Definition corridor_request (code : str) : CorridorCreate.t :=
  CorridorCreate.mk (u "Estados Unidos a Honduras") code (u "Estados Unidos")
    (u "Honduras") 4.0 true.

(** [GET /corridors] *)
Definition list_corridors (is_active : option bool) (db : Store)
    : Outcome (list Corridor.t) :=
  let result := values (corridors_db db) in
  let result :=
    match is_active with
    | Some is_active =>
        List.filter (fun c => Bool.eqb (Corridor.is_active c) is_active) result
    | None => result
    end in
  Return db result.

(** [GET /corridors/{id}] *)
Definition get_corridor (corridor_id : Z) (db : Store) : Outcome Corridor.t :=
  match dict_get (corridors_db db) corridor_id with
  | None => Raise db (HTTPException 404 (corredor_no_encontrado (Some corridor_id)))
  | Some c => Return db c
  end.

(** [POST /corridors]; [now] is the reading of the clock. *)
Definition create_corridor (now : datetime) (db : Store) (corridor : CorridorCreate.t)
    : Outcome Corridor.t :=
  if List.existsb
       (fun existing => str_eqb (Corridor.code existing) (CorridorCreate.code corridor))
       (values (corridors_db db))
  then Raise db (HTTPException 400 (corredor_con_codigo (CorridorCreate.code corridor)))
  else
    let (new_id, db) := get_next_corridor_id db in
    let corridor_dict :=
      Corridor.mk new_id
        (CorridorCreate.name corridor) (CorridorCreate.code corridor)
        (CorridorCreate.origin_country corridor)
        (CorridorCreate.destination_country corridor)
        (CorridorCreate.base_fee_percentage corridor)
        (CorridorCreate.is_active corridor)
        now in
    Return (set_corridors_db db (dict_set (corridors_db db) new_id corridor_dict))
      corridor_dict.

(** [PUT /corridors/{id}] *)
Definition replace_corridor (corridor_id : Z) (db : Store) (corridor : CorridorCreate.t)
    : Outcome Corridor.t :=
  match dict_get (corridors_db db) corridor_id with
  | None => Raise db (HTTPException 404 (corredor_no_encontrado (Some corridor_id)))
  | Some stored =>
      if List.existsb
           (fun kv => negb (fst kv =? corridor_id)
                      && str_eqb (Corridor.code (snd kv)) (CorridorCreate.code corridor))
           (corridors_db db)
      then Raise db (HTTPException 400
                       (otro_corredor_con_codigo (CorridorCreate.code corridor)))
      else
        let corridor_dict :=
          Corridor.mk corridor_id
            (CorridorCreate.name corridor) (CorridorCreate.code corridor)
            (CorridorCreate.origin_country corridor)
            (CorridorCreate.destination_country corridor)
            (CorridorCreate.base_fee_percentage corridor)
            (CorridorCreate.is_active corridor)
            (Corridor.created_at stored) in
        Return (set_corridors_db db (dict_set (corridors_db db) corridor_id corridor_dict))
          corridor_dict
  end.

(** The answer of [GET /corridors/{id}/remittances]: the corridor and a page
    of its remittances, which are not enriched. *)
Record CorridorRemittances : Type := mkCorridorRemittances {
  of_corridor : Corridor.t;
  cr_items : list Remittance.t;
  cr_total : Z;
  cr_page : Z;
  cr_per_page : Z;
  cr_pages : Z;
  cr_has_next : bool;
  cr_has_prev : bool
}.

(** [GET /corridors/{id}/remittances]: the [Query] bounds on [page] and
    [per_page] and the [Path] bound on the identifier are checked first. *)
Definition get_corridor_remittances (corridor_id page per_page : Z) (db : Store)
    : Outcome CorridorRemittances :=
  if negb ((0 <? corridor_id) && (1 <=? page) && (1 <=? per_page) && (per_page <=? 50))
  then Raise db RequestValidationError
  else
    match dict_get (corridors_db db) corridor_id with
    | None => Raise db (HTTPException 404 (corredor_no_encontrado (Some corridor_id)))
    | Some c =>
        let corridor_remittances :=
          List.filter (fun r => Remittance.corridor_id r =? corridor_id)
            (values (remittances_db db)) in
        let total := len corridor_remittances in
        match (if 0 <? total then floordiv (total + per_page - 1) per_page
               else Some 1) with
        | None => Raise db ZeroDivisionError
        | Some pages =>
            let start := (page - 1) * per_page in
            let end_ := start + per_page in
            let items := slice corridor_remittances start end_ in
            Return db
              (mkCorridorRemittances c items total page per_page pages
                 (page <? pages) (1 <? page))
        end
    end.

(** ** [GET /remittances/{id}] *)

Definition get_remittance (remittance_id : Z) (db : Store) : Outcome Enriched :=
  match dict_get (remittances_db db) remittance_id with
  | None => Raise db (HTTPException 404 (remesa_no_encontrada remittance_id))
  | Some r => Return db (_enrich_with_corridor db r)
  end.

(** ** The service as a state machine

    The requests that write to the store, and what each endpoint does with
    one: FastAPI's checks of the path and of the body, then the handler. *)

(** The [Field] constraints of [CorridorUpdate]. *)
Definition CorridorUpdate_valid (b : CorridorUpdate.t) : bool :=
  on_value (CorridorUpdate.name b) (fun s => (2 <=? len s) && (len s <=? 100)) &&
  on_value (CorridorUpdate.code b)
    (fun s => (4 <=? len s) && (len s <=? 10) && CorridorCreate.code_pattern s) &&
  on_value (CorridorUpdate.origin_country b)
    (fun s => (2 <=? len s) && (len s <=? 50)) &&
  on_value (CorridorUpdate.destination_country b)
    (fun s => (2 <=? len s) && (len s <=? 50)) &&
  on_value (CorridorUpdate.base_fee_percentage b)
    (fun p => PrimFloat.ltb 0 p && PrimFloat.leb p 15).

Inductive Request : Type :=
| POST_corridor (now : datetime) (body : CorridorCreate.t)
| PUT_corridor (corridor_id : Z) (body : CorridorCreate.t)
| PATCH_corridor (corridor_id : Z) (body : CorridorUpdate.t)
| DELETE_corridor (corridor_id : Z)
| POST_remittance (now_ref now_created : datetime) (body : RemittanceCreate.t)
| PUT_remittance (remittance_id : Z) (body : RemittanceCreate.t)
| PATCH_remittance (remittance_id : Z) (body : RemittanceUpdate.t)
| DELETE_remittance (remittance_id : Z).

(** An outcome without its value. *)
Definition forget {A : Type} (o : Outcome A) : Outcome unit :=
  match o with
  | Return db _ => Return db tt
  | Raise db e => Raise db e
  | NullStored => NullStored
  end.

Definition handle (req : Request) (db : Store) : Outcome unit :=
  match req with
  | POST_corridor now body =>
      forget (with_body CorridorCreate.valid (create_corridor now) db body)
  | PUT_corridor corridor_id body =>
      forget (with_path
                (fun i db => with_body CorridorCreate.valid (replace_corridor i) db body)
                corridor_id db)
  | PATCH_corridor corridor_id body =>
      forget (with_path
                (fun i db => with_body CorridorUpdate_valid (update_corridor i) db body)
                corridor_id db)
  | DELETE_corridor corridor_id => forget (with_path delete_corridor corridor_id db)
  | POST_remittance now_ref now_created body =>
      forget (with_body RemittanceCreate.valid
                (create_remittance now_ref now_created) db body)
  | PUT_remittance remittance_id body =>
      forget (with_path
                (fun i db => with_body RemittanceCreate.valid (replace_remittance i) db body)
                remittance_id db)
  | PATCH_remittance remittance_id body =>
      forget (with_path
                (fun i db => with_body RemittanceUpdate.valid (update_remittance i) db body)
                remittance_id db)
  | DELETE_remittance remittance_id =>
      forget (with_path delete_remittance remittance_id db)
  end.

(** The store an outcome leaves, when the typed model follows it. *)
Definition store_after {A : Type} (o : Outcome A) : option Store :=
  match o with
  | Return db _ | Raise db _ => Some db
  | NullStored => None
  end.

(** The store after a sequence of requests, served one after the other. *)
Fixpoint run (reqs : list Request) (db : Store) : option Store :=
  match reqs with
  | [] => Some db
  | req :: reqs' =>
      match store_after (handle req db) with
      | Some db' => run reqs' db'
      | None => None
      end
  end.

(** [d.keys()] *)
Definition keys {V : Type} (d : dict V) : list Z := List.map fst d.

(** What the handlers keep true of the store: each dictionary has one entry
    per key, a record carries its key as [id], identifiers are positive and
    below the counter that hands out the next one, every remittance refers to
    a corridor of the store, and no two corridors share a code. *)
Record consistent (db : Store) : Prop := mkConsistent {
  corridor_keys : NoDup (keys (corridors_db db));
  remittance_keys : NoDup (keys (remittances_db db));
  corridor_ids :
    List.Forall
      (fun kv => Corridor.id (snd kv) = fst kv /\ 0 < fst kv < next_corridor_id db)
      (corridors_db db);
  remittance_ids :
    List.Forall
      (fun kv => Remittance.id (snd kv) = fst kv /\ 0 < fst kv < next_remittance_id db)
      (remittances_db db);
  counters_positive : 0 < next_corridor_id db /\ 0 < next_remittance_id db;
  corridors_exist :
    List.Forall
      (fun kv => dict_get (corridors_db db) (Remittance.corridor_id (snd kv)) <> None)
      (remittances_db db);
  codes_unique :
    forall k1 c1 k2 c2,
      List.In (k1, c1) (corridors_db db) -> List.In (k2, c2) (corridors_db db) ->
      Corridor.code c1 = Corridor.code c2 -> k1 = k2
}.

(** What a handler owes a consistent store: the store it returns is
    consistent; a refusal leaves the store as it was and is one of the errors
    of the taxonomy, not an exception nobody caught. *)
Definition preserved {A : Type} (db : Store) (o : Outcome A) : Prop :=
  match o with
  | Return db' _ => consistent db'
  | Raise db' e => db' = db /\ error_kind e <> None
  | NullStored => True
  end.

(** ** [GET /remittances/stats] *)

(** A [dict] with keys of any type, in insertion order. *)
Fixpoint assoc_get {K V : Type} (eqb : K -> K -> bool) (d : list (K * V)) (k : K)
    : option V :=
  match d with
  | [] => None
  | (k', v) :: d' => if eqb k' k then Some v else assoc_get eqb d' k
  end.

Fixpoint assoc_set {K V : Type} (eqb : K -> K -> bool) (d : list (K * V)) (k : K) (v : V)
    : list (K * V) :=
  match d with
  | [] => [(k, v)]
  | (k', v') :: d' =>
      if eqb k' k then (k, v) :: d' else (k', v') :: assoc_set eqb d' k v
  end.

(** A number of the answer: the integer [0] of an empty group, or a float. *)
Inductive number : Type :=
| Int (n : Z)
| Float (x : float).

(** [float(n)] for an integer: the nearest float. *)
Definition float_of_int (n : Z) : float :=
  SF2Prim (binary_normalize prec emax n 0 false).

Module CorridorStats.
Record t : Type := mk {
  corridor_name : str;
  corridor_id : Z;
  is_active : bool;
  total_remittances : Z;
  total_amount : number;
  average_amount : number;
  total_fees : number;
  by_status : list (RemittanceStatus * Z)
}.
End CorridorStats.

Module Summary.
Record t : Type := mk {
  total_remittances : Z;
  total_amount : number;
  average_amount : number;
  total_fees_collected : number;
  active_corridors : Z
}.
End Summary.

Record Stats : Type := mkStats {
  summary : Summary.t;
  by_corridor : list (str * CorridorStats.t)
}.

Section Statistics.

(** [sum] over floats.  Python adds from the left, starting from [0]; since
    3.12 it carries a compensation term as well.  The statistics are stated for
    either. *)
Variable sum : list float -> float.

(** [round(sum(xs), 2) if xs else 0] *)
Definition rounded_sum (xs : list float) : number :=
  match xs with
  | [] => Int 0
  | _ => Float (round2 (sum xs))
  end.

(** [round(sum(xs) / len(xs), 2) if xs else 0] *)
Definition rounded_average (xs : list float) : number :=
  match xs with
  | [] => Int 0
  | _ => Float (round2 (PrimFloat.div (sum xs) (float_of_int (len xs))))
  end.

(** The loop that counts the remittances of each status. *)
Definition count_statuses (rs : list Remittance.t) : list (RemittanceStatus * Z) :=
  List.fold_left
    (fun status_count r =>
       let st := Remittance.status r in
       assoc_set RemittanceStatus_eqb status_count st
         (match assoc_get RemittanceStatus_eqb status_count st with
          | Some n => n
          | None => 0
          end + 1))
    rs [].

(** The entry of one corridor. *)
Definition corridor_stats (db : Store) (corridor : Corridor.t) : CorridorStats.t :=
  let cid := Corridor.id corridor in
  let corridor_remittances :=
    List.filter (fun r => Remittance.corridor_id r =? cid) (values (remittances_db db)) in
  let amounts := List.map Remittance.amount corridor_remittances in
  let fees := List.map Remittance.fee corridor_remittances in
  let status_count := count_statuses corridor_remittances in
  CorridorStats.mk (Corridor.name corridor) cid (Corridor.is_active corridor)
    (len corridor_remittances)
    (rounded_sum amounts) (rounded_average amounts) (rounded_sum fees)
    status_count.

Definition get_remittance_stats (db : Store) : Outcome Stats :=
  let stats_by_corridor :=
    List.fold_left
      (fun stats corridor =>
         assoc_set str_eqb stats (Corridor.code corridor) (corridor_stats db corridor))
      (values (corridors_db db)) [] in
  let all_remittances := values (remittances_db db) in
  let all_amounts := List.map Remittance.amount all_remittances in
  let all_fees := List.map Remittance.fee all_remittances in
  Return db
    (mkStats
       (Summary.mk (len all_remittances)
          (rounded_sum all_amounts) (rounded_average all_amounts) (rounded_sum all_fees)
          (len (List.filter Corridor.is_active (values (corridors_db db)))))
       stats_by_corridor).

End Statistics.

(** The number of records of a list that pass a test. *)
Definition count {A : Type} (p : A -> bool) (l : list A) : Z := len (List.filter p l).

(** The sum of a list of integers. *)
Definition total (l : list Z) : Z := List.fold_right Z.add 0 l.

(** The record has status [s]. *)
Definition has_status (s : RemittanceStatus) (r : Remittance.t) : bool :=
  RemittanceStatus_eqb (Remittance.status r) s.

(** The sum as Python computed it before 3.12: from the left, starting from
    [0]. *)
Definition sum_left (xs : list float) : float := List.fold_left PrimFloat.add xs 0%float.

(** ** Definitions the properties of the store are stated with *)

(** A response whose corridor is there and is the one the remittance names. *)
Definition with_its_corridor (e : Enriched) : Prop :=
  exists c, corridor e = Some c /\ Corridor.id c = Remittance.corridor_id (remittance e).

(** The page numbers [1..pages]. *)
Definition page_numbers (pages : Z) : list Z :=
  List.map Z.of_nat (List.seq 1 (Z.to_nat pages)).

(** The items of one page of the listing, for a page size; empty when the
    request is refused. *)
Definition listing_items {L : Lowercase} (db : Store) (filters : RemittanceFilters.t)
    (sorting : SortingParams.t) (per_page page : Z) : list Enriched :=
  match PaginationParams.__init__ page per_page with
  | Val pagination =>
      match list_remittances db pagination filters sorting with
      | Return _ resp => PaginatedResponse.items resp
      | _ => []
      end
  | Exc _ => []
  end.

(** The records the listing pages: filtered, then sorted. *)
Definition listing_sorted {L : Lowercase} (db : Store) (filters : RemittanceFilters.t)
    (sorting : SortingParams.t) : list Remittance.t :=
  list_sort (sort_key_ltb (SortingParams.sort_by sorting))
    (match SortingParams.order sorting with desc => true | asc => false end)
    (_apply_filters (values (remittances_db db)) filters).

(** The number a string of decimal digits writes, read from the left with
    [acc] the value so far; [None] when a character is no digit. *)
Fixpoint digits_value (s : str) (acc : Z) : option Z :=
  match s with
  | [] => Some acc
  | c :: s' =>
      if ((48 <=? c) && (c <=? 57))%N
      then digits_value s' (acc * 10 + (Z.of_N c - 48))
      else None
  end.

(** The part of a string after its last dash. *)
Definition after_last_dash (s : str) : str :=
  List.fold_left (fun acc c => if N.eqb c 45 then [] else acc ++ [c]) s [].

(** The identifier a reference code ends with. *)
Definition reference_id (reference_code : str) : option Z :=
  digits_value (after_last_dash reference_code) 0.

(** A code point that is a decimal digit. *)
Definition is_digit (c : N) : Prop := (48 <= c <= 57)%N.

(** Every stored reference code was generated for the key it is stored
    under, at some date. *)
Definition derived_codes (db : Store) : Prop :=
  List.Forall
    (fun kv => exists now,
       Remittance.reference_code (snd kv) = _generate_reference_code now (fst kv))
    (remittances_db db).

(** The store an outcome leaves satisfies [P]. *)
Definition leaves {A : Type} (P : Store -> Prop) (o : Outcome A) : Prop :=
  match o with
  | Return db _ | Raise db _ => P db
  | NullStored => True
  end.

(** * Properties *)

(** ** Dictionaries *)

Lemma dict_get_set_same {V : Type} (d : dict V) (k : Z) (v : V) :
  dict_get (dict_set d k v) k = Some v.
Proof.
  induction d as [|[k' v'] d IH]; simpl.
  - now rewrite Z.eqb_refl.
  - destruct (k' =? k) eqn:E; simpl.
    + now rewrite Z.eqb_refl.
    + now rewrite E.
Qed.

Lemma dict_get_set_other {V : Type} (d : dict V) (k k' : Z) (v : V) :
  k' <> k -> dict_get (dict_set d k v) k' = dict_get d k'.
Proof.
  intros Hne. induction d as [|[k0 v0] d IH]; simpl.
  - destruct (k =? k') eqn:E; [apply Z.eqb_eq in E; congruence | reflexivity].
  - destruct (k0 =? k) eqn:E; simpl.
    + apply Z.eqb_eq in E. subst k0.
      destruct (k =? k') eqn:E'; [apply Z.eqb_eq in E'; congruence | reflexivity].
    + now rewrite IH.
Qed.

Lemma dict_get_del {V : Type} (d : dict V) (k k' : Z) :
  dict_get (dict_del d k) k' = if k' =? k then None else dict_get d k'.
Proof.
  unfold dict_del. induction d as [|[k0 v0] d IH]; simpl.
  - now destruct (k' =? k).
  - destruct (k0 =? k) eqn:E; simpl.
    + rewrite IH. apply Z.eqb_eq in E. subst k0.
      destruct (k' =? k) eqn:E'; [reflexivity|].
      rewrite Z.eqb_sym, E'. reflexivity.
    + rewrite IH. destruct (k0 =? k') eqn:E'; [|reflexivity].
      apply Z.eqb_eq in E'. subst k0. now rewrite E.
Qed.

(** ** Lists: filters, the sort and slices *)

Lemma filter_all {A : Type} (l : list A) : List.filter (fun _ => true) l = l.
Proof. induction l as [|x l IH]; simpl; [reflexivity | now rewrite IH]. Qed.

Lemma filter_twice {A : Type} (f g : A -> bool) (l : list A) :
  List.filter g (List.filter f l) = List.filter (fun x => f x && g x) l.
Proof.
  induction l as [|x l IH]; simpl; [reflexivity|].
  destruct (f x); simpl; [destruct (g x)|]; now rewrite IH.
Qed.

(** An optional filter step is a filter by the predicate that may be absent. *)
Lemma filter_present {A B : Type} (o : option B) (p : B -> A -> bool) (l : list A) :
  match o with Some v => List.filter (p v) l | None => l end
  = List.filter (fun r => present o (fun v => p v r)) l.
Proof. destruct o; simpl; [reflexivity | now rewrite filter_all]. Qed.

Lemma insert_sorted_length {A : Type} (lt : A -> A -> bool) (x : A) (l : list A) :
  List.length (insert_sorted lt x l) = S (List.length l).
Proof.
  induction l as [|y l IH]; simpl; [reflexivity|].
  destruct (lt x y); simpl; [reflexivity | now rewrite IH].
Qed.

Lemma sort_stable_length {A : Type} (lt : A -> A -> bool) (l : list A) :
  List.length (sort_stable lt l) = List.length l.
Proof.
  unfold sort_stable.
  assert (H : forall acc,
             List.length (List.fold_left (fun acc x => insert_sorted lt x acc) l acc)
             = (List.length acc + List.length l)%nat).
  { induction l as [|x l IH]; intros acc; simpl; [lia|].
    rewrite IH, insert_sorted_length. lia. }
  now rewrite H.
Qed.

Lemma list_sort_length {A : Type} (lt : A -> A -> bool) (reverse : bool) (l : list A) :
  List.length (list_sort lt reverse l) = List.length l.
Proof.
  unfold list_sort. destruct reverse.
  - now rewrite List.length_rev, sort_stable_length, List.length_rev.
  - apply sort_stable_length.
Qed.

(** The length of a slice whose bounds are not negative. *)
Lemma slice_length {A : Type} (l : list A) (start n : Z) :
  0 <= start -> 0 <= n ->
  len (slice l start (start + n)) = Z.min n (Z.max 0 (len l - start)).
Proof.
  intros Hs Hn. unfold slice, len.
  assert (E1 : (start <? 0) = false) by (apply Z.ltb_ge; lia).
  assert (E2 : (start + n <? 0) = false) by (apply Z.ltb_ge; lia).
  rewrite E1, E2, List.length_firstn, List.length_skipn. lia.
Qed.

Lemma slice_past_end {A : Type} (l : list A) (start n : Z) :
  len l <= start -> 0 <= n -> slice l start (start + n) = [].
Proof.
  intros Hs Hn. apply List.length_zero_iff_nil.
  pose proof (slice_length l start n) as H. unfold len in *. lia.
Qed.

(** The page count of the handlers is the ceiling of [total / per_page]. *)
Lemma pages_ceil (total per_page : Z) :
  0 < per_page -> (total + per_page - 1) / per_page = ceil_div total per_page.
Proof.
  intros Hp. unfold ceil_div.
  pose proof (Z.div_mod (total + per_page - 1) per_page) as H1.
  pose proof (Z.mod_pos_bound (total + per_page - 1) per_page Hp) as H2.
  pose proof (Z.div_mod (- total) per_page) as H3.
  pose proof (Z.mod_pos_bound (- total) per_page Hp) as H4.
  nia.
Qed.

(** [ceil_div] is the least number of pages that hold [total] records. *)
Lemma ceil_div_least (total per_page : Z) :
  0 < per_page ->
  total <= ceil_div total per_page * per_page
  /\ (ceil_div total per_page - 1) * per_page < total.
Proof.
  intros Hp. unfold ceil_div.
  pose proof (Z.div_mod (- total) per_page) as H3.
  pose proof (Z.mod_pos_bound (- total) per_page Hp) as H4.
  nia.
Qed.

(** ** Strings *)

Lemma contains_nil (s : str) : contains [] s = true.
Proof. destruct s; reflexivity. Qed.

Lemma contains_in_nil (p : str) : p <> [] -> contains p [] = false.
Proof. destruct p; [congruence | reflexivity]. Qed.

(** ** The fee rule *)

(** C1. For every amount [a], express flag [e] and corridor of base fee
    percentage [p], [_calculate_fee] returns
    [round(a * (p + 2.0 if e else p) / 100, 2)], which is [computeFee a p e];
    with [p = 3.5] and [a = 500.00] that is [17.50] without and [27.50] with
    the express flag. *)
Theorem calculate_fee_rule (db : Store) (corridor_id : Z) (c : Corridor.t) :
  dict_get (corridors_db db) corridor_id = Some c ->
  (forall a e,
      _calculate_fee db a corridor_id e
      = Val (computeFee a (Corridor.base_fee_percentage c) e))
  /\ (Corridor.base_fee_percentage c = 3.5%float ->
      _calculate_fee db 500 corridor_id false = Val 17.5%float
      /\ _calculate_fee db 500 corridor_id true = Val 27.5%float).
Proof.
  intros Hc. split.
  - intros a e. unfold _calculate_fee, computeFee. rewrite Hc. reflexivity.
  - intros Hp. unfold _calculate_fee. rewrite Hc, Hp. split; vm_compute; reflexivity.
Qed.

Lemma calculate_fee_rule_seed :
  dict_get (corridors_db seed) 1 = Some (Corridor.mk 1
      (u "Estados Unidos a M" ++ e' ++ u "xico") (u "US-MX")
      (u "Estados Unidos") (u "M" ++ e' ++ u "xico") 3.5 true
      (at_ 2024 1 1 10 0 0))
  /\ _calculate_fee seed 500 1 false = Val 17.5%float
  /\ _calculate_fee seed 500 1 true = Val 27.5%float.
Proof.
  split; [reflexivity|].
  exact (proj2 (calculate_fee_rule seed 1 _ eq_refl) eq_refl).
Defined.

(** ** The filter engine *)

Section Filters.

Context {L : Lowercase}.

Lemma in_lower_ci (q s : str) : in_lower (lower q) s = ci_substring q s.
Proof. reflexivity. Qed.

Lemma text_match_nil (r : Remittance.t) : text_match [] r = true.
Proof.
  unfold text_match, ci_substring. now rewrite lower_nil, !contains_nil.
Qed.

(** The first step of [_apply_filters] filters by the text predicate: an
    empty search string, which the step skips, matches every record. *)
Lemma search_step (o : option str) (l : list Remittance.t) :
  match o with
  | Some (c :: s) =>
      List.filter (fun r =>
        in_lower (lower (c :: s)) (Remittance.sender_name r)
        || in_lower (lower (c :: s)) (Remittance.recipient_name r)
        || in_lower (lower (c :: s)) (Remittance.reference_code r)) l
  | _ => l
  end
  = List.filter (fun r => present o (fun q => text_match q r)) l.
Proof.
  destruct o as [[|c s]|]; simpl.
  - rewrite <- (filter_all l) at 1. apply List.filter_ext.
    intros r. now rewrite text_match_nil.
  - reflexivity.
  - now rewrite filter_all.
Qed.

Lemma apply_filters_filter (items : list Remittance.t) (filters : RemittanceFilters.t) :
  _apply_filters items filters = List.filter (satisfies filters) items.
Proof.
  unfold _apply_filters. cbv zeta.
  rewrite search_step.
  rewrite (filter_present (RemittanceFilters.corridor_id filters)
             (fun c r => Remittance.corridor_id r =? c)).
  rewrite (filter_present (RemittanceFilters.min_amount filters)
             (fun m r => PrimFloat.leb m (Remittance.amount r))).
  rewrite (filter_present (RemittanceFilters.max_amount filters)
             (fun m r => PrimFloat.leb (Remittance.amount r) m)).
  rewrite (filter_present (RemittanceFilters.status filters)
             (fun s r => RemittanceStatus_eqb (Remittance.status r) s)).
  rewrite (filter_present (RemittanceFilters.currency filters)
             (fun c r => Currency_eqb (Remittance.currency r) c)).
  rewrite (filter_present (RemittanceFilters.payment_method filters)
             (fun m r => PaymentMethod_eqb (Remittance.payment_method r) m)).
  rewrite (filter_present (RemittanceFilters.is_express filters)
             (fun e r => Bool.eqb (Remittance.is_express r) e)).
  rewrite !filter_twice. apply List.filter_ext.
  intros r. unfold satisfies. now rewrite !andb_assoc.
Qed.

(** C2. For every record sequence and every combination of the eight
    optional predicates, the filtered result is the input restricted to the
    records that satisfy all present predicates: it is a subset of the input,
    a record is in it exactly when it is in the input and satisfies every
    present predicate, and with no predicate present nothing is removed. *)
Theorem apply_filters_and (items : list Remittance.t) (filters : RemittanceFilters.t) :
  _apply_filters items filters = List.filter (satisfies filters) items
  /\ List.incl (_apply_filters items filters) items
  /\ (forall r, List.In r (_apply_filters items filters)
                <-> List.In r items /\ satisfies filters r = true)
  /\ _apply_filters items RemittanceFilters.none = items.
Proof.
  split; [apply apply_filters_filter|]. split; [|split].
  - rewrite apply_filters_filter. apply List.incl_filter.
  - intros r. rewrite apply_filters_filter. apply List.filter_In.
  - reflexivity.
Qed.

End Filters.

(** ** Listing: sort and pagination *)

Section Listing.

Context {L : Lowercase}.

(** C3. For every store, filters and sort order, and every [page >= 1] and
    [per_page] in 1..50, the listing returns, with [total] the number of
    records that pass the filters: [total] itself, items of length
    [min(per_page, max(0, total - (page-1)*per_page))],
    [pages = ceil(total/per_page)] (1 when [total] is 0),
    [has_next = (page < pages)] and [has_prev = (page > 1)]; a page past the
    last one gets an empty item list and no error, and the store is unchanged. *)
Theorem list_remittances_page (db : Store) (page per_page : Z)
    (filters : RemittanceFilters.t) (sorting : SortingParams.t) :
  1 <= page -> 1 <= per_page <= 50 ->
  exists pagination resp,
    PaginationParams.__init__ page per_page = Val pagination
    /\ list_remittances db pagination filters sorting = Return db resp
    /\ let total := len (_apply_filters (values (remittances_db db)) filters) in
       PaginatedResponse.total resp = total
       /\ len (PaginatedResponse.items resp)
          = Z.min per_page (Z.max 0 (total - (page - 1) * per_page))
       /\ PaginatedResponse.pages resp
          = (if total =? 0 then 1 else ceil_div total per_page)
       /\ PaginatedResponse.has_next resp = (page <? PaginatedResponse.pages resp)
       /\ PaginatedResponse.has_prev resp = (1 <? page)
       /\ (PaginatedResponse.pages resp < page -> PaginatedResponse.items resp = []).
Proof.
  intros Hpage [Hlo Hhi].
  unfold PaginationParams.__init__.
  assert (Hb : (1 <=? page) && (1 <=? per_page) && (per_page <=? 50) = true).
  { rewrite !andb_true_iff, !Z.leb_le. lia. }
  rewrite Hb. exists (PaginationParams.mk page per_page ((page - 1) * per_page)).
  unfold list_remittances. cbv zeta. simpl PaginationParams.per_page.
  simpl PaginationParams.offset. simpl PaginationParams.page.
  set (filtered := _apply_filters (values (remittances_db db)) filters).
  set (sorted := list_sort _ _ filtered).
  assert (Hlen : len sorted = len filtered).
  { unfold len, sorted. now rewrite list_sort_length. }
  rewrite Hlen.
  assert (Hnn : 0 <= len filtered) by (unfold len; lia).
  assert (Hitems : forall (l : list Remittance.t) s n,
             len (List.map (_enrich_with_corridor db) (slice l s n)) = len (slice l s n)).
  { intros. unfold len. now rewrite List.length_map. }
  unfold floordiv.
  assert (Hz : (per_page =? 0) = false) by (apply Z.eqb_neq; lia).
  rewrite Hz.
  assert (Hstart : 0 <= (page - 1) * per_page) by nia.
  assert (Hempty : len filtered <= (page - 1) * per_page ->
            List.map (_enrich_with_corridor db)
              (slice sorted ((page - 1) * per_page) ((page - 1) * per_page + per_page))
            = []).
  { intros Hle. rewrite slice_past_end; [reflexivity| |lia]. now rewrite Hlen. }
  destruct (0 <? len filtered) eqn:Hpos.
  - apply Z.ltb_lt in Hpos.
    assert (H0 : (len filtered =? 0) = false) by (apply Z.eqb_neq; lia).
    eexists. split; [reflexivity|]. split; [reflexivity|].
    simpl. rewrite H0, Hitems, slice_length, Hlen, pages_ceil by lia.
    repeat split.
    intros Hpast. apply Hempty.
    pose proof (ceil_div_least (len filtered) per_page). nia.
  - apply Z.ltb_ge in Hpos.
    assert (H0 : (len filtered =? 0) = true) by (apply Z.eqb_eq; lia).
    eexists. split; [reflexivity|]. split; [reflexivity|].
    simpl. rewrite H0, Hitems, slice_length, Hlen by lia.
    repeat split.
    intros Hpast. apply Hempty. nia.
Qed.

End Listing.

Lemma list_remittances_page_seed :
  exists pagination resp,
    PaginationParams.__init__ 1 1 = Val pagination
    /\ list_remittances (L := Latin1) seed pagination
         (RemittanceFilters.mk None None None None (Some completed) (Some USD) None None)
         SortingParams.default
       = Return seed resp
    /\ PaginatedResponse.total resp = 3
    /\ len (PaginatedResponse.items resp) = 1
    /\ PaginatedResponse.pages resp = 3
    /\ PaginatedResponse.has_next resp = true
    /\ PaginatedResponse.has_prev resp = false.
Proof.
  destruct (list_remittances_page (L := Latin1) seed 1 1
              (RemittanceFilters.mk None None None None (Some completed) (Some USD)
                 None None)
              SortingParams.default ltac:(lia) ltac:(lia))
    as (pagination & resp & Hinit & Hlist & Htotal & Hitems & Hpages & Hnext & Hprev & _).
  exists pagination, resp.
  assert (E : len (_apply_filters (L := Latin1) (values (remittances_db seed))
                     (RemittanceFilters.mk None None None None (Some completed)
                        (Some USD) None None)) = 3) by reflexivity.
  rewrite E in Htotal, Hitems, Hpages.
  split; [exact Hinit|]. split; [exact Hlist|]. split; [exact Htotal|].
  split; [exact Hitems|]. split; [exact Hpages|].
  rewrite Hnext, Hprev, Hpages. split; reflexivity.
Defined.

(** ** The search engine *)

Section Search.

Context {L : Lowercase}.

(** The loop appends, in dictionary order, the remittances that match. *)
Lemma search_loop_filter (db : Store) (query_lower : str) (rest : list Remittance.t)
    (results : list Enriched) :
  search_loop db query_lower rest results
  = results ++ List.map (_enrich_with_corridor db)
                 (List.filter (search_match db query_lower) rest).
Proof.
  revert results. induction rest as [|r rest IH]; intros results; simpl.
  - now rewrite List.app_nil_r.
  - rewrite IH. destruct (search_match db query_lower r); simpl.
    + now rewrite <- List.app_assoc.
    + reflexivity.
Qed.

Lemma search_results_filter (db : Store) (q : str) :
  search_results db q
  = List.map (_enrich_with_corridor db)
      (List.filter (search_match db (lower q)) (values (remittances_db db))).
Proof. unfold search_results. now rewrite search_loop_filter. Qed.

Lemma lower_nonempty (q : str) : 2 <= len q -> lower q <> [].
Proof.
  unfold len. intros Hq E. pose proof (lower_len q) as H.
  rewrite E in H. simpl in H. lia.
Qed.

(** One turn of the loop decides the match of the specification. *)
Lemma search_match_hit (db : Store) (q : str) (r : Remittance.t) :
  2 <= len q -> search_match db (lower q) r = search_hit db q r.
Proof.
  intros Hq. unfold search_match, search_hit. rewrite !in_lower_ci.
  fold (text_match q r). destruct (text_match q r); simpl; [reflexivity|].
  destruct (dict_get (corridors_db db) (Remittance.corridor_id r)); [reflexivity|].
  unfold ci_substring. rewrite lower_nil, contains_in_nil by now apply lower_nonempty.
  reflexivity.
Qed.

(** C8. A query of fewer than 2 characters is refused with a validation
    error.  For a query of at least 2 characters, a stored remittance is
    among the matched results exactly when the query occurs, case ignored, in
    its sender name, recipient name or reference code, or, when it occurs in
    none of them, in the origin country, destination country or code of its
    corridor; the matched results hold nothing else, and they are what the
    answer counts and pages. *)
Theorem search_remittances_match (db : Store) (q : str) (page per_page : Z) :
  (len q < 2 ->
     search_remittances db q page per_page
     = Raise db (HTTPException 400 termino_de_busqueda_corto)
     /\ error_kind (HTTPException 400 termino_de_busqueda_corto) = Some ValidationError)
  /\ (2 <= len q ->
      (forall r, List.In r (values (remittances_db db)) ->
         (List.In (_enrich_with_corridor db r) (search_results db q)
          <-> search_hit db q r = true))
      /\ (forall e, List.In e (search_results db q) ->
            exists r, List.In r (values (remittances_db db))
                      /\ e = _enrich_with_corridor db r)
      /\ (per_page <> 0 ->
            exists resp,
              search_remittances db q page per_page = Return db resp
              /\ PaginatedResponse.total (result_page resp) = len (search_results db q)
              /\ PaginatedResponse.items (result_page resp)
                 = slice (search_results db q)
                     ((page - 1) * per_page) ((page - 1) * per_page + per_page))).
Proof.
  split.
  - intros Hq. unfold search_remittances.
    apply Z.ltb_lt in Hq. rewrite Hq. split; reflexivity.
  - intros Hq. split; [|split].
    + intros r Hr. rewrite search_results_filter, <- search_match_hit by exact Hq.
      split.
      * intros Hin. apply List.in_map_iff in Hin. destruct Hin as (r' & E & Hin).
        assert (r' = r) by (apply (f_equal remittance) in E; exact E). subst r'.
        apply List.filter_In in Hin. tauto.
      * intros Hm. apply List.in_map. apply List.filter_In. tauto.
    + intros e He. rewrite search_results_filter in He.
      apply List.in_map_iff in He. destruct He as (r & E & Hin).
      apply List.filter_In in Hin. exists r. split; [tauto | now symmetry].
    + intros Hpp. unfold search_remittances.
      assert (E : (len q <? 2) = false) by (apply Z.ltb_ge; lia).
      rewrite E. cbv zeta. unfold floordiv.
      assert (Ez : (per_page =? 0) = false) by (apply Z.eqb_neq; lia).
      rewrite Ez.
      destruct (0 <? len (search_results db q)); eexists; repeat split.
Qed.

(** X1. Inside the bounds the listing declares ([page >= 1],
    [1 <= per_page <= 50]) and for a query of at least 2 characters, the
    search returns and pages its matched results by the formulas of the
    listing: total, item count, pages, has_next and has_prev. *)
Theorem search_pages_like_listing (db : Store) (q : str) (page per_page : Z) :
  2 <= len q -> 1 <= page -> 1 <= per_page <= 50 ->
  exists resp,
    search_remittances db q page per_page = Return db resp
    /\ let total := len (search_results db q) in
       let r := result_page resp in
       PaginatedResponse.total r = total
       /\ len (PaginatedResponse.items r)
          = Z.min per_page (Z.max 0 (total - (page - 1) * per_page))
       /\ PaginatedResponse.pages r = (if total =? 0 then 1 else ceil_div total per_page)
       /\ PaginatedResponse.has_next r = (page <? PaginatedResponse.pages r)
       /\ PaginatedResponse.has_prev r = (1 <? page).
Proof.
  intros Hq Hpage [Hlo Hhi]. unfold search_remittances.
  assert (E : (len q <? 2) = false) by (apply Z.ltb_ge; lia).
  rewrite E. cbv zeta. unfold floordiv.
  assert (Ez : (per_page =? 0) = false) by (apply Z.eqb_neq; lia).
  rewrite Ez.
  assert (Hnn : 0 <= len (search_results db q)) by (unfold len; lia).
  assert (Hstart : 0 <= (page - 1) * per_page) by nia.
  destruct (0 <? len (search_results db q)) eqn:Hpos.
  - apply Z.ltb_lt in Hpos.
    assert (H0 : (len (search_results db q) =? 0) = false) by (apply Z.eqb_neq; lia).
    eexists. split; [reflexivity|]. simpl.
    rewrite H0, slice_length, pages_ceil by lia. repeat split.
  - apply Z.ltb_ge in Hpos.
    assert (H0 : (len (search_results db q) =? 0) = true) by (apply Z.eqb_eq; lia).
    eexists. split; [reflexivity|]. simpl.
    rewrite H0, slice_length by lia. repeat split.
Qed.

End Search.

Lemma search_remittances_match_seed :
  search_remittances (L := Latin1) seed (u "G") 1 10
  = Raise seed (HTTPException 400 termino_de_busqueda_corto)
  /\ (exists resp,
        search_remittances (L := Latin1) seed (u "GUATEMALA") 1 10 = Return seed resp
        /\ PaginatedResponse.total (result_page resp) = 2).
Proof.
  destruct (search_remittances_match (L := Latin1) seed (u "G") 1 10) as [Hshort _].
  destruct (search_remittances_match (L := Latin1) seed (u "GUATEMALA") 1 10)
    as [_ Hlong].
  split.
  - apply Hshort. reflexivity.
  - destruct Hlong as (_ & _ & Hresp); [discriminate|].
    destruct Hresp as (resp & Hr & Ht & _); [discriminate|].
    exists resp. split; [exact Hr|]. rewrite Ht. reflexivity.
Defined.

(** C9. The search does not page like the listing outside the listing's
    bounds.  On the seeded store, where the listing's parameters refuse
    [per_page = 0], [per_page = 100] and [page = 0], the search divides by
    zero, returns a page of size 100, and answers page 0. *)
Theorem search_pagination_unbounded :
  (PaginationParams.__init__ 1 0 = Exc RequestValidationError
   /\ search_remittances (L := Latin1) seed (u "guatemala") 1 0
      = Raise seed ZeroDivisionError)
  /\ (PaginationParams.__init__ 1 100 = Exc RequestValidationError
      /\ exists resp,
           search_remittances (L := Latin1) seed (u "guatemala") 1 100 = Return seed resp
           /\ PaginatedResponse.per_page (result_page resp) = 100
           /\ len (PaginatedResponse.items (result_page resp)) = 2)
  /\ (PaginationParams.__init__ 0 10 = Exc RequestValidationError
      /\ exists resp,
           search_remittances (L := Latin1) seed (u "guatemala") 0 10 = Return seed resp
           /\ PaginatedResponse.page (result_page resp) = 0
           /\ PaginatedResponse.items (result_page resp) = []
           /\ PaginatedResponse.has_next (result_page resp) = true).
Proof.
  split; [split; reflexivity|]. split.
  - split; [reflexivity|]. eexists. split; [vm_compute; reflexivity|].
    split; reflexivity.
  - split; [reflexivity|]. eexists. split; [vm_compute; reflexivity|].
    repeat split.
Qed.

(** ** Deleting a corridor *)

Lemma existsb_corridor (corridor_id : Z) (l : list Remittance.t) :
  List.existsb (fun r => Remittance.corridor_id r =? corridor_id) l = true
  <-> exists r, List.In r l /\ Remittance.corridor_id r = corridor_id.
Proof.
  rewrite List.existsb_exists. split; intros (r & Hin & H); exists r; split;
    try exact Hin; now apply Z.eqb_eq.
Qed.

(** C6. For every corridor in the store: when at least one remittance
    refers to it, [delete_corridor] fails with a conflict and leaves the store
    as it was; when none does, it succeeds, removes that corridor and nothing
    else, and leaves the remittances and both counters as they were. *)
Theorem delete_corridor_guard (db : Store) (corridor_id : Z) (c : Corridor.t) :
  dict_get (corridors_db db) corridor_id = Some c ->
  ((exists r, List.In r (values (remittances_db db))
              /\ Remittance.corridor_id r = corridor_id) ->
     delete_corridor corridor_id db = Raise db (HTTPException 400 corredor_con_remesas)
     /\ error_kind (HTTPException 400 corredor_con_remesas) = Some ConflictError)
  /\ ((forall r, List.In r (values (remittances_db db)) ->
                 Remittance.corridor_id r <> corridor_id) ->
      exists db',
        delete_corridor corridor_id db = Return db' tt
        /\ (forall k, dict_get (corridors_db db') k
                      = if k =? corridor_id then None else dict_get (corridors_db db) k)
        /\ List.incl (corridors_db db') (corridors_db db)
        /\ remittances_db db' = remittances_db db
        /\ next_corridor_id db' = next_corridor_id db
        /\ next_remittance_id db' = next_remittance_id db).
Proof.
  intros Hc. unfold delete_corridor. rewrite Hc. split.
  - intros Href. apply existsb_corridor in Href. rewrite Href. split; reflexivity.
  - intros Hnone.
    destruct (List.existsb _ (values (remittances_db db))) eqn:E.
    + apply existsb_corridor in E. destruct E as (r & Hin & Hr).
      exfalso. exact (Hnone r Hin Hr).
    + eexists. split; [reflexivity|]. simpl. split; [|split].
      * intros k. apply dict_get_del.
      * apply List.incl_filter.
      * repeat split.
Qed.

Lemma delete_corridor_guard_seed :
  delete_corridor 1 seed = Raise seed (HTTPException 400 corredor_con_remesas)
  /\ exists db',
       delete_corridor 5 seed = Return db' tt
       /\ dict_get (corridors_db db') 5 = None
       /\ remittances_db db' = remittances_db seed.
Proof.
  split.
  - refine (proj1 (proj1 (delete_corridor_guard seed 1 _ eq_refl) _)).
    eexists. split; [left; reflexivity | reflexivity].
  - destruct (proj2 (delete_corridor_guard seed 5 _ eq_refl)) as (db' & H & Hget & _ & Hr & _).
    + intros r Hin. simpl in Hin.
      repeat (destruct Hin as [<- | Hin]; [discriminate|]). contradiction.
    + exists db'. split; [exact H|]. split; [|exact Hr].
      rewrite Hget. reflexivity.
Defined.

(** ** Creating a remittance *)

(** C7. For every creation request that names a corridor which does not
    exist or is inactive, whatever its other fields hold and whether or not
    they pass the schema, creation fails with a validation error and the store
    (both dictionaries and both counters) is as it was. *)
Theorem create_remittance_bad_corridor (now_ref now_created : datetime) (db : Store)
    (body : RemittanceCreate.t) :
  unusable_corridor db (RemittanceCreate.corridor_id body) ->
  (exists e, create_remittance now_ref now_created db body = Raise db e
             /\ error_kind e = Some ValidationError)
  /\ (exists e, with_body RemittanceCreate.valid
                  (create_remittance now_ref now_created) db body = Raise db e
                /\ error_kind e = Some ValidationError).
Proof.
  intros Hbad.
  assert (H : exists e, create_remittance now_ref now_created db body = Raise db e
                        /\ error_kind e = Some ValidationError).
  { unfold create_remittance. destruct Hbad as [Hnone | (c & Hc & Hoff)].
    - rewrite Hnone. eexists. split; reflexivity.
    - rewrite Hc, Hoff. eexists. split; reflexivity. }
  split; [exact H|]. unfold with_body.
  destruct (RemittanceCreate.valid body); [exact H|].
  eexists. split; reflexivity.
Qed.

Lemma create_remittance_bad_corridor_seed :
  (exists e, create_remittance (at_ 2024 4 1 12 0 0) (at_ 2024 4 1 12 0 0) seed
               (request_for 5) = Raise seed e
             /\ error_kind e = Some ValidationError)
  /\ (exists e, create_remittance (at_ 2024 4 1 12 0 0) (at_ 2024 4 1 12 0 0) seed
                  (request_for 77) = Raise seed e
                /\ error_kind e = Some ValidationError).
Proof.
  split.
  - refine (proj1 (create_remittance_bad_corridor _ _ seed (request_for 5) _)).
    right. eexists. split; reflexivity.
  - refine (proj1 (create_remittance_bad_corridor _ _ seed (request_for 77) _)).
    left. reflexivity.
Defined.

(** ** Updating a remittance *)

Lemma with_body_rejects {A B : Type} (valid : A -> bool)
    (handler : Store -> A -> Outcome B) (db : Store) (body : A) :
  (exists e, handler db body = Raise db e /\ error_kind e = Some ValidationError) ->
  exists e, with_body valid handler db body = Raise db e
            /\ error_kind e = Some ValidationError.
Proof.
  intros H. unfold with_body. destruct (valid body); [exact H|].
  eexists. split; reflexivity.
Qed.

Lemma update_corridor_check_bad (db : Store) (corridor_id : Z) :
  unusable_corridor db corridor_id ->
  exists e, update_corridor_check db (Value corridor_id) = Some e
            /\ error_kind e = Some ValidationError.
Proof.
  intros [Hnone | (c & Hc & Hoff)]; simpl.
  - rewrite Hnone. eexists. split; reflexivity.
  - rewrite Hc, Hoff. eexists. split; reflexivity.
Qed.

(** C10. For every existing remittance, a full replace or a partial update
    whose new [corridor_id] names a corridor that does not exist or is
    inactive is refused with a validation error, and the store, hence the
    stored record, is as it was: the check of creation is made on both
    update paths too. *)
Theorem update_bad_corridor_rejected (db : Store) (remittance_id corridor_id : Z)
    (existing : Remittance.t) :
  dict_get (remittances_db db) remittance_id = Some existing ->
  unusable_corridor db corridor_id ->
  (forall body, RemittanceCreate.corridor_id body = corridor_id ->
     (exists e, replace_remittance remittance_id db body = Raise db e
                /\ error_kind e = Some ValidationError)
     /\ (exists e, with_body RemittanceCreate.valid
                     (replace_remittance remittance_id) db body = Raise db e
                   /\ error_kind e = Some ValidationError))
  /\ (forall body, RemittanceUpdate.corridor_id body = Value corridor_id ->
        (exists e, update_remittance remittance_id db body = Raise db e
                   /\ error_kind e = Some ValidationError)
        /\ (exists e, with_body RemittanceUpdate.valid
                        (update_remittance remittance_id) db body = Raise db e
                      /\ error_kind e = Some ValidationError)).
Proof.
  intros Hr Hbad. split.
  - intros body Hc.
    assert (H : exists e, replace_remittance remittance_id db body = Raise db e
                          /\ error_kind e = Some ValidationError).
    { unfold replace_remittance. rewrite Hr, Hc.
      destruct Hbad as [Hnone | (c & Hget & Hoff)].
      - rewrite Hnone. eexists. split; reflexivity.
      - rewrite Hget, Hoff. eexists. split; reflexivity. }
    split; [exact H | now apply with_body_rejects].
  - intros body Hc.
    assert (H : exists e, update_remittance remittance_id db body = Raise db e
                          /\ error_kind e = Some ValidationError).
    { unfold update_remittance. rewrite Hr, Hc.
      destruct (update_corridor_check_bad db corridor_id Hbad) as (e & He & Hk).
      rewrite He. exists e. split; [reflexivity | exact Hk]. }
    split; [exact H | now apply with_body_rejects].
Qed.

Lemma update_bad_corridor_rejected_seed :
  (exists e, replace_remittance 1 seed (request_for 5) = Raise seed e
             /\ error_kind e = Some ValidationError)
  /\ (exists e, update_remittance 1 seed (only_corridor 5) = Raise seed e
                /\ error_kind e = Some ValidationError).
Proof.
  assert (Hbad : unusable_corridor seed 5).
  { right. eexists. split; reflexivity. }
  destruct (update_bad_corridor_rejected seed 1 5 _ eq_refl Hbad) as [Hput Hpatch].
  split.
  - exact (proj1 (Hput (request_for 5) eq_refl)).
  - exact (proj1 (Hpatch (only_corridor 5) eq_refl)).
Defined.

(** What [record.update(update_data)] writes, field by field. *)
Lemma Remittance_update_status (r current : Remittance.t) (body : RemittanceUpdate.t) :
  Remittance_update r body = Some current ->
  updated (Remittance.status r) (RemittanceUpdate.status body)
  = Some (Remittance.status current).
Proof.
  unfold Remittance_update.
  destruct (updated (Remittance.sender_name r) _); [|discriminate].
  destruct (updated (Remittance.recipient_name r) _); [|discriminate].
  destruct (updated (Remittance.corridor_id r) _); [|discriminate].
  destruct (updated (Remittance.amount r) _); [|discriminate].
  destruct (updated (Remittance.currency r) _); [|discriminate].
  destruct (updated (Remittance.exchange_rate r) _); [|discriminate].
  destruct (updated (Remittance.payment_method r) _); [|discriminate].
  destruct (updated (Remittance.status r) _); [|discriminate].
  destruct (updated (Remittance.is_express r) _); [|discriminate].
  intros H. injection H as <-. reflexivity.
Qed.

Lemma Remittance_update_fee (r current : Remittance.t) (body : RemittanceUpdate.t) :
  Remittance_update r body = Some current ->
  Remittance.fee current = Remittance.fee r.
Proof.
  unfold Remittance_update.
  destruct (updated (Remittance.sender_name r) _); [|discriminate].
  destruct (updated (Remittance.recipient_name r) _); [|discriminate].
  destruct (updated (Remittance.corridor_id r) _); [|discriminate].
  destruct (updated (Remittance.amount r) _); [|discriminate].
  destruct (updated (Remittance.currency r) _); [|discriminate].
  destruct (updated (Remittance.exchange_rate r) _); [|discriminate].
  destruct (updated (Remittance.payment_method r) _); [|discriminate].
  destruct (updated (Remittance.status r) _); [|discriminate].
  destruct (updated (Remittance.is_express r) _); [|discriminate].
  intros H. injection H as <-. reflexivity.
Qed.

Lemma Remittance_update_fee_fields (r current : Remittance.t) (body : RemittanceUpdate.t) :
  Remittance_update r body = Some current ->
  updated (Remittance.amount r) (RemittanceUpdate.amount body)
  = Some (Remittance.amount current)
  /\ updated (Remittance.corridor_id r) (RemittanceUpdate.corridor_id body)
     = Some (Remittance.corridor_id current)
  /\ updated (Remittance.is_express r) (RemittanceUpdate.is_express body)
     = Some (Remittance.is_express current).
Proof.
  unfold Remittance_update.
  destruct (updated (Remittance.sender_name r) _); [|discriminate].
  destruct (updated (Remittance.recipient_name r) _); [|discriminate].
  destruct (updated (Remittance.corridor_id r) _); [|discriminate].
  destruct (updated (Remittance.amount r) _); [|discriminate].
  destruct (updated (Remittance.currency r) _); [|discriminate].
  destruct (updated (Remittance.exchange_rate r) _); [|discriminate].
  destruct (updated (Remittance.payment_method r) _); [|discriminate].
  destruct (updated (Remittance.status r) _); [|discriminate].
  destruct (updated (Remittance.is_express r) _); [|discriminate].
  intros H. injection H as <-. repeat split.
Qed.

Lemma Remittance_update_only_status (r : Remittance.t) (s : RemittanceStatus) :
  Remittance_update r (only_status s) = Some (Remittance_set_status r s).
Proof. reflexivity. Qed.

(** The outcomes of a partial update that gets past its corridor check and
    stores no [null]. *)
Lemma update_remittance_stored (db : Store) (remittance_id : Z)
    (existing current : Remittance.t) (body : RemittanceUpdate.t) :
  dict_get (remittances_db db) remittance_id = Some existing ->
  update_corridor_check db (RemittanceUpdate.corridor_id body) = None ->
  Remittance_update existing body = Some current ->
  let db1 := set_remittances_db db (dict_set (remittances_db db) remittance_id current) in
  update_remittance remittance_id db body
  = if fee_fields_supplied body
    then match _calculate_fee db1 (Remittance.amount current)
                 (Remittance.corridor_id current) (Remittance.is_express current) with
         | Exc e => Raise db1 e
         | Val fee =>
             let db2 :=
               set_remittances_db db1
                 (dict_set (remittances_db db1) remittance_id
                    (Remittance_set_fee current fee)) in
             Return db2 (_enrich_with_corridor db2 (Remittance_set_fee current fee))
         end
    else Return db1 (_enrich_with_corridor db1 current).
Proof.
  intros Hr Hc Hu. unfold update_remittance. rewrite Hr, Hc, Hu. reflexivity.
Qed.

(** C5, as the code has it. For every existing remittance whose status is
    cancelled, the partial update that sets its status to completed succeeds
    and the stored record is the old one with status completed; no partial
    update that sets the status to completed is refused with a conflict, and
    whenever one returns the stored status is completed: the update path
    checks no state transition. *)
Theorem update_cancelled_to_completed (db : Store) (remittance_id : Z)
    (existing : Remittance.t) :
  dict_get (remittances_db db) remittance_id = Some existing ->
  Remittance.status existing = cancelled ->
  (let current := Remittance_set_status existing completed in
   let db' := set_remittances_db db
                (dict_set (remittances_db db) remittance_id current) in
   update_remittance remittance_id db (only_status completed)
   = Return db' (_enrich_with_corridor db' current)
   /\ dict_get (remittances_db db') remittance_id = Some current)
  /\ (forall body, RemittanceUpdate.status body = Value completed ->
        (forall db' e, update_remittance remittance_id db body = Raise db' e ->
                       error_kind e <> Some ConflictError)
        /\ (forall db' resp, update_remittance remittance_id db body = Return db' resp ->
              exists stored,
                dict_get (remittances_db db') remittance_id = Some stored
                /\ Remittance.status stored = completed)).
Proof.
  intros Hr Hst. split.
  - cbv zeta. split; [|apply dict_get_set_same].
    rewrite (update_remittance_stored db remittance_id existing
               (Remittance_set_status existing completed) (only_status completed) Hr
               eq_refl (Remittance_update_only_status existing completed)).
    reflexivity.
  - intros body Hbody. unfold update_remittance. rewrite Hr.
    destruct (update_corridor_check db (RemittanceUpdate.corridor_id body)) as [e0|] eqn:Hc.
    + split; [|discriminate].
      intros db' e H. injection H as _ <-.
      destruct (RemittanceUpdate.corridor_id body) as [| |cid]; simpl in Hc;
        [discriminate | injection Hc as <-; discriminate |].
      destruct (dict_get (corridors_db db) cid) as [c|];
        [destruct (negb (Corridor.is_active c)); [|discriminate]|];
        injection Hc as <-; discriminate.
    + destruct (Remittance_update existing body) as [current|] eqn:Hu;
        [|split; discriminate].
      pose proof (Remittance_update_status _ _ _ Hu) as Hs.
      rewrite Hbody in Hs. simpl in Hs. injection Hs as Hs.
      destruct (is_set (RemittanceUpdate.amount body)
                || is_set (RemittanceUpdate.corridor_id body)
                || is_set (RemittanceUpdate.is_express body)).
      * destruct (_calculate_fee _ _ _ _) as [fee|e0] eqn:Hfee.
        -- split; [discriminate|]. intros db' resp H. injection H as <- _.
           eexists. split; [apply dict_get_set_same | now simpl].
        -- split; [|discriminate]. intros db' e H. injection H as _ <-.
           unfold _calculate_fee in Hfee.
           match type of Hfee with
           | context [dict_get ?d ?k] => destruct (dict_get d k)
           end; [discriminate|].
           injection Hfee as <-. discriminate.
      * split; [discriminate|]. intros db' resp H. injection H as <- _.
        eexists. split; [apply dict_get_set_same | now symmetry].
Qed.

Lemma update_cancelled_to_completed_seed :
  exists db' resp stored,
    update_remittance 8 seed (only_status completed) = Return db' resp
    /\ dict_get (remittances_db db') 8 = Some stored
    /\ Remittance.status stored = completed.
Proof.
  destruct (update_cancelled_to_completed seed 8 _ eq_refl eq_refl) as [[H1 H2] _].
  do 3 eexists. split; [exact H1|]. split; [exact H2 | reflexivity].
Defined.

(** C5 fails on the seeded store: remittance 8 is cancelled, and the update
    that completes it is not refused; it returns, and the stored status is
    completed afterwards. *)
Lemma cancelled_remittance_completes :
  (exists existing, dict_get (remittances_db seed) 8 = Some existing
                    /\ Remittance.status existing = cancelled)
  /\ ~ (exists e, update_remittance 8 seed (only_status completed) = Raise seed e
                  /\ error_kind e = Some ConflictError)
  /\ (exists db' resp stored,
        update_remittance 8 seed (only_status completed) = Return db' resp
        /\ dict_get (remittances_db db') 8 = Some stored
        /\ Remittance.status stored = completed).
Proof.
  split; [eexists; split; reflexivity|]. split.
  - intros (e & H & _). vm_compute in H. discriminate.
  - do 3 eexists. split; [vm_compute; reflexivity|]. split; reflexivity.
Qed.

(** ** Fee recomputation *)

Lemma calculate_fee_computeFee (db : Store) (amount : float) (corridor_id : Z)
    (is_express : bool) (c : Corridor.t) :
  dict_get (corridors_db db) corridor_id = Some c ->
  _calculate_fee db amount corridor_id is_express
  = Val (computeFee amount (Corridor.base_fee_percentage c) is_express).
Proof. intros Hc. unfold _calculate_fee, computeFee. now rewrite Hc. Qed.

(** C4, as the code has it. For every existing remittance: a full replace
    that names an active corridor stores the new amount, corridor and express
    flag with [fee = computeFee] of them; a partial update that carries the
    amount, the corridor or the express flag (changed or not) stores
    [fee = computeFee] of the values the record holds after the update (the
    value sent for a field, the old value for a field left out); a partial
    update that carries none of the three leaves the fee as it was. *)
Theorem fee_recomputed_when_supplied (db : Store) (remittance_id : Z)
    (existing : Remittance.t) :
  dict_get (remittances_db db) remittance_id = Some existing ->
  (forall body c,
     dict_get (corridors_db db) (RemittanceCreate.corridor_id body) = Some c ->
     Corridor.is_active c = true ->
     exists db' resp stored,
       replace_remittance remittance_id db body = Return db' resp
       /\ dict_get (remittances_db db') remittance_id = Some stored
       /\ Remittance.amount stored = RemittanceCreate.amount body
       /\ Remittance.corridor_id stored = RemittanceCreate.corridor_id body
       /\ Remittance.is_express stored = RemittanceCreate.is_express body
       /\ Remittance.fee stored
          = computeFee (RemittanceCreate.amount body) (Corridor.base_fee_percentage c)
              (RemittanceCreate.is_express body))
  /\ (forall body current,
        update_corridor_check db (RemittanceUpdate.corridor_id body) = None ->
        Remittance_update existing body = Some current ->
        (updated (Remittance.amount existing) (RemittanceUpdate.amount body)
         = Some (Remittance.amount current)
         /\ updated (Remittance.corridor_id existing) (RemittanceUpdate.corridor_id body)
            = Some (Remittance.corridor_id current)
         /\ updated (Remittance.is_express existing) (RemittanceUpdate.is_express body)
            = Some (Remittance.is_express current))
        /\ (fee_fields_supplied body = true ->
           forall c,
             dict_get (corridors_db db) (Remittance.corridor_id current) = Some c ->
             exists db' resp stored,
               update_remittance remittance_id db body = Return db' resp
               /\ dict_get (remittances_db db') remittance_id = Some stored
               /\ Remittance.amount stored = Remittance.amount current
               /\ Remittance.corridor_id stored = Remittance.corridor_id current
               /\ Remittance.is_express stored = Remittance.is_express current
               /\ Remittance.fee stored
                  = computeFee (Remittance.amount current)
                      (Corridor.base_fee_percentage c) (Remittance.is_express current))
        /\ (fee_fields_supplied body = false ->
              exists db' resp,
                update_remittance remittance_id db body = Return db' resp
                /\ dict_get (remittances_db db') remittance_id = Some current
                /\ Remittance.fee current = Remittance.fee existing)).
Proof.
  intros Hr. split.
  - intros body c Hc Hon. unfold replace_remittance.
    rewrite Hr, Hc, Hon, (calculate_fee_computeFee _ _ _ _ _ Hc). simpl.
    do 3 eexists. split; [reflexivity|]. split; [apply dict_get_set_same|].
    repeat split.
  - intros body current Hcheck Hu.
    split; [exact (Remittance_update_fee_fields _ _ _ Hu)|]. split.
    + intros Hs c Hc.
      rewrite (update_remittance_stored _ _ _ _ _ Hr Hcheck Hu), Hs. cbv zeta.
      rewrite (calculate_fee_computeFee _ _ _ _ c) by exact Hc.
      do 3 eexists. split; [reflexivity|]. split; [apply dict_get_set_same|].
      repeat split.
    + intros Hs.
      rewrite (update_remittance_stored _ _ _ _ _ Hr Hcheck Hu), Hs. cbv zeta.
      do 2 eexists. split; [reflexivity|]. split; [apply dict_get_set_same|].
      exact (Remittance_update_fee _ _ _ Hu).
Qed.

Lemma fee_recomputed_when_supplied_seed :
  (exists db' resp stored,
     update_remittance 1 seed (only_amount 1000) = Return db' resp
     /\ dict_get (remittances_db db') 1 = Some stored
     /\ Remittance.fee stored = 35%float)
  /\ (exists db' resp stored,
        update_remittance 1 seed (only_status processing) = Return db' resp
        /\ dict_get (remittances_db db') 1 = Some stored
        /\ Remittance.fee stored = 17.5%float).
Proof.
  destruct (fee_recomputed_when_supplied seed 1 _ eq_refl) as [_ Hpatch].
  split.
  - destruct (proj1 (proj2 (Hpatch (only_amount 1000) _ eq_refl eq_refl)) eq_refl _ eq_refl)
      as (db' & resp & stored & H & Hget & _ & _ & _ & Hfee).
    exists db', resp, stored. split; [exact H|]. split; [exact Hget|].
    rewrite Hfee. vm_compute. reflexivity.
  - destruct (proj2 (proj2 (Hpatch (only_status processing) _ eq_refl eq_refl)) eq_refl)
      as (db' & resp & H & Hget & Hfee).
    exists db', resp. eexists. split; [exact H|]. split; [exact Hget|].
    reflexivity.
Defined.

(** C4 fails on a store the handlers reach.  After the base fee of corridor 1
    was raised to 5 percent, replacing remittance 1 with the values it has, or
    patching it with the amount it has, changes none of amount, corridor and
    express flag, and yet the fee goes from 17.50 to 25.00. *)
Lemma fee_changes_with_fields_unchanged :
  exists existing,
    dict_get (remittances_db seed_repriced) 1 = Some existing
    /\ Remittance.fee existing = 17.5%float
    /\ (exists db' resp stored,
          replace_remittance 1 seed_repriced same_as_remittance_1 = Return db' resp
          /\ dict_get (remittances_db db') 1 = Some stored
          /\ Remittance.amount stored = Remittance.amount existing
          /\ Remittance.corridor_id stored = Remittance.corridor_id existing
          /\ Remittance.is_express stored = Remittance.is_express existing
          /\ Remittance.fee stored = 25%float
          /\ Remittance.fee stored <> Remittance.fee existing)
    /\ (exists db' resp stored,
          update_remittance 1 seed_repriced (only_amount 500) = Return db' resp
          /\ dict_get (remittances_db db') 1 = Some stored
          /\ Remittance.amount stored = Remittance.amount existing
          /\ Remittance.corridor_id stored = Remittance.corridor_id existing
          /\ Remittance.is_express stored = Remittance.is_express existing
          /\ Remittance.fee stored = 25%float
          /\ Remittance.fee stored <> Remittance.fee existing).
Proof.
  assert (Hne : 25%float <> 17.5%float).
  { intros H. apply (f_equal (fun x => PrimFloat.eqb x 25)) in H.
    vm_compute in H. discriminate. }
  eexists. split; [vm_compute; reflexivity|]. split; [reflexivity|]. split.
  - do 3 eexists. split; [vm_compute; reflexivity|].
    split; [reflexivity|]. repeat split. exact Hne.
  - do 3 eexists. split; [vm_compute; reflexivity|].
    split; [reflexivity|]. repeat split. exact Hne.
Qed.

(** ** Further properties of the handlers *)

Lemma search_pages_like_listing_seed :
  exists resp,
    search_remittances (L := Latin1) seed (u "estados") 2 3 = Return seed resp
    /\ PaginatedResponse.total (result_page resp) = 7
    /\ len (PaginatedResponse.items (result_page resp)) = 3
    /\ PaginatedResponse.pages (result_page resp) = 3.
Proof.
  destruct (search_pages_like_listing (L := Latin1) seed (u "estados") 2 3)
    as (resp & H & Ht & Hi & Hp & _); [discriminate | lia | lia |].
  exists resp. split; [exact H|].
  assert (E : len (search_results (L := Latin1) seed (u "estados")) = 7) by reflexivity.
  rewrite E in Ht, Hi, Hp. split; [exact Ht|]. split; [exact Hi | exact Hp].
Defined.

(** X2. A remittance can be deleted only while pending or cancelled: then
    the deletion removes that record and nothing else; in any other status it
    is refused with a conflict and the store is as it was. *)
Theorem delete_remittance_guard (db : Store) (remittance_id : Z) (r : Remittance.t) :
  dict_get (remittances_db db) remittance_id = Some r ->
  (Remittance.status r = pending \/ Remittance.status r = cancelled ->
     exists db',
       delete_remittance remittance_id db = Return db' tt
       /\ (forall k, dict_get (remittances_db db') k
                     = if k =? remittance_id then None
                       else dict_get (remittances_db db) k)
       /\ corridors_db db' = corridors_db db
       /\ next_remittance_id db' = next_remittance_id db)
  /\ (Remittance.status r <> pending -> Remittance.status r <> cancelled ->
        delete_remittance remittance_id db
        = Raise db (HTTPException 400 (estado_no_eliminable (Remittance.status r)))
        /\ error_kind (HTTPException 400 (estado_no_eliminable (Remittance.status r)))
           = Some ConflictError).
Proof.
  intros Hr. unfold delete_remittance. rewrite Hr. split.
  - intros [Hs | Hs]; rewrite Hs; eexists; (split; [reflexivity|]); simpl;
      (split; [intros k; apply dict_get_del | split; reflexivity]).
  - intros Hp Hc. destruct (Remittance.status r); try congruence; split; reflexivity.
Qed.

Lemma delete_remittance_guard_seed :
  (exists db', delete_remittance 8 seed = Return db' tt
               /\ dict_get (remittances_db db') 8 = None)
  /\ delete_remittance 1 seed
     = Raise seed (HTTPException 400 (estado_no_eliminable completed)).
Proof.
  split.
  - destruct (proj1 (delete_remittance_guard seed 8 _ eq_refl)) as (db' & H & Hget & _).
    + right. reflexivity.
    + exists db'. split; [exact H|]. rewrite Hget. reflexivity.
  - refine (proj1 (proj2 (delete_remittance_guard seed 1 _ eq_refl) _ _)); discriminate.
Defined.

(** X3. Creation against an existing, active corridor succeeds: the new
    record is stored under the current value of the counter, which moves on
    by one; it is pending, carries the derived reference code and
    [fee = computeFee] of its amount, the corridor's base fee and its express
    flag; no other remittance, no corridor and not the corridor counter
    changes. *)
Theorem create_remittance_stores (now_ref now_created : datetime) (db : Store)
    (body : RemittanceCreate.t) (c : Corridor.t) :
  dict_get (corridors_db db) (RemittanceCreate.corridor_id body) = Some c ->
  Corridor.is_active c = true ->
  exists db' resp,
    create_remittance now_ref now_created db body = Return db' resp
    /\ let new_id := next_remittance_id db in
       let stored := remittance resp in
       dict_get (remittances_db db') new_id = Some stored
       /\ Remittance.id stored = new_id
       /\ Remittance.status stored = pending
       /\ Remittance.created_at stored = now_created
       /\ Remittance.reference_code stored = _generate_reference_code now_ref new_id
       /\ Remittance.fee stored
          = computeFee (RemittanceCreate.amount body) (Corridor.base_fee_percentage c)
              (RemittanceCreate.is_express body)
       /\ corridor resp = Some c
       /\ next_remittance_id db' = new_id + 1
       /\ next_corridor_id db' = next_corridor_id db
       /\ corridors_db db' = corridors_db db
       /\ (forall k, k <> new_id ->
             dict_get (remittances_db db') k = dict_get (remittances_db db) k).
Proof.
  intros Hc Hon. unfold create_remittance. rewrite Hc, Hon. simpl.
  unfold _calculate_fee. simpl. rewrite Hc.
  do 2 eexists. split; [reflexivity|]. simpl.
  split; [apply dict_get_set_same|]. unfold _enrich_with_corridor. simpl.
  rewrite Hc. repeat split.
  intros k Hk. now apply dict_get_set_other.
Qed.

Lemma create_remittance_stores_seed :
  exists db' resp,
    create_remittance (at_ 2024 4 1 12 0 0) (at_ 2024 4 1 12 0 1) seed (request_for 1)
    = Return db' resp
    /\ Remittance.id (remittance resp) = 9
    /\ Remittance.reference_code (remittance resp) = u "REM-20240401-009"
    /\ Remittance.fee (remittance resp) = 8.75%float
    /\ next_remittance_id db' = 10.
Proof.
  destruct (create_remittance_stores (at_ 2024 4 1 12 0 0) (at_ 2024 4 1 12 0 1) seed
              (request_for 1) _ eq_refl eq_refl)
    as (db' & resp & H & _ & Hid & _ & _ & Href & Hfee & _ & Hnext & _).
  exists db', resp. split; [exact H|]. split; [exact Hid|].
  split; [rewrite Href; reflexivity|]. split; [rewrite Hfee; reflexivity | exact Hnext].
Defined.

(** X4. The reference code and the creation timestamp of a remittance are
    immutable: whatever a full replace or a partial update does, returning or
    raising, the record stored under the identifier afterwards carries the
    reference code and timestamp it had; a full replace keeps the status
    too. *)
Theorem reference_code_immutable (db : Store) (remittance_id : Z)
    (existing : Remittance.t) :
  dict_get (remittances_db db) remittance_id = Some existing ->
  let kept db' :=
    exists stored,
      dict_get (remittances_db db') remittance_id = Some stored
      /\ Remittance.reference_code stored = Remittance.reference_code existing
      /\ Remittance.created_at stored = Remittance.created_at existing in
  (forall body,
     match replace_remittance remittance_id db body with
     | Return db' resp =>
         kept db' /\ Remittance.status (remittance resp) = Remittance.status existing
     | Raise db' _ => kept db'
     | NullStored => False
     end)
  /\ (forall body,
        match update_remittance remittance_id db body with
        | Return db' _ | Raise db' _ => kept db'
        | NullStored => True
        end).
Proof.
  intros Hr kept.
  assert (Hsame : kept db) by (exists existing; auto).
  split; intros body.
  - unfold replace_remittance. rewrite Hr.
    destruct (dict_get (corridors_db db) _) as [c|] eqn:Hc; [|exact Hsame].
    destruct (negb (Corridor.is_active c)); [exact Hsame|].
    rewrite (calculate_fee_computeFee _ _ _ _ _ Hc). simpl. split; [|reflexivity].
    eexists. split; [apply dict_get_set_same | split; reflexivity].
  - unfold update_remittance. rewrite Hr.
    destruct (update_corridor_check db _); [exact Hsame|].
    destruct (Remittance_update existing body) as [current|] eqn:Hu; [|exact I].
    assert (Hcur : Remittance.reference_code current = Remittance.reference_code existing
                   /\ Remittance.created_at current = Remittance.created_at existing).
    { unfold Remittance_update in Hu.
      repeat match type of Hu with
             | context [updated ?a ?f] => destruct (updated a f); [|discriminate]
             end.
      injection Hu as <-. split; reflexivity. }
    destruct (is_set _ || is_set _ || is_set _).
    + destruct (_calculate_fee _ _ _ _).
      * eexists. split; [apply dict_get_set_same | exact Hcur].
      * eexists. split; [apply dict_get_set_same | exact Hcur].
    + eexists. split; [apply dict_get_set_same | exact Hcur].
Qed.

Lemma reference_code_immutable_seed :
  exists db' resp stored,
    replace_remittance 4 seed (request_for 2) = Return db' resp
    /\ dict_get (remittances_db db') 4 = Some stored
    /\ Remittance.reference_code stored = u "REM-20240210-004"
    /\ Remittance.sender_name stored = u "Ana Ruiz".
Proof.
  pose proof (proj1 (reference_code_immutable seed 4 _ eq_refl) (request_for 2)) as H.
  destruct (replace_remittance 4 seed (request_for 2)) as [db' resp | db' e |] eqn:E;
    [|discriminate E|discriminate E].
  destruct H as [(stored & Hget & Href & _) _].
  exists db', resp, stored. split; [reflexivity|]. split; [exact Hget|].
  split; [rewrite Href; reflexivity|].
  vm_compute in E. injection E as <- _.
  vm_compute in Hget. injection Hget as <-. reflexivity.
Defined.

(** ** The sort is stable *)

Section Sort.

Context {A : Type} (lt : A -> A -> bool).
Hypothesis Hswo : strict_weak_order lt.

Lemma lt_asym (x y : A) : lt x y = true -> lt y x = false.
Proof.
  destruct Hswo as (Hirr & Htr & _). intros H.
  destruct (lt y x) eqn:E; [|reflexivity].
  pose proof (Htr _ _ _ H E) as H'. rewrite Hirr in H'. discriminate.
Qed.

Lemma insert_sorted_perm (x : A) (l : list A) : Permutation (insert_sorted lt x l) (x :: l).
Proof.
  induction l as [|y l IH]; simpl; [reflexivity|].
  destruct (lt x y); [reflexivity|].
  rewrite IH. apply perm_swap.
Qed.

Lemma insert_sorted_ascending (x : A) (l : list A) :
  ascending lt l -> ascending lt (insert_sorted lt x l).
Proof.
  destruct Hswo as (Hirr & Htr & Hneg).
  unfold ascending. induction 1 as [|y l Hl IH Hy]; simpl.
  - constructor; constructor.
  - destruct (lt x y) eqn:E.
    + constructor; [constructor; assumption|].
      constructor; [now apply lt_asym|].
      rewrite Forall_forall in *. intros w Hw.
      destruct (lt w x) eqn:E'; [|reflexivity].
      pose proof (Htr _ _ _ E' E) as H'. rewrite (Hy w Hw) in H'. discriminate.
    + constructor; [exact IH|].
      rewrite Forall_forall in *. intros w Hw.
      apply (Permutation_in _ (insert_sorted_perm x l)) in Hw.
      destruct Hw as [<- | Hw]; [exact E | now apply Hy].
Qed.

Lemma insert_sorted_filter_out (p : A -> bool) (x : A) (l : list A) :
  p x = false -> filter p (insert_sorted lt x l) = filter p l.
Proof.
  intros Hp. induction l as [|y l IH]; simpl.
  - now rewrite Hp.
  - destruct (lt x y); simpl; [now rewrite Hp|]. now rewrite IH.
Qed.

Lemma insert_sorted_filter_in (p : A -> bool) (x : A) (l : list A) :
  same_key lt p -> ascending lt l -> p x = true ->
  filter p (insert_sorted lt x l) = filter p l ++ [x].
Proof.
  destruct Hswo as (Hirr & Htr & Hneg).
  intros Hk Hl Hp. unfold ascending in Hl.
  induction Hl as [|y l Hl IH Hy]; simpl.
  - now rewrite Hp.
  - destruct (lt x y) eqn:E.
    + simpl. rewrite Hp.
      assert (Hnone : filter p (y :: l) = []).
      { assert (Hall : forall w, In w (y :: l) -> p w = false).
        { intros w Hw. destruct (p w) eqn:Epw; [|reflexivity].
          destruct (Hneg _ _ w E) as [H1 | H1].
          - rewrite (Hk _ _ Hp Epw) in H1. discriminate.
          - destruct Hw as [<- | Hw]; [rewrite Hirr in H1; discriminate|].
            rewrite Forall_forall in Hy. rewrite (Hy w Hw) in H1. discriminate. }
        clear - Hall. induction (y :: l) as [|w t IHt]; simpl; [reflexivity|].
        rewrite (Hall w (or_introl eq_refl)). apply IHt.
        intros w' Hw'. apply Hall. now right. }
      simpl in Hnone. rewrite Hnone. reflexivity.
    + simpl. rewrite IH. now destruct (p y).
Qed.

Lemma fold_insert_spec (l acc : list A) :
  ascending lt acc ->
  let r := fold_left (fun acc x => insert_sorted lt x acc) l acc in
  Permutation r (acc ++ l)
  /\ ascending lt r
  /\ forall p, same_key lt p -> filter p r = filter p (acc ++ l).
Proof.
  revert acc. induction l as [|x l IH]; intros acc Hacc; simpl.
  - rewrite app_nil_r. auto.
  - destruct (IH (insert_sorted lt x acc) (insert_sorted_ascending x acc Hacc))
      as (Hperm & Hasc & Hst).
    split; [|split].
    + rewrite Hperm, insert_sorted_perm. apply Permutation_middle.
    + exact Hasc.
    + intros p Hk. rewrite (Hst p Hk), !filter_app. simpl.
      destruct (p x) eqn:Hp.
      * rewrite insert_sorted_filter_in by assumption.
        now rewrite <- app_assoc.
      * now rewrite insert_sorted_filter_out.
Qed.

End Sort.

Lemma ascending_rev {A : Type} (lt : A -> A -> bool) (l : list A) :
  ascending lt l -> descending lt (rev l).
Proof.
  unfold ascending, descending. induction 1 as [|y l Hl IH Hy]; simpl; [constructor|].
  assert (H : forall l1 l2, StronglySorted (fun a b => lt a b = false) l1 ->
                StronglySorted (fun a b => lt a b = false) l2 ->
                (forall a b, In a l1 -> In b l2 -> lt a b = false) ->
                StronglySorted (fun a b => lt a b = false) (l1 ++ l2)).
  { induction 1 as [|z l1 H1 IH1 Hz]; intros H2 Hc; simpl; [exact H2|].
    constructor.
    - apply IH1; [exact H2|]. intros a b Ha Hb. apply Hc; [now right | exact Hb].
    - apply Forall_app. split; [exact Hz|].
      apply Forall_forall. intros b Hb. apply Hc; [now left | exact Hb]. }
  apply H; [exact IH | repeat constructor |].
  intros a b Ha [<- | []]. apply in_rev in Ha.
  rewrite Forall_forall in Hy. now apply Hy.
Qed.

Lemma filter_reversed {A : Type} (p : A -> bool) (l : list A) :
  filter p (rev l) = rev (filter p l).
Proof.
  induction l as [|x l IH]; simpl; [reflexivity|].
  rewrite filter_app, IH. simpl. destruct (p x); simpl; [reflexivity|].
  now rewrite app_nil_r.
Qed.

(** X5. [list.sort] as modelled is the stable sort: for a key comparison
    that is a strict weak order, the result is a permutation of the input, it
    is ascending (descending with [reverse=True]), and the records of any one
    key keep the order they had. *)
Theorem list_sort_stable {A : Type} (lt : A -> A -> bool) (reverse : bool) (l : list A) :
  strict_weak_order lt ->
  Permutation (list_sort lt reverse l) l
  /\ (if reverse then descending lt (list_sort lt reverse l)
      else ascending lt (list_sort lt reverse l))
  /\ (forall p, same_key lt p -> filter p (list_sort lt reverse l) = filter p l).
Proof.
  intros Hswo. unfold list_sort, sort_stable. destruct reverse.
  - destruct (fold_insert_spec lt Hswo (rev l) [] (SSorted_nil _)) as (Hp & Ha & Hs).
    simpl in *. split; [|split].
    + rewrite <- Permutation_rev, Hp. symmetry. apply Permutation_rev.
    + now apply ascending_rev.
    + intros p Hk. rewrite filter_reversed, (Hs p Hk), filter_reversed. apply rev_involutive.
  - destruct (fold_insert_spec lt Hswo l [] (SSorted_nil _)) as (Hp & Ha & Hs).
    simpl in *. auto.
Qed.

(** Creation timestamps and sender names are compared by strict weak orders. *)

Lemma lex_ltb_cons (x y : Z) (a b : list Z) :
  lex_ltb (x :: a) (y :: b) = true <-> x < y \/ (x = y /\ lex_ltb a b = true).
Proof.
  simpl. rewrite orb_true_iff, andb_true_iff, Z.ltb_lt, Z.eqb_eq. tauto.
Qed.

Lemma lex_ltb_irrefl (a : list Z) : lex_ltb a a = false.
Proof.
  induction a as [|x a IH]; simpl; [reflexivity|].
  now rewrite Z.ltb_irrefl, Z.eqb_refl, IH.
Qed.

Lemma lex_ltb_trans (a b c : list Z) :
  lex_ltb a b = true -> lex_ltb b c = true -> lex_ltb a c = true.
Proof.
  revert b c. induction a as [|x a IH]; intros [|y b] [|z c]; try discriminate.
  rewrite !lex_ltb_cons. intros [H1 | [H1 H1']] [H2 | [H2 H2']]; try (left; lia).
  right. split; [lia | eauto].
Qed.

Lemma lex_ltb_negtrans (a b c : list Z) :
  List.length a = List.length c -> List.length b = List.length c ->
  lex_ltb a b = true -> lex_ltb a c = true \/ lex_ltb c b = true.
Proof.
  revert b c. induction a as [|x a IH]; intros [|y b] [|z c]; try discriminate.
  intros Ha Hb. rewrite !lex_ltb_cons. intros [H1 | [H1 H1']].
  - destruct (Z.lt_trichotomy x z) as [H | [H | H]]; [left; left; lia | | right; left; lia].
    right. left. lia.
  - destruct (Z.lt_trichotomy x z) as [H | [H | H]]; [left; left; lia | | right; left; lia].
    injection Ha as Ha. injection Hb as Hb.
    destruct (IH b c Ha Hb H1'); [left | right]; right; split; auto; lia.
Qed.

Lemma datetime_ltb_order : strict_weak_order datetime_ltb.
Proof.
  unfold datetime_ltb. split; [|split].
  - intros x. apply lex_ltb_irrefl.
  - intros x y z. apply lex_ltb_trans.
  - intros x y z. apply lex_ltb_negtrans; reflexivity.
Qed.

Lemma str_ltb_cons (x y : N) (a b : str) :
  str_ltb (x :: a) (y :: b) = true <-> (x < y)%N \/ (x = y /\ str_ltb a b = true).
Proof.
  simpl. rewrite orb_true_iff, andb_true_iff, N.ltb_lt, N.eqb_eq. tauto.
Qed.

Lemma str_ltb_order : strict_weak_order str_ltb.
Proof.
  split; [|split].
  - intros a. induction a as [|x a IH]; simpl; [reflexivity|].
    now rewrite N.ltb_irrefl, N.eqb_refl, IH.
  - intros a. induction a as [|x a IH]; intros [|y b] [|z c]; try discriminate;
      try reflexivity.
    rewrite !str_ltb_cons. intros [H1 | [H1 H1']] [H2 | [H2 H2']]; try (left; lia).
    right. split; [lia | eauto].
  - intros a. induction a as [|x a IH]; intros [|y b] [|z c]; try discriminate;
      try (now left); try (now right).
    rewrite !str_ltb_cons. intros [H1 | [H1 H1']].
    + destruct (N.lt_trichotomy x z) as [H | [H | H]]; [left; left; lia | | right; left; lia].
      right. left. lia.
    + destruct (N.lt_trichotomy x z) as [H | [H | H]]; [left; left; lia | | right; left; lia].
      destruct (IH b c H1'); [left | right]; right; split; auto; lia.
Qed.

Lemma sort_key_order (sort_field : RemittanceSortField) :
  sort_field = by_created_at \/ sort_field = by_sender_name ->
  strict_weak_order (sort_key_ltb sort_field).
Proof.
  intros [-> | ->]; simpl.
  - destruct datetime_ltb_order as (H1 & H2 & H3).
    split; [|split]; intros; eauto.
  - destruct str_ltb_order as (H1 & H2 & H3).
    split; [|split]; intros; eauto.
Qed.

Lemma list_sort_stable_seed :
  Permutation
    (list_sort (sort_key_ltb by_created_at) true (values seed_remittances))
    (values seed_remittances)
  /\ descending (sort_key_ltb by_created_at)
       (list_sort (sort_key_ltb by_created_at) true (values seed_remittances)).
Proof.
  destruct (list_sort_stable (sort_key_ltb by_created_at) true (values seed_remittances)
              (sort_key_order by_created_at (or_introl eq_refl)))
    as (Hperm & Hdesc & _).
  split; [exact Hperm | exact Hdesc].
Defined.

(** * The store as a whole *)

(** ** Dictionaries: entries and keys *)

Lemma dict_get_In {V : Type} (d : dict V) (k : Z) (v : V) :
  dict_get d k = Some v -> List.In (k, v) d.
Proof.
  induction d as [|[k' v'] d IH]; simpl; [discriminate|].
  destruct (k' =? k) eqn:E.
  - apply Z.eqb_eq in E. intros H. injection H as <-. subst. now left.
  - intros H. right. now apply IH.
Qed.

Lemma dict_get_None {V : Type} (d : dict V) (k : Z) :
  dict_get d k = None <-> ~ List.In k (keys d).
Proof.
  induction d as [|[k' v'] d IH]; simpl; [tauto|].
  destruct (k' =? k) eqn:E.
  - apply Z.eqb_eq in E. split; [discriminate | intros H; exfalso; apply H; now left].
  - apply Z.eqb_neq in E. rewrite IH. tauto.
Qed.

Lemma In_dict_get {V : Type} (d : dict V) (k : Z) (v : V) :
  NoDup (keys d) -> List.In (k, v) d -> dict_get d k = Some v.
Proof.
  induction d as [|[k' v'] d IH]; simpl; [tauto|].
  intros Hnd [H | H].
  - injection H as -> ->. now rewrite Z.eqb_refl.
  - inversion Hnd as [|? ? Hnot Hnd']; subst.
    destruct (k' =? k) eqn:E; [|now apply IH].
    apply Z.eqb_eq in E. subst k'. exfalso. apply Hnot.
    change k with (fst (k, v)). now apply List.in_map.
Qed.

Lemma In_dict_set {V : Type} (d : dict V) (k : Z) (v : V) (kv : Z * V) :
  List.In kv (dict_set d k v) -> kv = (k, v) \/ (List.In kv d /\ (NoDup (keys d) -> fst kv <> k)).
Proof.
  induction d as [|[k' v'] d IH]; simpl.
  - intros [H | []]. now left.
  - destruct (k' =? k) eqn:E; simpl.
    + apply Z.eqb_eq in E. subst k'. intros [H | H]; [now left|].
      right. split; [now right|]. intros Hnd Hk.
      inversion Hnd as [|? ? Hnot _]. apply Hnot.
      rewrite <- Hk. now apply List.in_map.
    + apply Z.eqb_neq in E. intros [H | H].
      * right. subst kv. split; [now left | now simpl].
      * destruct (IH H) as [H' | [H' Hne]]; [now left|].
        right. split; [now right|]. intros Hnd. apply Hne.
        now inversion Hnd.
Qed.

Lemma keys_dict_set {V : Type} (d : dict V) (k k' : Z) (v : V) :
  List.In k' (keys (dict_set d k v)) <-> k' = k \/ List.In k' (keys d).
Proof.
  induction d as [|[k0 v0] d IH]; simpl.
  - split; [intros [H | []]; now left | intros [H | []]; now left].
  - destruct (k0 =? k) eqn:E; simpl.
    + apply Z.eqb_eq in E. subst k0. split; intros H; intuition congruence.
    + rewrite IH. tauto.
Qed.

Lemma NoDup_dict_set {V : Type} (d : dict V) (k : Z) (v : V) :
  NoDup (keys d) -> NoDup (keys (dict_set d k v)).
Proof.
  induction d as [|[k0 v0] d IH]; simpl; intros Hnd.
  - constructor; [tauto | constructor].
  - inversion Hnd as [|? ? Hnot Hnd']; subst.
    destruct (k0 =? k) eqn:E; simpl.
    + apply Z.eqb_eq in E. subst k0. now constructor.
    + apply Z.eqb_neq in E. constructor; [|now apply IH].
      fold (keys (dict_set d k v)). rewrite keys_dict_set. intros [H | H]; congruence.
Qed.

Lemma In_dict_del {V : Type} (d : dict V) (k : Z) (kv : Z * V) :
  List.In kv (dict_del d k) <-> List.In kv d /\ fst kv <> k.
Proof.
  unfold dict_del. rewrite List.filter_In, negb_true_iff, Z.eqb_neq. tauto.
Qed.

Lemma NoDup_dict_del {V : Type} (d : dict V) (k : Z) :
  NoDup (keys d) -> NoDup (keys (dict_del d k)).
Proof.
  unfold dict_del, keys. induction d as [|[k0 v0] d IH]; simpl; intros Hnd; [constructor|].
  inversion Hnd as [|? ? Hnot Hnd']; subst.
  destruct (negb (k0 =? k)); simpl; [|now apply IH].
  constructor; [|now apply IH].
  intros H. apply Hnot. apply List.in_map_iff in H. destruct H as (kv & Hk & Hin).
  apply List.filter_In in Hin. apply List.in_map_iff. exists kv. tauto.
Qed.

Lemma Forall_dict_set {V : Type} (P : Z * V -> Prop) (d : dict V) (k : Z) (v : V) :
  List.Forall P d -> P (k, v) -> List.Forall P (dict_set d k v).
Proof.
  intros Hd Hkv. apply List.Forall_forall. intros kv Hin.
  destruct (In_dict_set _ _ _ _ Hin) as [-> | [H _]]; [exact Hkv|].
  rewrite List.Forall_forall in Hd. now apply Hd.
Qed.

Lemma Forall_dict_del {V : Type} (P : Z * V -> Prop) (d : dict V) (k : Z) :
  List.Forall P d -> List.Forall P (dict_del d k).
Proof.
  intros Hd. apply List.Forall_forall. intros kv Hin.
  apply In_dict_del in Hin. rewrite List.Forall_forall in Hd. now apply Hd.
Qed.

Lemma str_eqb_eq (a b : str) : str_eqb a b = true <-> a = b.
Proof.
  revert b. induction a as [|x a IH]; intros [|y b]; simpl; try (split; congruence).
  rewrite andb_true_iff, N.eqb_eq, IH. split; [intros [-> ->]; reflexivity|].
  intros H. injection H as -> ->. auto.
Qed.

(** ** The invariant of the store *)

Lemma corridor_lookup_kept (d : dict Corridor.t) (k : Z) (c : Corridor.t)
    (rs : dict Remittance.t) :
  List.Forall (fun kv => dict_get d (Remittance.corridor_id (snd kv)) <> None) rs ->
  List.Forall
    (fun kv => dict_get (dict_set d k c) (Remittance.corridor_id (snd kv)) <> None) rs.
Proof.
  apply List.Forall_impl. intros kv H.
  destruct (Z.eq_dec (Remittance.corridor_id (snd kv)) k) as [-> | Hne].
  - rewrite dict_get_set_same. discriminate.
  - now rewrite dict_get_set_other.
Qed.

Lemma no_other_code (d : dict Corridor.t) (k : Z) (code : str) :
  List.existsb (fun kv => negb (fst kv =? k) && str_eqb (Corridor.code (snd kv)) code) d
  = false ->
  forall k' c', List.In (k', c') d -> Corridor.code c' = code -> k' = k.
Proof.
  intros H k' c' Hin Hc.
  destruct (Z.eq_dec k' k) as [|Hne]; [assumption|]. exfalso.
  assert (E : List.existsb
                (fun kv => negb (fst kv =? k) && str_eqb (Corridor.code (snd kv)) code) d
              = true).
  { apply List.existsb_exists. exists (k', c'). split; [exact Hin|]. simpl.
    apply andb_true_iff. split.
    - apply negb_true_iff. now apply Z.eqb_neq.
    - now apply str_eqb_eq. }
  congruence.
Qed.

Lemma codes_unique_set (d : dict Corridor.t) (k : Z) (c : Corridor.t) :
  NoDup (keys d) ->
  (forall k1 c1 k2 c2, List.In (k1, c1) d -> List.In (k2, c2) d ->
                       Corridor.code c1 = Corridor.code c2 -> k1 = k2) ->
  (forall k' c', List.In (k', c') d -> Corridor.code c' = Corridor.code c -> k' = k) ->
  forall k1 c1 k2 c2,
    List.In (k1, c1) (dict_set d k c) -> List.In (k2, c2) (dict_set d k c) ->
    Corridor.code c1 = Corridor.code c2 -> k1 = k2.
Proof.
  intros Hnd Hold Hnew k1 c1 k2 c2 H1 H2 Hc.
  destruct (In_dict_set _ _ _ _ H1) as [E1 | [H1' _]];
    destruct (In_dict_set _ _ _ _ H2) as [E2 | [H2' _]].
  - congruence.
  - injection E1 as -> ->. symmetry. now apply (Hnew k2 c2).
  - injection E2 as -> ->. now apply (Hnew k1 c1).
  - now apply (Hold k1 c1 k2 c2).
Qed.

Lemma create_corridor_preserved (now : datetime) (db : Store) (body : CorridorCreate.t) :
  consistent db -> preserved db (create_corridor now db body).
Proof.
  intros [Hck Hrk Hci Hri [Hcp Hrp] Hce Hcu]. unfold create_corridor.
  destruct (List.existsb _ (values (corridors_db db))) eqn:Hdup; simpl.
  - split; [reflexivity | discriminate].
  - assert (Hfresh : forall k' c', List.In (k', c') (corridors_db db) ->
                       Corridor.code c' = CorridorCreate.code body ->
                       k' = next_corridor_id db).
    { intros k' c' Hin Hc. exfalso.
      assert (E : List.existsb
                    (fun existing => str_eqb (Corridor.code existing)
                                       (CorridorCreate.code body))
                    (values (corridors_db db)) = true).
      { apply List.existsb_exists. exists c'. split.
        - unfold values. change c' with (snd (k', c')). now apply List.in_map.
        - now apply str_eqb_eq. }
      congruence. }
    constructor; simpl.
    + now apply NoDup_dict_set.
    + exact Hrk.
    + apply Forall_dict_set.
      * revert Hci. apply List.Forall_impl. intros kv. lia.
      * simpl. lia.
    + exact Hri.
    + lia.
    + now apply corridor_lookup_kept.
    + apply codes_unique_set; assumption.
Qed.

Lemma replace_corridor_preserved (corridor_id : Z) (db : Store) (body : CorridorCreate.t) :
  consistent db -> preserved db (replace_corridor corridor_id db body).
Proof.
  intros [Hck Hrk Hci Hri [Hcp Hrp] Hce Hcu]. unfold replace_corridor.
  destruct (dict_get (corridors_db db) corridor_id) as [stored|] eqn:Hget; simpl;
    [|split; [reflexivity | discriminate]].
  destruct (List.existsb _ (corridors_db db)) eqn:Hdup; simpl;
    [split; [reflexivity | discriminate]|].
  pose proof (dict_get_In _ _ _ Hget) as Hin.
  rewrite List.Forall_forall in Hci. pose proof (Hci _ Hin) as [_ Hb]. simpl in Hb.
  constructor; simpl.
  - now apply NoDup_dict_set.
  - exact Hrk.
  - apply Forall_dict_set; [now apply List.Forall_forall | simpl; lia].
  - exact Hri.
  - lia.
  - now apply corridor_lookup_kept.
  - apply codes_unique_set; try assumption.
    exact (no_other_code _ _ _ Hdup).
Qed.

Lemma Corridor_update_kept (c c' : Corridor.t) (body : CorridorUpdate.t) :
  Corridor_update c body = Some c' ->
  Corridor.id c' = Corridor.id c
  /\ updated (Corridor.code c) (CorridorUpdate.code body) = Some (Corridor.code c').
Proof.
  unfold Corridor_update.
  repeat match goal with
         | |- context [updated ?a ?f] =>
             lazymatch goal with
             | |- context [match updated a f with _ => _ end] =>
                 destruct (updated a f) eqn:?; [|discriminate]
             end
         end.
  intros H. injection H as <-. split; reflexivity.
Qed.

Lemma update_corridor_preserved (corridor_id : Z) (db : Store) (body : CorridorUpdate.t) :
  consistent db -> preserved db (update_corridor corridor_id db body).
Proof.
  intros [Hck Hrk Hci Hri [Hcp Hrp] Hce Hcu]. unfold update_corridor.
  destruct (dict_get (corridors_db db) corridor_id) as [stored|] eqn:Hget; simpl;
    [|split; [reflexivity | discriminate]].
  pose proof (dict_get_In _ _ _ Hget) as Hin.
  assert (Hstored : Corridor.id stored = corridor_id
                    /\ 0 < corridor_id < next_corridor_id db).
  { rewrite List.Forall_forall in Hci. exact (Hci _ Hin). }
  destruct (Corridor_update stored body) as [c|] eqn:Hu.
  - destruct (Corridor_update_kept _ _ _ Hu) as [Hid Hcode].
    assert (Hok : preserved db
              (Return (A := Corridor.t)
                 (set_corridors_db db (dict_set (corridors_db db) corridor_id c)) c)
            \/ exists code, CorridorUpdate.code body = Value code
                  /\ List.existsb
                       (fun kv => negb (fst kv =? corridor_id)
                                  && str_eqb (Corridor.code (snd kv)) code)
                       (corridors_db db) = true).
    { destruct (CorridorUpdate.code body) as [| |code] eqn:Hcb; simpl in Hcode;
        try discriminate.
      - left. injection Hcode as Hcode.
        constructor; simpl;
          [now apply NoDup_dict_set | exact Hrk | | exact Hri | lia
          | now apply corridor_lookup_kept | ].
        + apply Forall_dict_set; [exact Hci | simpl; lia].
        + apply codes_unique_set; try assumption.
          intros k' c' Hin' Hc'. apply (Hcu k' c' corridor_id stored Hin' Hin). congruence.
      - injection Hcode as Hcode.
        destruct (List.existsb
                    (fun kv => negb (fst kv =? corridor_id)
                               && str_eqb (Corridor.code (snd kv)) code)
                    (corridors_db db)) eqn:Hdup.
        + right. exists code. auto.
        + left. constructor; simpl;
            [now apply NoDup_dict_set | exact Hrk | | exact Hri | lia
            | now apply corridor_lookup_kept | ].
          * apply Forall_dict_set; [exact Hci | simpl; lia].
          * apply codes_unique_set; try assumption. rewrite <- Hcode.
            exact (no_other_code _ _ _ Hdup). }
    destruct (CorridorUpdate.code body) as [| |code] eqn:Hcb.
    + destruct Hok as [Hok | (code & E & _)]; [exact Hok | discriminate].
    + destruct Hok as [Hok | (code & E & _)]; [exact Hok | discriminate].
    + destruct (List.existsb _ (corridors_db db)) eqn:Hdup.
      * simpl. split; [reflexivity | discriminate].
      * destruct Hok as [Hok | (code' & E & Hd)]; [exact Hok|].
        injection E as <-. congruence.
  - destruct (CorridorUpdate.code body) as [| |code]; try exact I.
    destruct (List.existsb _ (corridors_db db)); simpl; [|exact I].
    split; [reflexivity | discriminate].
Qed.

Lemma delete_corridor_preserved (corridor_id : Z) (db : Store) :
  consistent db -> preserved db (delete_corridor corridor_id db).
Proof.
  intros [Hck Hrk Hci Hri [Hcp Hrp] Hce Hcu]. unfold delete_corridor.
  destruct (dict_get (corridors_db db) corridor_id) as [stored|] eqn:Hget; simpl;
    [|split; [reflexivity | discriminate]].
  destruct (List.existsb _ (values (remittances_db db))) eqn:Href; simpl;
    [split; [reflexivity | discriminate]|].
  constructor; simpl.
  - now apply NoDup_dict_del.
  - exact Hrk.
  - now apply Forall_dict_del.
  - exact Hri.
  - lia.
  - rewrite List.Forall_forall in *. intros kv Hin. rewrite dict_get_del.
    destruct (Remittance.corridor_id (snd kv) =? corridor_id) eqn:E; [|now apply Hce].
    exfalso.
    assert (E' : List.existsb (fun r => Remittance.corridor_id r =? corridor_id)
                   (values (remittances_db db)) = true).
    { apply List.existsb_exists. exists (snd kv). split; [|exact E].
      unfold values. now apply List.in_map. }
    congruence.
  - intros k1 c1 k2 c2 H1 H2. apply In_dict_del in H1, H2.
    apply Hcu; tauto.
Qed.

Lemma remittance_stored_preserved (db : Store) (k : Z) (r : Remittance.t) (next : Z) :
  consistent db ->
  Remittance.id r = k -> 0 < k < next -> next_remittance_id db <= next ->
  dict_get (corridors_db db) (Remittance.corridor_id r) <> None ->
  consistent
    (mkStore (corridors_db db) (dict_set (remittances_db db) k r)
       (next_corridor_id db) next).
Proof.
  intros [Hck Hrk Hci Hri [Hcp Hrp] Hce Hcu] Hid Hk Hnext Hc.
  constructor; simpl.
  - exact Hck.
  - now apply NoDup_dict_set.
  - exact Hci.
  - apply Forall_dict_set; [|simpl; split; [exact Hid | lia]].
    revert Hri. apply List.Forall_impl. intros kv. lia.
  - lia.
  - apply Forall_dict_set; [exact Hce | exact Hc].
  - exact Hcu.
Qed.

Lemma create_remittance_preserved (now_ref now_created : datetime) (db : Store)
    (body : RemittanceCreate.t) :
  consistent db -> preserved db (create_remittance now_ref now_created db body).
Proof.
  intros Hdb. unfold create_remittance.
  destruct (dict_get (corridors_db db) (RemittanceCreate.corridor_id body))
    as [c|] eqn:Hc; simpl; [|split; [reflexivity | discriminate]].
  destruct (Corridor.is_active c); simpl; [|split; [reflexivity | discriminate]].
  unfold _calculate_fee. simpl. rewrite Hc. simpl.
  pose proof (counters_positive db Hdb) as [_ Hrp].
  apply (remittance_stored_preserved db (next_remittance_id db)); simpl;
    try reflexivity; try lia; try assumption.
  rewrite Hc. discriminate.
Qed.

Lemma replace_remittance_preserved (remittance_id : Z) (db : Store)
    (body : RemittanceCreate.t) :
  consistent db -> preserved db (replace_remittance remittance_id db body).
Proof.
  intros Hdb. unfold replace_remittance.
  destruct (dict_get (remittances_db db) remittance_id) as [existing|] eqn:Hr; simpl;
    [|split; [reflexivity | discriminate]].
  destruct (dict_get (corridors_db db) (RemittanceCreate.corridor_id body))
    as [c|] eqn:Hc; simpl; [|split; [reflexivity | discriminate]].
  destruct (Corridor.is_active c); simpl; [|split; [reflexivity | discriminate]].
  rewrite (calculate_fee_computeFee _ _ _ _ _ Hc). simpl.
  pose proof (remittance_ids db Hdb) as Hri. rewrite List.Forall_forall in Hri.
  destruct (Hri _ (dict_get_In _ _ _ Hr)) as [_ Hb]. simpl in Hb.
  apply (remittance_stored_preserved db remittance_id); simpl;
    try reflexivity; try lia; try assumption.
  rewrite Hc. discriminate.
Qed.

Lemma Remittance_update_id (r current : Remittance.t) (body : RemittanceUpdate.t) :
  Remittance_update r body = Some current -> Remittance.id current = Remittance.id r.
Proof.
  unfold Remittance_update.
  repeat match goal with
         | |- context [match updated ?a ?f with _ => _ end] =>
             destruct (updated a f); [|discriminate]
         end.
  intros H. injection H as <-. reflexivity.
Qed.

Lemma update_corridor_check_passed (db : Store) (f : field Z) (old : Z) (new : Z) :
  update_corridor_check db f = None ->
  updated old f = Some new ->
  dict_get (corridors_db db) old <> None ->
  dict_get (corridors_db db) new <> None.
Proof.
  destruct f as [| |cid]; simpl; try discriminate.
  - intros _ H. now injection H as <-.
  - destruct (dict_get (corridors_db db) cid) eqn:E; [|discriminate].
    intros _ H _. injection H as <-. rewrite E. discriminate.
Qed.

Lemma update_corridor_check_kind (db : Store) (f : field Z) (e : Exn) :
  update_corridor_check db f = Some e -> error_kind e <> None.
Proof.
  destruct f as [| |cid]; simpl; try discriminate.
  - intros H. injection H as <-. discriminate.
  - destruct (dict_get (corridors_db db) cid) as [c|].
    + destruct (negb (Corridor.is_active c)); [|discriminate].
      intros H. injection H as <-. discriminate.
    + intros H. injection H as <-. discriminate.
Qed.

Lemma update_remittance_preserved (remittance_id : Z) (db : Store)
    (body : RemittanceUpdate.t) :
  consistent db -> preserved db (update_remittance remittance_id db body).
Proof.
  intros Hdb. unfold update_remittance.
  destruct (dict_get (remittances_db db) remittance_id) as [existing|] eqn:Hr; simpl;
    [|split; [reflexivity | discriminate]].
  destruct (update_corridor_check db (RemittanceUpdate.corridor_id body)) as [e|] eqn:Hc.
  { simpl. split; [reflexivity | exact (update_corridor_check_kind _ _ _ Hc)]. }
  destruct (Remittance_update existing body) as [current|] eqn:Hu; [|exact I].
  pose proof (remittance_ids db Hdb) as Hri. rewrite List.Forall_forall in Hri.
  destruct (Hri _ (dict_get_In _ _ _ Hr)) as [Hid Hb]. simpl in Hid, Hb.
  pose proof (corridors_exist db Hdb) as Hce. rewrite List.Forall_forall in Hce.
  pose proof (Hce _ (dict_get_In _ _ _ Hr)) as Hold. simpl in Hold.
  destruct (Remittance_update_fee_fields _ _ _ Hu) as (_ & Hcid & _).
  pose proof (update_corridor_check_passed _ _ _ _ Hc Hcid Hold) as Hnew.
  pose proof (Remittance_update_id _ _ _ Hu) as Hcur.
  assert (H1 : consistent
                 (set_remittances_db db
                    (dict_set (remittances_db db) remittance_id current))).
  { apply (remittance_stored_preserved db remittance_id); try assumption; lia. }
  destruct (is_set _ || is_set _ || is_set _); [|exact H1].
  unfold _calculate_fee. simpl.
  destruct (dict_get (corridors_db db) (Remittance.corridor_id current)) as [c|] eqn:Hcc;
    [|congruence].
  simpl.
  apply (remittance_stored_preserved _ remittance_id _ _ H1); simpl; try lia.
  rewrite Hcc. discriminate.
Qed.

Lemma delete_remittance_preserved (remittance_id : Z) (db : Store) :
  consistent db -> preserved db (delete_remittance remittance_id db).
Proof.
  intros [Hck Hrk Hci Hri [Hcp Hrp] Hce Hcu]. unfold delete_remittance.
  destruct (dict_get (remittances_db db) remittance_id) as [r|] eqn:Hr; simpl;
    [|split; [reflexivity | discriminate]].
  assert (H : consistent
                (set_remittances_db db (dict_del (remittances_db db) remittance_id))).
  { constructor; simpl; try assumption; try lia.
    - now apply NoDup_dict_del.
    - now apply Forall_dict_del.
    - now apply Forall_dict_del. }
  destruct (Remittance.status r); simpl; try exact H;
    (split; [reflexivity | discriminate]).
Qed.

Lemma preserved_forget {A : Type} (db : Store) (o : Outcome A) :
  preserved db o -> preserved db (forget o).
Proof. now destruct o. Qed.

Lemma preserved_with_body {A B : Type} (valid : A -> bool)
    (handler : Store -> A -> Outcome B) (db : Store) (body : A) :
  preserved db (handler db body) -> preserved db (with_body valid handler db body).
Proof.
  unfold with_body. destruct (valid body); [auto|].
  intros _. simpl. split; [reflexivity | discriminate].
Qed.

Lemma preserved_with_path {B : Type} (handler : Z -> Store -> Outcome B) (ident : Z)
    (db : Store) :
  preserved db (handler ident db) -> preserved db (with_path handler ident db).
Proof.
  unfold with_path. destruct (0 <? ident); [auto|].
  intros _. simpl. split; [reflexivity | discriminate].
Qed.

Lemma handle_preserved (req : Request) (db : Store) :
  consistent db -> preserved db (handle req db).
Proof.
  intros Hdb. destruct req; simpl; apply preserved_forget;
    try apply preserved_with_path; try apply preserved_with_body.
  - now apply create_corridor_preserved.
  - now apply replace_corridor_preserved.
  - now apply update_corridor_preserved.
  - now apply delete_corridor_preserved.
  - now apply create_remittance_preserved.
  - now apply replace_remittance_preserved.
  - now apply update_remittance_preserved.
  - now apply delete_remittance_preserved.
Qed.

Lemma seed_consistent : consistent seed.
Proof.
  constructor.
  - repeat constructor; simpl; intuition discriminate.
  - repeat constructor; simpl; intuition discriminate.
  - repeat constructor; simpl; lia.
  - repeat constructor; simpl; lia.
  - simpl. lia.
  - repeat constructor; discriminate.
  - intros k1 c1 k2 c2 H1 H2 Hc. simpl in H1, H2.
    repeat (destruct H1 as [H1 | H1]; [injection H1 as <- <-|]); try contradiction;
      repeat (destruct H2 as [H2 | H2]; [injection H2 as <- <-|]); try contradiction;
      try reflexivity; vm_compute in Hc; discriminate.
Qed.

(** X6. The seeded store is consistent, every write request served on a
    consistent store leaves a consistent store, and so does every sequence of
    requests served from the seed: keys stay unique, a record carries its key
    as [id], identifiers stay positive and below their counter, every
    remittance refers to a corridor that is there, and no two corridors share
    a code. *)
Theorem reachable_stores_consistent :
  consistent seed
  /\ (forall req db db',
        consistent db -> store_after (handle req db) = Some db' -> consistent db')
  /\ (forall reqs db, run reqs seed = Some db -> consistent db).
Proof.
  assert (Hstep : forall req db db',
             consistent db -> store_after (handle req db) = Some db' -> consistent db').
  { intros req db db' Hdb H. pose proof (handle_preserved req db Hdb) as Hp.
    destruct (handle req db) as [db1 a | db1 e |]; simpl in *.
    - now injection H as <-.
    - injection H as <-. destruct Hp as [-> _]. exact Hdb.
    - discriminate. }
  split; [exact seed_consistent|]. split; [exact Hstep|].
  intros reqs. generalize seed seed_consistent.
  induction reqs as [|req reqs IH]; intros db0 H0 db; simpl.
  - intros H. now injection H as <-.
  - destruct (store_after (handle req db0)) as [db1|] eqn:E; [|discriminate].
    apply IH. exact (Hstep _ _ _ H0 E).
Qed.



(** The hypothesis of X7 is needed: on a store whose remittance 1 refers to
    a corridor that is gone, a partial update of the amount writes the amount
    and then fails on the lookup of the corridor. *)
Lemma update_remittance_dangling_corridor :
  exists db' stored,
    update_remittance 1 (set_corridors_db seed []) (only_amount 900) = Raise db' (KeyError 1)
    /\ dict_get (remittances_db db') 1 = Some stored
    /\ Remittance.amount stored = 900%float
    /\ Remittance.fee stored = 17.5%float.
Proof.
  do 2 eexists. split; [vm_compute; reflexivity|]. split; [reflexivity|].
  split; reflexivity.
Qed.

(** * Reading after writing *)

(** X8. A corridor can be read back after it is written: after a creation,
    a replace or a partial update that returned, [get_corridor] returns the
    very record the write returned; after a deletion it answers 404. *)
Theorem get_corridor_after_write :
  (forall now db body db' c,
     create_corridor now db body = Return db' c ->
     get_corridor (Corridor.id c) db' = Return db' c)
  /\ (forall corridor_id db body db' c,
        replace_corridor corridor_id db body = Return db' c ->
        get_corridor corridor_id db' = Return db' c)
  /\ (forall corridor_id db body db' c,
        update_corridor corridor_id db body = Return db' c ->
        get_corridor corridor_id db' = Return db' c)
  /\ (forall corridor_id db db',
        delete_corridor corridor_id db = Return db' tt ->
        get_corridor corridor_id db'
        = Raise db' (HTTPException 404 (corredor_no_encontrado (Some corridor_id)))).
Proof.
  split; [|split; [|split]].
  - intros now db body db' c. unfold create_corridor.
    destruct (List.existsb _ _); [discriminate|]. simpl.
    intros H. injection H as <- <-. unfold get_corridor. simpl.
    now rewrite dict_get_set_same.
  - intros corridor_id db body db' c. unfold replace_corridor.
    destruct (dict_get (corridors_db db) corridor_id); [|discriminate].
    destruct (List.existsb _ _); [discriminate|].
    intros H. injection H as <- <-. unfold get_corridor. simpl.
    now rewrite dict_get_set_same.
  - intros corridor_id db body db' c. unfold update_corridor.
    destruct (dict_get (corridors_db db) corridor_id) as [stored|]; [|discriminate].
    destruct (match CorridorUpdate.code body with Value _ => _ | _ => _ end);
      [discriminate|].
    destruct (Corridor_update stored body); [|discriminate].
    intros H. injection H as <- <-. unfold get_corridor. simpl.
    now rewrite dict_get_set_same.
  - intros corridor_id db db'. unfold delete_corridor.
    destruct (dict_get (corridors_db db) corridor_id); [|discriminate].
    destruct (List.existsb _ _); [discriminate|].
    intros H. injection H as <-. unfold get_corridor. simpl.
    now rewrite dict_get_del, Z.eqb_refl.
Qed.

(** X9. A remittance can be read back after it is written: after a
    creation, a replace or a partial update that returned, [get_remittance]
    returns the very response the write returned; after a deletion it answers
    404. *)
Theorem get_remittance_after_write :
  (forall now_ref now_created db body db' resp,
     create_remittance now_ref now_created db body = Return db' resp ->
     get_remittance (Remittance.id (remittance resp)) db' = Return db' resp)
  /\ (forall remittance_id db body db' resp,
        replace_remittance remittance_id db body = Return db' resp ->
        get_remittance remittance_id db' = Return db' resp)
  /\ (forall remittance_id db body db' resp,
        update_remittance remittance_id db body = Return db' resp ->
        get_remittance remittance_id db' = Return db' resp)
  /\ (forall remittance_id db db',
        delete_remittance remittance_id db = Return db' tt ->
        get_remittance remittance_id db'
        = Raise db' (HTTPException 404 (remesa_no_encontrada remittance_id))).
Proof.
  split; [|split; [|split]].
  - intros now_ref now_created db body db' resp. unfold create_remittance.
    destruct (dict_get (corridors_db db) _) as [c|]; [|discriminate].
    destruct (negb (Corridor.is_active c)); [discriminate|]. simpl.
    destruct (_calculate_fee _ _ _ _); [|discriminate].
    intros H. injection H as <- <-. unfold get_remittance. simpl.
    now rewrite dict_get_set_same.
  - intros remittance_id db body db' resp. unfold replace_remittance.
    destruct (dict_get (remittances_db db) remittance_id); [|discriminate].
    destruct (dict_get (corridors_db db) _) as [c|]; [|discriminate].
    destruct (negb (Corridor.is_active c)); [discriminate|].
    destruct (_calculate_fee _ _ _ _); [|discriminate].
    intros H. injection H as <- <-. unfold get_remittance. simpl.
    now rewrite dict_get_set_same.
  - intros remittance_id db body db' resp. unfold update_remittance.
    destruct (dict_get (remittances_db db) remittance_id) as [existing|]; [|discriminate].
    destruct (update_corridor_check db _); [discriminate|].
    destruct (Remittance_update existing body) as [current|]; [|discriminate].
    destruct (is_set _ || is_set _ || is_set _).
    + destruct (_calculate_fee _ _ _ _); [|discriminate].
      intros H. injection H as <- <-. unfold get_remittance. simpl.
      now rewrite dict_get_set_same.
    + intros H. injection H as <- <-. unfold get_remittance. simpl.
      now rewrite dict_get_set_same.
  - intros remittance_id db db'. unfold delete_remittance.
    destruct (dict_get (remittances_db db) remittance_id) as [r|]; [|discriminate].
    destruct (Remittance.status r); try discriminate;
      intros H; injection H as <-; unfold get_remittance; simpl;
      now rewrite dict_get_del, Z.eqb_refl.
Qed.

(** * Creation *)

Lemma dict_set_fresh {V : Type} (d : dict V) (k : Z) (v : V) :
  dict_get d k = None -> dict_set d k v = d ++ [(k, v)].
Proof.
  induction d as [|[k' v'] d IH]; simpl; [reflexivity|].
  destruct (k' =? k); [discriminate|]. intros H. now rewrite IH.
Qed.

Lemma counter_is_fresh {V : Type} (P : Z * V -> Prop) (d : dict V) (next : Z) :
  List.Forall (fun kv => P kv /\ 0 < fst kv < next) d -> dict_get d next = None.
Proof.
  intros H. apply dict_get_None. intros Hin. unfold keys in Hin.
  apply List.in_map_iff in Hin. destruct Hin as (kv & Hk & Hin).
  rewrite List.Forall_forall in H. destruct (H kv Hin) as [_ Hb]. lia.
Qed.

Lemma code_taken (code : str) (l : list Corridor.t) :
  List.existsb (fun existing => str_eqb (Corridor.code existing) code) l = true
  <-> exists c, List.In c l /\ Corridor.code c = code.
Proof.
  rewrite List.existsb_exists. split; intros (c & Hin & H); exists c; split;
    try exact Hin; now apply str_eqb_eq.
Qed.

(** X10. On a consistent store, creating a corridor is refused, with the
    store as it was, exactly when a corridor of the store has the code;
    otherwise the new corridor gets the value of the counter as [id], a key
    no corridor had, goes last in the dictionary, and the counter moves on by
    one; remittances are not touched. *)
Theorem create_corridor_appends (now : datetime) (db : Store) (body : CorridorCreate.t) :
  consistent db ->
  ((exists c, List.In c (values (corridors_db db))
              /\ Corridor.code c = CorridorCreate.code body) ->
     create_corridor now db body
     = Raise db (HTTPException 400 (corredor_con_codigo (CorridorCreate.code body))))
  /\ ((forall c, List.In c (values (corridors_db db)) ->
                 Corridor.code c <> CorridorCreate.code body) ->
      exists db' c,
        create_corridor now db body = Return db' c
        /\ Corridor.id c = next_corridor_id db
        /\ Corridor.code c = CorridorCreate.code body
        /\ Corridor.created_at c = now
        /\ dict_get (corridors_db db) (Corridor.id c) = None
        /\ values (corridors_db db') = values (corridors_db db) ++ [c]
        /\ next_corridor_id db' = next_corridor_id db + 1
        /\ remittances_db db' = remittances_db db
        /\ next_remittance_id db' = next_remittance_id db).
Proof.
  intros Hdb. unfold create_corridor. split.
  - intros H. apply code_taken in H. now rewrite H.
  - intros H.
    destruct (List.existsb _ (values (corridors_db db))) eqn:E.
    + apply code_taken in E. destruct E as (c & Hin & Hc). now destruct (H c Hin).
    + simpl. do 2 eexists. split; [reflexivity|]. simpl.
      pose proof (counter_is_fresh _ _ _ (corridor_ids db Hdb)) as Hfresh.
      repeat split; try assumption.
      rewrite (dict_set_fresh _ _ _ Hfresh). unfold values.
      now rewrite List.map_app.
Qed.

Lemma create_corridor_appends_seed :
  create_corridor (at_ 2024 4 1 9 0 0) seed (corridor_request (u "US-MX"))
  = Raise seed (HTTPException 400 (corredor_con_codigo (u "US-MX")))
  /\ exists db' c,
       create_corridor (at_ 2024 4 1 9 0 0) seed (corridor_request (u "US-HN"))
       = Return db' c
       /\ Corridor.id c = 6
       /\ values (corridors_db db') = values seed_corridors ++ [c]
       /\ next_corridor_id db' = 7.
Proof.
  split.
  - refine (proj1 (create_corridor_appends (at_ 2024 4 1 9 0 0) seed
                     (corridor_request (u "US-MX")) seed_consistent) _).
    eexists. split; [left; reflexivity | reflexivity].
  - destruct (proj2 (create_corridor_appends (at_ 2024 4 1 9 0 0) seed
                       (corridor_request (u "US-HN")) seed_consistent))
      as (db' & c & H & Hid & _ & _ & _ & Hv & Hn & _).
    + intros c Hin. simpl in Hin.
      repeat (destruct Hin as [<- | Hin]; [discriminate|]). contradiction.
    + exists db', c. split; [exact H|]. split; [exact Hid|]. split; [exact Hv | exact Hn].
Defined.

(** X11. Identifiers are not reused: on a consistent store a created
    remittance gets a key that no remittance had and that is above every key
    in use, and it goes last in the dictionary, after the records that were
    there. *)
Theorem create_remittance_appends (now_ref now_created : datetime) (db db' : Store)
    (body : RemittanceCreate.t) (resp : Enriched) :
  consistent db ->
  create_remittance now_ref now_created db body = Return db' resp ->
  dict_get (remittances_db db) (Remittance.id (remittance resp)) = None
  /\ values (remittances_db db') = values (remittances_db db) ++ [remittance resp]
  /\ (forall k, List.In k (keys (remittances_db db)) -> k < Remittance.id (remittance resp)).
Proof.
  intros Hdb. unfold create_remittance.
  destruct (dict_get (corridors_db db) _) as [c|]; [|discriminate].
  destruct (negb (Corridor.is_active c)); [discriminate|]. simpl.
  destruct (_calculate_fee _ _ _ _); [|discriminate].
  intros H. injection H as <- <-. simpl.
  pose proof (counter_is_fresh _ _ _ (remittance_ids db Hdb)) as Hfresh.
  split; [exact Hfresh|]. split.
  - rewrite (dict_set_fresh _ _ _ Hfresh). unfold values. now rewrite List.map_app.
  - intros k Hk. unfold keys in Hk. apply List.in_map_iff in Hk.
    destruct Hk as (kv & <- & Hin).
    pose proof (remittance_ids db Hdb) as Hri. rewrite List.Forall_forall in Hri.
    destruct (Hri kv Hin). lia.
Qed.

Lemma create_remittance_appends_seed :
  exists db' resp,
    create_remittance (at_ 2024 4 1 12 0 0) (at_ 2024 4 1 12 0 1) seed (request_for 2)
    = Return db' resp
    /\ dict_get seed_remittances (Remittance.id (remittance resp)) = None
    /\ values (remittances_db db') = values seed_remittances ++ [remittance resp]
    /\ (forall k, List.In k (keys seed_remittances) -> k < Remittance.id (remittance resp)).
Proof.
  eexists. eexists. split; [reflexivity|].
  exact (create_remittance_appends (at_ 2024 4 1 12 0 0) (at_ 2024 4 1 12 0 1) seed _
           (request_for 2) _ seed_consistent eq_refl).
Defined.

(** * Enrichment *)

Lemma sort_stable_perm {A : Type} (lt : A -> A -> bool) (l : list A) :
  Permutation (sort_stable lt l) l.
Proof.
  unfold sort_stable.
  assert (H : forall acc,
             Permutation (List.fold_left (fun acc x => insert_sorted lt x acc) l acc)
               (acc ++ l)).
  { induction l as [|x l IH]; intros acc; simpl.
    - now rewrite List.app_nil_r.
    - rewrite IH, insert_sorted_perm. apply Permutation_middle. }
  exact (H []).
Qed.

Lemma list_sort_perm {A : Type} (lt : A -> A -> bool) (reverse : bool) (l : list A) :
  Permutation (list_sort lt reverse l) l.
Proof.
  unfold list_sort. destruct reverse; [|apply sort_stable_perm].
  rewrite <- Permutation_rev, sort_stable_perm. symmetry. apply Permutation_rev.
Qed.

Lemma In_slice {A : Type} (l : list A) (start stop : Z) (x : A) :
  List.In x (slice l start stop) -> List.In x l.
Proof.
  unfold slice. intros H.
  set (a := Z.to_nat _ ) in H. set (l' := List.skipn _ l) in H.
  assert (H1 : List.In x l').
  { rewrite <- (List.firstn_skipn a l'). apply List.in_or_app. now left. }
  unfold l' in H1. set (b := Z.to_nat _) in H1.
  rewrite <- (List.firstn_skipn b l). apply List.in_or_app. now right.
Qed.

Lemma In_values {V : Type} (d : dict V) (v : V) :
  List.In v (values d) <-> exists k, List.In (k, v) d.
Proof.
  unfold values. rewrite List.in_map_iff. split.
  - intros ([k v'] & E & Hin). simpl in E. subst. now exists k.
  - intros (k & Hin). now exists (k, v).
Qed.

Lemma enrich_with_its_corridor (db : Store) (r : Remittance.t) :
  consistent db -> List.In r (values (remittances_db db)) ->
  with_its_corridor (_enrich_with_corridor db r).
Proof.
  intros Hdb Hin. apply In_values in Hin. destruct Hin as (k & Hin).
  pose proof (corridors_exist db Hdb) as Hce. rewrite List.Forall_forall in Hce.
  specialize (Hce _ Hin). simpl in Hce. unfold with_its_corridor. simpl.
  destruct (dict_get (corridors_db db) (Remittance.corridor_id r)) as [c|] eqn:E;
    [|congruence].
  exists c. split; [reflexivity|].
  pose proof (corridor_ids db Hdb) as Hci. rewrite List.Forall_forall in Hci.
  exact (proj1 (Hci _ (dict_get_In _ _ _ E))).
Qed.

(** X12. On a consistent store no response carries a missing corridor: the
    detail of a remittance, every item of the listing and every item of the
    search hold the corridor their remittance names. *)
Theorem responses_carry_corridor {L : Lowercase} (db : Store) :
  consistent db ->
  (forall remittance_id r,
     dict_get (remittances_db db) remittance_id = Some r ->
     exists e, get_remittance remittance_id db = Return db e
               /\ remittance e = r /\ with_its_corridor e)
  /\ (forall pagination filters sorting db' resp,
        list_remittances db pagination filters sorting = Return db' resp ->
        List.Forall with_its_corridor (PaginatedResponse.items resp))
  /\ (forall q page per_page db' resp,
        search_remittances db q page per_page = Return db' resp ->
        List.Forall with_its_corridor (PaginatedResponse.items (result_page resp))).
Proof.
  intros Hdb. split; [|split].
  - intros remittance_id r Hr. unfold get_remittance. rewrite Hr.
    eexists. split; [reflexivity|]. split; [reflexivity|].
    apply enrich_with_its_corridor; [exact Hdb|].
    apply In_values. exists remittance_id. now apply dict_get_In.
  - intros pagination filters sorting db' resp. unfold list_remittances. cbv zeta.
    destruct (if 0 <? _ then _ else _); [|discriminate].
    intros H. injection H as _ <-. simpl.
    apply List.Forall_forall. intros e He. apply List.in_map_iff in He.
    destruct He as (r & <- & Hin). apply enrich_with_its_corridor; [exact Hdb|].
    apply In_slice in Hin.
    apply (Permutation_in _ (list_sort_perm _ _ _)) in Hin.
    rewrite apply_filters_filter in Hin. apply List.filter_In in Hin. tauto.
  - intros q page per_page db' resp. unfold search_remittances.
    destruct (len q <? 2); [discriminate|]. cbv zeta.
    destruct (if 0 <? _ then _ else _); [|discriminate].
    intros H. injection H as _ <-. simpl.
    apply List.Forall_forall. intros e He. apply In_slice in He.
    rewrite search_results_filter in He. apply List.in_map_iff in He.
    destruct He as (r & <- & Hin). apply enrich_with_its_corridor; [exact Hdb|].
    apply List.filter_In in Hin. tauto.
Qed.

Lemma responses_carry_corridor_seed :
  (exists e, get_remittance 3 seed = Return seed e /\ with_its_corridor e)
  /\ (forall pagination filters sorting db' resp,
        list_remittances (L := Latin1) seed pagination filters sorting = Return db' resp ->
        List.Forall with_its_corridor (PaginatedResponse.items resp)).
Proof.
  destruct (responses_carry_corridor (L := Latin1) seed seed_consistent) as (Hg & Hl & _).
  split; [|exact Hl].
  destruct (Hg 3 _ eq_refl) as (e & H & _ & Hw). exists e. split; [exact H | exact Hw].
Defined.

(** * Walking the pages *)

Lemma firstn_add {A : Type} (a b : nat) (l : list A) :
  List.firstn (a + b) l = List.firstn a l ++ List.firstn b (List.skipn a l).
Proof.
  revert l. induction a as [|a IH]; intros l; simpl; [reflexivity|].
  destruct l as [|x l]; simpl; [now destruct b|]. now rewrite IH.
Qed.

Lemma slice_window {A : Type} (l : list A) (a b : Z) :
  0 <= a -> 0 <= b ->
  slice l a (a + b) = List.firstn (Z.to_nat b) (List.skipn (Z.to_nat a) l).
Proof.
  intros Ha Hb. unfold slice, len.
  assert (E1 : (a <? 0) = false) by (apply Z.ltb_ge; lia).
  assert (E2 : (a + b <? 0) = false) by (apply Z.ltb_ge; lia).
  rewrite E1, E2.
  destruct (Z_lt_le_dec a (Z.of_nat (List.length l))) as [Hlt | Hge].
  - rewrite (Z.min_l a) by lia.
    destruct (Z_le_gt_dec (a + b) (Z.of_nat (List.length l))) as [Hle | Hgt].
    + rewrite Z.min_l by lia. f_equal. lia.
    + rewrite Z.min_r by lia.
      rewrite !List.firstn_all2; try reflexivity; rewrite List.length_skipn; lia.
  - rewrite !List.skipn_all2 by lia. now rewrite !List.firstn_nil.
Qed.

Lemma windows_cover {A : Type} (l : list A) (per_page : Z) (n : nat) :
  0 < per_page ->
  List.flat_map
    (fun k => slice l ((k - 1) * per_page) ((k - 1) * per_page + per_page))
    (List.map Z.of_nat (List.seq 1 n))
  = List.firstn (n * Z.to_nat per_page) l.
Proof.
  intros Hp. induction n as [|n IH]; [reflexivity|].
  rewrite List.seq_S, List.map_app, List.flat_map_app, IH.
  cbn [List.map List.flat_map]. rewrite List.app_nil_r, slice_window by nia.
  replace (S n * Z.to_nat per_page)%nat
    with (n * Z.to_nat per_page + Z.to_nat per_page)%nat by lia.
  rewrite firstn_add. f_equal. f_equal. f_equal. nia.
Qed.

Lemma flat_map_ext_in {A B : Type} (f g : A -> list B) (l : list A) :
  (forall a, List.In a l -> f a = g a) -> List.flat_map f l = List.flat_map g l.
Proof.
  induction l as [|x l IH]; intros H; simpl; [reflexivity|].
  rewrite (H x (or_introl eq_refl)), IH; [reflexivity|].
  intros a Ha. apply H. now right.
Qed.

Lemma flat_map_map {A B C : Type} (g : B -> C) (f : A -> list B) (l : list A) :
  List.flat_map (fun k => List.map g (f k)) l = List.map g (List.flat_map f l).
Proof.
  induction l as [|x l IH]; simpl; [reflexivity|]. now rewrite IH, List.map_app.
Qed.

Section Pages.

Context {L : Lowercase}.

Lemma list_remittances_items (db : Store) (filters : RemittanceFilters.t)
    (sorting : SortingParams.t) (per_page page : Z) :
  1 <= per_page <= 50 -> 1 <= page ->
  listing_items db filters sorting per_page page
  = List.map (_enrich_with_corridor db)
      (slice (listing_sorted db filters sorting)
         ((page - 1) * per_page) ((page - 1) * per_page + per_page)).
Proof.
  intros [Hlo Hhi] Hpage. unfold listing_items, PaginationParams.__init__.
  assert (Hb : (1 <=? page) && (1 <=? per_page) && (per_page <=? 50) = true).
  { rewrite !andb_true_iff, !Z.leb_le. lia. }
  rewrite Hb. unfold list_remittances, floordiv. cbv zeta. simpl.
  assert (Hz : (per_page =? 0) = false) by (apply Z.eqb_neq; lia).
  rewrite Hz. now destruct (0 <? _).
Qed.

(** X13. Walking the pages loses nothing and repeats nothing: for a page
    size in 1..50, the items of pages 1 to [pages], one after the other, are
    the whole filtered and sorted listing. *)
Theorem pages_cover_listing (db : Store) (filters : RemittanceFilters.t)
    (sorting : SortingParams.t) (per_page : Z) :
  1 <= per_page <= 50 ->
  exists pagination resp,
    PaginationParams.__init__ 1 per_page = Val pagination
    /\ list_remittances db pagination filters sorting = Return db resp
    /\ List.flat_map (listing_items db filters sorting per_page)
         (page_numbers (PaginatedResponse.pages resp))
       = List.map (_enrich_with_corridor db) (listing_sorted db filters sorting).
Proof.
  intros Hpp.
  assert (Hb : (1 <=? 1) && (1 <=? per_page) && (per_page <=? 50) = true).
  { rewrite !andb_true_iff, !Z.leb_le. lia. }
  unfold PaginationParams.__init__. rewrite Hb.
  exists (PaginationParams.mk 1 per_page ((1 - 1) * per_page)).
  unfold list_remittances, floordiv. cbv zeta.
  cbn [PaginationParams.per_page PaginationParams.page PaginationParams.offset].
  assert (Hz : (per_page =? 0) = false) by (apply Z.eqb_neq; lia).
  rewrite Hz. fold (listing_sorted db filters sorting).
  set (total := len (listing_sorted db filters sorting)).
  assert (Hnn : 0 <= total) by (unfold total, len; lia).
  assert (Hlen : len (listing_sorted db filters sorting) = total) by reflexivity.
  set (pages := if 0 <? total then (total + per_page - 1) / per_page else 1).
  assert (Hcover : total <= pages * per_page).
  { unfold pages. destruct (0 <? total) eqn:E.
    - rewrite pages_ceil by lia.
      pose proof (ceil_div_least total per_page ltac:(lia)). lia.
    - apply Z.ltb_ge in E. lia. }
  exists (PaginatedResponse.mk
            (List.map (_enrich_with_corridor db)
               (slice (listing_sorted db filters sorting)
                  ((1 - 1) * per_page) ((1 - 1) * per_page + per_page)))
            total 1 per_page pages (1 <? pages) (1 <? 1)).
  split; [reflexivity|]. split.
  { unfold pages. now destruct (0 <? total). }
  cbn [PaginatedResponse.pages].
  unfold page_numbers.
  rewrite (flat_map_ext_in
             (listing_items db filters sorting per_page)
             (fun k => List.map (_enrich_with_corridor db)
                         (slice (listing_sorted db filters sorting)
                            ((k - 1) * per_page) ((k - 1) * per_page + per_page)))).
  - rewrite flat_map_map, windows_cover by lia. f_equal.
    apply List.firstn_all2. unfold len in Hlen. nia.
  - intros k Hk. apply list_remittances_items; [exact Hpp|].
    apply List.in_map_iff in Hk. destruct Hk as (i & <- & Hi).
    apply List.in_seq in Hi. lia.
Qed.

End Pages.

Lemma pages_cover_listing_seed :
  exists pagination resp,
    PaginationParams.__init__ 1 3 = Val pagination
    /\ list_remittances (L := Latin1) seed pagination RemittanceFilters.none
         SortingParams.default = Return seed resp
    /\ PaginatedResponse.pages resp = 3
    /\ List.flat_map
         (listing_items (L := Latin1) seed RemittanceFilters.none SortingParams.default 3)
         [1; 2; 3]
       = List.map (_enrich_with_corridor seed)
           (listing_sorted (L := Latin1) seed RemittanceFilters.none SortingParams.default).
Proof.
  destruct (pages_cover_listing (L := Latin1) seed RemittanceFilters.none
              SortingParams.default 3 ltac:(lia))
    as (pagination & resp & Hp & Hl & Hc).
  exists pagination, resp. split; [exact Hp|]. split; [exact Hl|].
  injection Hp as <-. injection Hl as <-. split; [reflexivity | exact Hc].
Defined.

(** * A page is in sort order *)

Lemma StronglySorted_skipn {A : Type} (R : A -> A -> Prop) (n : nat) (l : list A) :
  StronglySorted R l -> StronglySorted R (List.skipn n l).
Proof.
  revert l. induction n as [|n IH]; intros l H; simpl; [exact H|].
  destruct l as [|x l]; [constructor|]. apply IH. now inversion H.
Qed.

Lemma StronglySorted_firstn {A : Type} (R : A -> A -> Prop) (n : nat) (l : list A) :
  StronglySorted R l -> StronglySorted R (List.firstn n l).
Proof.
  revert l. induction n as [|n IH]; intros l H; simpl; [constructor|].
  destruct l as [|x l]; [constructor|]. inversion H as [|? ? Hl Hx]; subst.
  constructor; [now apply IH|].
  rewrite List.Forall_forall in *. intros y Hy. apply Hx.
  rewrite <- (List.firstn_skipn n l). apply List.in_or_app. now left.
Qed.

Lemma StronglySorted_slice {A : Type} (R : A -> A -> Prop) (l : list A) (start stop : Z) :
  StronglySorted R l -> StronglySorted R (slice l start stop).
Proof.
  intros H. unfold slice. now apply StronglySorted_firstn, StronglySorted_skipn.
Qed.

Lemma list_sort_sorted {A : Type} (lt : A -> A -> bool) (reverse : bool) (l : list A) :
  strict_weak_order lt ->
  if reverse then descending lt (list_sort lt reverse l)
  else ascending lt (list_sort lt reverse l).
Proof.
  intros Hswo. unfold list_sort, sort_stable. destruct reverse.
  - apply ascending_rev.
    exact (proj1 (proj2 (fold_insert_spec lt Hswo (List.rev l) [] (SSorted_nil _)))).
  - exact (proj1 (proj2 (fold_insert_spec lt Hswo l [] (SSorted_nil _)))).
Qed.

(** X14. When the sort key is compared by a strict weak order, as
    [created_at] and [sender_name] are, the items of every page of the
    listing are in the order asked for: ascending, or descending. *)
Theorem page_in_sort_order {L : Lowercase} (db db' : Store)
    (pagination : PaginationParams.t) (filters : RemittanceFilters.t)
    (sorting : SortingParams.t) (resp : PaginatedResponse.t) :
  strict_weak_order (sort_key_ltb (SortingParams.sort_by sorting)) ->
  list_remittances db pagination filters sorting = Return db' resp ->
  match SortingParams.order sorting with
  | asc =>
      ascending (sort_key_ltb (SortingParams.sort_by sorting))
        (List.map remittance (PaginatedResponse.items resp))
  | desc =>
      descending (sort_key_ltb (SortingParams.sort_by sorting))
        (List.map remittance (PaginatedResponse.items resp))
  end.
Proof.
  intros Hswo. unfold list_remittances. cbv zeta.
  destruct (if 0 <? _ then _ else _); [|discriminate].
  intros H. injection H as _ <-. cbn [PaginatedResponse.items].
  rewrite List.map_map. cbn [remittance _enrich_with_corridor]. rewrite List.map_id.
  pose proof (list_sort_sorted (sort_key_ltb (SortingParams.sort_by sorting))
                (match SortingParams.order sorting with desc => true | asc => false end)
                (_apply_filters (values (remittances_db db)) filters) Hswo) as Hs.
  destruct (SortingParams.order sorting); now apply StronglySorted_slice.
Qed.

Lemma page_in_sort_order_seed :
  exists resp,
    list_remittances (L := Latin1) seed (PaginationParams.mk 2 3 3) RemittanceFilters.none
      SortingParams.default = Return seed resp
    /\ len (PaginatedResponse.items resp) = 3
    /\ descending (sort_key_ltb by_created_at)
         (List.map remittance (PaginatedResponse.items resp)).
Proof.
  eexists. split; [reflexivity|]. split; [reflexivity|].
  exact (page_in_sort_order (L := Latin1) seed seed (PaginationParams.mk 2 3 3)
           RemittanceFilters.none SortingParams.default _
           (sort_key_order by_created_at (or_introl eq_refl)) eq_refl).
Defined.

(** * The remittances of a corridor *)

(** X15. For an existing corridor and parameters inside the declared
    bounds, the listing of its remittances returns that corridor, items that
    are stored remittances of that corridor, and the item count of the page;
    the corridor can be deleted exactly when the listing's total is 0, and the
    deletion is refused exactly when the total is positive. *)
Theorem corridor_remittances_and_deletion (db : Store) (corridor_id page per_page : Z)
    (c : Corridor.t) :
  0 < corridor_id -> 1 <= page -> 1 <= per_page <= 50 ->
  dict_get (corridors_db db) corridor_id = Some c ->
  exists resp,
    get_corridor_remittances corridor_id page per_page db = Return db resp
    /\ of_corridor resp = c
    /\ List.Forall
         (fun r => List.In r (values (remittances_db db))
                   /\ Remittance.corridor_id r = corridor_id)
         (cr_items resp)
    /\ len (cr_items resp)
       = Z.min per_page (Z.max 0 (cr_total resp - (page - 1) * per_page))
    /\ (cr_total resp = 0 <-> exists db', delete_corridor corridor_id db = Return db' tt)
    /\ (0 < cr_total resp
        <-> delete_corridor corridor_id db
            = Raise db (HTTPException 400 corredor_con_remesas)).
Proof.
  intros Hid Hpage [Hlo Hhi] Hc. unfold get_corridor_remittances, delete_corridor.
  assert (Hb : (0 <? corridor_id) && (1 <=? page) && (1 <=? per_page)
               && (per_page <=? 50) = true).
  { rewrite !andb_true_iff, !Z.leb_le, Z.ltb_lt. lia. }
  rewrite Hb, Hc. cbv zeta. unfold floordiv.
  assert (Hz : (per_page =? 0) = false) by (apply Z.eqb_neq; lia).
  rewrite Hz.
  set (mine := List.filter (fun r => Remittance.corridor_id r =? corridor_id)
                 (values (remittances_db db))).
  assert (Hex : List.existsb (fun r => Remittance.corridor_id r =? corridor_id)
                  (values (remittances_db db)) = (0 <? len mine)).
  { unfold mine, len. induction (values (remittances_db db)) as [|r l IH]; simpl;
      [reflexivity|].
    destruct (Remittance.corridor_id r =? corridor_id); simpl; [|exact IH].
    symmetry. apply Z.ltb_lt. lia. }
  rewrite Hex.
  assert (Hnn : 0 <= len mine) by (unfold len; lia).
  assert (Hstart : 0 <= (page - 1) * per_page) by nia.
  assert (Hitems : forall s n,
             List.Forall
               (fun r => List.In r (values (remittances_db db))
                         /\ Remittance.corridor_id r = corridor_id)
               (slice mine s n)).
  { intros s n. apply List.Forall_forall. intros r Hr. apply In_slice in Hr.
    unfold mine in Hr. apply List.filter_In in Hr. now rewrite Z.eqb_eq in Hr. }
  destruct (0 <? len mine) eqn:Hpos; eexists; (split; [reflexivity|]);
    cbn [of_corridor cr_items cr_total]; (split; [reflexivity|]);
    (split; [apply Hitems|]); (split; [apply slice_length; lia|]).
  - apply Z.ltb_lt in Hpos. split; split; intros H; try reflexivity; try lia.
    destruct H as (db' & H). discriminate.
  - apply Z.ltb_ge in Hpos. split; split; intros H; try lia; try discriminate.
    eexists. reflexivity.
Qed.

Lemma corridor_remittances_and_deletion_seed :
  exists resp,
    get_corridor_remittances 1 1 2 seed = Return seed resp
    /\ cr_total resp = 3
    /\ len (cr_items resp) = 2
    /\ delete_corridor 1 seed = Raise seed (HTTPException 400 corredor_con_remesas).
Proof.
  destruct (corridor_remittances_and_deletion seed 1 1 2 _ ltac:(lia) ltac:(lia)
              ltac:(lia) eq_refl)
    as (resp & H & _ & _ & Hlen & _ & Hdel).
  exists resp. split; [exact H|].
  injection H as <-.
  split; [reflexivity|]. split; [reflexivity|]. apply Hdel. reflexivity.
Defined.

(** * What is listed can be fetched *)

(** X16. On a consistent store whatever a listing shows can be fetched by
    its identifier, and the fetch returns the same thing: a corridor of
    [list_corridors] through [get_corridor], an item of the listing or of the
    search through [get_remittance]. *)
Theorem listed_can_be_fetched {L : Lowercase} (db : Store) :
  consistent db ->
  (forall is_active db' cs c,
     list_corridors is_active db = Return db' cs -> List.In c cs ->
     get_corridor (Corridor.id c) db = Return db c)
  /\ (forall pagination filters sorting db' resp e,
        list_remittances db pagination filters sorting = Return db' resp ->
        List.In e (PaginatedResponse.items resp) ->
        get_remittance (Remittance.id (remittance e)) db = Return db e)
  /\ (forall q page per_page db' resp e,
        search_remittances db q page per_page = Return db' resp ->
        List.In e (PaginatedResponse.items (result_page resp)) ->
        get_remittance (Remittance.id (remittance e)) db = Return db e).
Proof.
  intros Hdb.
  assert (Hget : forall r, List.In r (values (remittances_db db)) ->
                   get_remittance (Remittance.id r) db
                   = Return db (_enrich_with_corridor db r)).
  { intros r Hr. apply In_values in Hr. destruct Hr as (k & Hin).
    pose proof (remittance_ids db Hdb) as Hri. rewrite List.Forall_forall in Hri.
    destruct (Hri _ Hin) as [Hid _]. simpl in Hid. rewrite Hid.
    unfold get_remittance.
    now rewrite (In_dict_get _ _ _ (remittance_keys db Hdb) Hin). }
  split; [|split].
  - intros is_active db' cs c H Hc. unfold list_corridors in H. injection H as _ <-.
    assert (Hin : List.In c (values (corridors_db db))).
    { destruct is_active; [apply List.filter_In in Hc; tauto | exact Hc]. }
    apply In_values in Hin. destruct Hin as (k & Hin).
    pose proof (corridor_ids db Hdb) as Hci. rewrite List.Forall_forall in Hci.
    destruct (Hci _ Hin) as [Hid _]. simpl in Hid. rewrite Hid.
    unfold get_corridor. now rewrite (In_dict_get _ _ _ (corridor_keys db Hdb) Hin).
  - intros pagination filters sorting db' resp e. unfold list_remittances. cbv zeta.
    destruct (if 0 <? _ then _ else _); [|discriminate].
    intros H. injection H as _ <-. cbn [PaginatedResponse.items]. intros He.
    apply List.in_map_iff in He. destruct He as (r & <- & Hin). apply Hget.
    apply In_slice in Hin. apply (Permutation_in _ (list_sort_perm _ _ _)) in Hin.
    rewrite apply_filters_filter in Hin. apply List.filter_In in Hin. tauto.
  - intros q page per_page db' resp e. unfold search_remittances.
    destruct (len q <? 2); [discriminate|]. cbv zeta.
    destruct (if 0 <? _ then _ else _); [|discriminate].
    intros H. injection H as _ <-. cbn [result_page PaginatedResponse.items]. intros He.
    apply In_slice in He. rewrite search_results_filter in He.
    apply List.in_map_iff in He. destruct He as (r & <- & Hin). apply Hget.
    apply List.filter_In in Hin. tauto.
Qed.

Lemma listed_can_be_fetched_seed :
  (forall is_active db' cs c,
     list_corridors is_active seed = Return db' cs -> List.In c cs ->
     get_corridor (Corridor.id c) seed = Return seed c)
  /\ (forall pagination filters sorting db' resp e,
        list_remittances (L := Latin1) seed pagination filters sorting = Return db' resp ->
        List.In e (PaginatedResponse.items resp) ->
        get_remittance (Remittance.id (remittance e)) seed = Return seed e).
Proof.
  destruct (listed_can_be_fetched (L := Latin1) seed seed_consistent) as (Hc & Hl & _).
  split; [exact Hc | exact Hl].
Defined.

(** * The reference code *)

Lemma uint_str_digits (d : Decimal.uint) : List.Forall is_digit (uint_str d).
Proof.
  induction d; simpl; constructor; try assumption; unfold is_digit; lia.
Qed.

Lemma digits_value_cons (c : N) (s : str) (acc : Z) :
  is_digit c -> digits_value (c :: s) acc = digits_value s (acc * 10 + (Z.of_N c - 48)).
Proof.
  unfold is_digit. intros [H1 H2]. cbn [digits_value].
  apply N.leb_le in H1, H2. now rewrite H1, H2.
Qed.

Lemma digits_value_acc (d : Decimal.uint) (acc : positive) :
  digits_value (uint_str d) (Zpos acc) = Some (Zpos (Pos.of_uint_acc d acc)).
Proof.
  revert acc. induction d; intros acc; cbn [uint_str Pos.of_uint_acc];
    [reflexivity|..];
    rewrite digits_value_cons by (unfold is_digit; lia);
    rewrite <- IHd; f_equal; lia.
Qed.

Lemma digits_value_uint (d : Decimal.uint) :
  digits_value (uint_str d) 0 = Some (Z.of_uint d).
Proof.
  unfold Z.of_uint. induction d; cbn [uint_str Pos.of_uint];
    [reflexivity|..];
    rewrite digits_value_cons by (unfold is_digit; lia);
    [exact IHd|..];
    cbn [Z.of_N]; rewrite <- digits_value_acc; f_equal.
Qed.

Lemma str_of_int_digits (n : Z) :
  0 <= n ->
  List.Forall is_digit (str_of_int n) /\ digits_value (str_of_int n) 0 = Some n.
Proof.
  intros Hn. unfold str_of_int. pose proof (DecimalZ.of_to n) as H.
  destruct n as [|p|p]; try lia; cbn [Z.to_int] in *.
  - split; [repeat constructor; unfold is_digit; lia | reflexivity].
  - split; [apply uint_str_digits|]. rewrite digits_value_uint. now f_equal.
Qed.

Lemma digits_value_zeros (k : nat) (s : str) :
  digits_value (List.repeat 48%N k ++ s) 0 = digits_value s 0.
Proof.
  induction k as [|k IH]; [reflexivity|].
  cbn [List.repeat List.app]. rewrite digits_value_cons by (unfold is_digit; lia).
  exact IH.
Qed.

Lemma zfill_digits (s : str) (width : nat) :
  List.Forall is_digit s ->
  List.Forall is_digit (zfill s width)
  /\ digits_value (zfill s width) 0 = digits_value s 0.
Proof.
  intros Hs. unfold zfill.
  assert (Hz : forall k, List.Forall is_digit (List.repeat 48%N k)).
  { intros k. apply List.Forall_forall. intros c Hc. apply List.repeat_spec in Hc.
    subst c. unfold is_digit. lia. }
  destruct s as [|c s'].
  - split; [apply Hz|]. rewrite <- (List.app_nil_r (List.repeat _ _)).
    apply digits_value_zeros.
  - assert (Hc : is_digit c) by now inversion Hs.
    assert (E : N.eqb c 45 || N.eqb c 43 = false).
    { unfold is_digit in Hc. apply orb_false_iff. split; apply N.eqb_neq; lia. }
    rewrite E. split; [|apply digits_value_zeros].
    apply List.Forall_app. split; [apply Hz | exact Hs].
Qed.

Lemma after_last_dash_app (a d : str) :
  List.Forall is_digit d -> after_last_dash (a ++ 45%N :: d) = d.
Proof.
  intros Hd. unfold after_last_dash. rewrite List.fold_left_app.
  cbn [List.fold_left]. rewrite N.eqb_refl.
  assert (H : forall acc, List.fold_left
                (fun acc c => if N.eqb c 45 then [] else acc ++ [c]) d acc = acc ++ d).
  { induction Hd as [|c d Hc Hd IH]; intros acc; cbn [List.fold_left].
    - now rewrite List.app_nil_r.
    - assert (E : N.eqb c 45 = false) by (unfold is_digit in Hc; apply N.eqb_neq; lia).
      rewrite E, IH, <- List.app_assoc. reflexivity. }
  apply H.
Qed.

Lemma reference_id_generated (now : datetime) (remittance_id : Z) :
  0 <= remittance_id ->
  reference_id (_generate_reference_code now remittance_id) = Some remittance_id.
Proof.
  intros Hn. unfold reference_id, _generate_reference_code.
  destruct (str_of_int_digits remittance_id Hn) as [Hd Hv].
  destruct (zfill_digits _ 3 Hd) as [Hzd Hzv].
  change (u "-"%string) with [45%N]. rewrite List.app_assoc. cbn [List.app].
  rewrite after_last_dash_app by exact Hzd. now rewrite Hzv.
Qed.

(** X17. The reference code names its remittance: the digits after the
    last dash of a generated code read back as the identifier, so two
    generated codes are equal only for equal identifiers, whatever the two
    dates. *)
Theorem reference_code_names_id (now : datetime) (remittance_id : Z) :
  0 <= remittance_id ->
  reference_id (_generate_reference_code now remittance_id) = Some remittance_id
  /\ (forall now' remittance_id',
        0 <= remittance_id' ->
        _generate_reference_code now remittance_id
        = _generate_reference_code now' remittance_id' ->
        remittance_id = remittance_id').
Proof.
  intros Hn. split; [now apply reference_id_generated|].
  intros now' n' Hn' E. apply (f_equal reference_id) in E.
  rewrite !reference_id_generated in E by assumption. now injection E.
Qed.

Lemma reference_code_names_id_seed :
  reference_id (u "REM-20240401-1204") = Some 1204
  /\ _generate_reference_code (at_ 2024 4 1 12 0 0) 9
     <> _generate_reference_code (at_ 2024 4 1 12 0 0) 10.
Proof.
  split.
  - exact (proj1 (reference_code_names_id (at_ 2024 4 1 12 0 0) 1204 ltac:(lia))).
  - intros E.
    pose proof (proj2 (reference_code_names_id (at_ 2024 4 1 12 0 0) 9 ltac:(lia))
                  (at_ 2024 4 1 12 0 0) 10 ltac:(lia) E) as H.
    discriminate H.
Defined.

(** * The statistics *)

Lemma RemittanceStatus_eqb_eq (a b : RemittanceStatus) :
  RemittanceStatus_eqb a b = true <-> a = b.
Proof. destruct a, b; simpl; split; congruence. Qed.

Section Assoc.

Context {K V : Type} (eqb : K -> K -> bool).
Hypothesis eqb_eq : forall a b, eqb a b = true <-> a = b.

Lemma eqb_same (a : K) : eqb a a = true.
Proof. now apply eqb_eq. Qed.

Lemma assoc_get_set (d : list (K * V)) (k k' : K) (v : V) :
  assoc_get eqb (assoc_set eqb d k v) k'
  = if eqb k k' then Some v else assoc_get eqb d k'.
Proof.
  induction d as [|[k0 v0] d IH]; simpl.
  - reflexivity.
  - destruct (eqb k0 k) eqn:E; simpl.
    + apply eqb_eq in E. subst k0. now destruct (eqb k k').
    + rewrite IH. destruct (eqb k0 k') eqn:E'; [|reflexivity].
      apply eqb_eq in E'. destruct (eqb k k') eqn:E''; [|reflexivity].
      apply eqb_eq in E''. subst. rewrite eqb_same in E. discriminate.
Qed.

Lemma assoc_get_absent (d : list (K * V)) (k : K) :
  assoc_get eqb d k = None <-> ~ List.In k (List.map fst d).
Proof.
  induction d as [|[k0 v0] d IH]; simpl; [tauto|].
  destruct (eqb k0 k) eqn:E.
  - apply eqb_eq in E. split; [discriminate | intros H; exfalso; apply H; now left].
  - rewrite IH. split; [intros H [H' | H']; [|tauto] | tauto].
    subst k0. rewrite eqb_same in E. discriminate.
Qed.

Lemma assoc_set_absent (d : list (K * V)) (k : K) (v : V) :
  assoc_get eqb d k = None -> assoc_set eqb d k v = d ++ [(k, v)].
Proof.
  induction d as [|[k0 v0] d IH]; simpl; [reflexivity|].
  destruct (eqb k0 k); [discriminate|]. intros H. now rewrite IH.
Qed.

(** Filling a dictionary from records with distinct keys gives one entry per
    record, in order. *)
Lemma fold_assoc_set_distinct {A : Type} (key : A -> K) (f : A -> V) (l : list A)
    (acc : list (K * V)) :
  NoDup (List.map fst acc ++ List.map key l) ->
  List.fold_left (fun d a => assoc_set eqb d (key a) (f a)) l acc
  = acc ++ List.map (fun a => (key a, f a)) l.
Proof.
  revert acc. induction l as [|a l IH]; intros acc Hnd; simpl.
  - now rewrite List.app_nil_r.
  - assert (Habs : assoc_get eqb acc (key a) = None).
    { apply assoc_get_absent. intros Hin.
      apply List.NoDup_remove_2 in Hnd. apply Hnd.
      apply List.in_or_app. now left. }
    rewrite (assoc_set_absent _ _ _ Habs), IH.
    + now rewrite <- List.app_assoc.
    + rewrite List.map_app, <- List.app_assoc. exact Hnd.
Qed.

End Assoc.

Lemma total_app (a b : list Z) : total (a ++ b) = total a + total b.
Proof. unfold total. induction a as [|x a IH]; simpl; lia. Qed.

Lemma total_map_add {A : Type} (f g : A -> Z) (l : list A) :
  total (List.map (fun a => f a + g a) l) = total (List.map f l) + total (List.map g l).
Proof. unfold total. induction l as [|x l IH]; simpl; lia. Qed.

Lemma count_app {A : Type} (p : A -> bool) (a b : list A) :
  count p (a ++ b) = count p a + count p b.
Proof. unfold count, len. rewrite List.filter_app, List.length_app. lia. Qed.

Lemma count_single {A : Type} (p : A -> bool) (x : A) :
  count p [x] = if p x then 1 else 0.
Proof. unfold count, len. simpl. now destruct (p x). Qed.

Lemma count_nonneg {A : Type} (p : A -> bool) (l : list A) : 0 <= count p l.
Proof. unfold count, len. lia. Qed.

(** One more record of status [st] raises the total of the counts by one. *)
Lemma total_counts_step (d : list (RemittanceStatus * Z)) (st : RemittanceStatus) :
  total (List.map snd
           (assoc_set RemittanceStatus_eqb d st
              (match assoc_get RemittanceStatus_eqb d st with
               | Some n => n
               | None => 0
               end + 1)))
  = total (List.map snd d) + 1.
Proof.
  induction d as [|[k v] d IH]; simpl; [reflexivity|].
  destruct (RemittanceStatus_eqb k st); simpl; [lia|].
  unfold total in *. simpl. rewrite IH. lia.
Qed.

Lemma count_statuses_spec (rs : list Remittance.t) :
  (forall s, assoc_get RemittanceStatus_eqb (count_statuses rs) s
             = if count (has_status s) rs =? 0 then None
               else Some (count (has_status s) rs))
  /\ total (List.map snd (count_statuses rs)) = len rs.
Proof.
  unfold count_statuses.
  assert (H : forall rs seen d,
             ((forall s, assoc_get RemittanceStatus_eqb d s
                         = if count (has_status s) seen =? 0 then None
                           else Some (count (has_status s) seen))
              /\ total (List.map snd d) = len seen) ->
             let d' :=
               List.fold_left
                 (fun status_count r =>
                    assoc_set RemittanceStatus_eqb status_count (Remittance.status r)
                      (match assoc_get RemittanceStatus_eqb status_count
                               (Remittance.status r) with
                       | Some n => n
                       | None => 0
                       end + 1))
                 rs d in
             (forall s, assoc_get RemittanceStatus_eqb d' s
                        = if count (has_status s) (seen ++ rs) =? 0 then None
                          else Some (count (has_status s) (seen ++ rs)))
             /\ total (List.map snd d') = len (seen ++ rs)).
  { clear rs. induction rs as [|r rs IH]; intros seen d [Hget Htot]; cbn [List.fold_left].
    - now rewrite List.app_nil_r.
    - replace (seen ++ r :: rs) with ((seen ++ [r]) ++ rs)
        by now rewrite <- List.app_assoc.
      apply IH. split.
      + intros s.
        rewrite (assoc_get_set _ RemittanceStatus_eqb_eq), count_app, count_single, !Hget.
        change (has_status s r) with (RemittanceStatus_eqb (Remittance.status r) s).
        pose proof (count_nonneg (has_status s) seen) as Hn.
        destruct (RemittanceStatus_eqb (Remittance.status r) s) eqn:E.
        * apply RemittanceStatus_eqb_eq in E. subst s.
          assert (E1 : (count (has_status (Remittance.status r)) seen + 1 =? 0) = false)
            by (apply Z.eqb_neq; lia).
          rewrite E1.
          destruct (count (has_status (Remittance.status r)) seen =? 0) eqn:E0;
            [|reflexivity].
          apply Z.eqb_eq in E0. now rewrite E0.
        * now rewrite Z.add_0_r.
      + rewrite total_counts_step, Htot. unfold len.
        rewrite List.length_app. simpl. lia. }
  apply (H rs [] []). split; [intros s; reflexivity | reflexivity].
Qed.

Lemma assoc_get_map {K V A : Type} (eqb : K -> K -> bool)
    (eqb_eq : forall a b, eqb a b = true <-> a = b)
    (key : A -> K) (f : A -> V) (l : list A) (a : A) :
  NoDup (List.map key l) -> List.In a l ->
  assoc_get eqb (List.map (fun a => (key a, f a)) l) (key a) = Some (f a).
Proof.
  induction l as [|x l IH]; simpl; [tauto|].
  intros Hnd [-> | Hin].
  - now rewrite (eqb_same eqb eqb_eq).
  - inversion Hnd as [|? ? Hnot Hnd']; subst.
    destruct (eqb (key x) (key a)) eqn:E; [|now apply IH].
    apply eqb_eq in E. exfalso. apply Hnot. rewrite E. now apply List.in_map.
Qed.

Lemma corridor_ids_are_keys (db : Store) :
  consistent db ->
  List.map Corridor.id (values (corridors_db db)) = keys (corridors_db db).
Proof.
  intros Hdb. pose proof (corridor_ids db Hdb) as H. unfold values, keys.
  rewrite List.map_map. induction H as [|kv d [Hid _] _ IH]; simpl; [reflexivity|].
  now rewrite Hid, IH.
Qed.

Lemma corridor_codes_distinct (db : Store) :
  consistent db -> NoDup (List.map Corridor.code (values (corridors_db db))).
Proof.
  intros Hdb. pose proof (corridor_keys db Hdb) as Hnd.
  pose proof (codes_unique db Hdb) as Hcu.
  induction (corridors_db db) as [|[k c] d IH]; simpl; [constructor|].
  inversion Hnd as [|? ? Hnot Hnd']; subst. constructor.
  - intros Hin. apply List.in_map_iff in Hin. destruct Hin as (c' & Hc & Hin).
    apply In_values in Hin. destruct Hin as (k' & Hin).
    assert (k' = k).
    { apply (Hcu k' c' k c); [now right | now left | exact Hc]. }
    subst k'. apply Hnot. change k with (fst (k, c')). now apply List.in_map.
  - apply IH; [exact Hnd'|]. intros k1 c1 k2 c2 H1 H2. apply Hcu; now right.
Qed.

(** Each record is counted under exactly one of a list of distinct keys that
    holds its own. *)
Lemma counts_by_key_add_up {A : Type} (key : A -> Z) (ks : list Z) (l : list A) :
  NoDup ks -> List.Forall (fun a => List.In (key a) ks) l ->
  total (List.map (fun k => count (fun a => key a =? k) l) ks) = len l.
Proof.
  intros Hnd Hl. induction Hl as [|a l Ha _ IH].
  - unfold count, len. simpl. induction ks as [|k ks IHk]; [reflexivity|].
    unfold total in *. simpl. rewrite IHk; [reflexivity | now inversion Hnd].
  - assert (Hone : total (List.map (fun k => if key a =? k then 1 else 0) ks) = 1).
    { clear IH. induction ks as [|k ks IHk]; [destruct Ha|].
      inversion Hnd as [|? ? Hnot Hnd']; subst. unfold total in *. simpl.
      destruct (key a =? k) eqn:E.
      - apply Z.eqb_eq in E. subst k.
        assert (Hz : List.fold_right Z.add 0
                       (List.map (fun k => if key a =? k then 1 else 0) ks) = 0).
        { clear - Hnot. induction ks as [|k ks IHk]; [reflexivity|]. simpl.
          destruct (key a =? k) eqn:E.
          - apply Z.eqb_eq in E. exfalso. apply Hnot. now left.
          - rewrite IHk; [reflexivity|]. intros H. apply Hnot. now right. }
        rewrite Hz. reflexivity.
      - rewrite IHk; [reflexivity | exact Hnd'|].
        destruct Ha as [Ha | Ha]; [|exact Ha].
        apply Z.eqb_neq in E. congruence. }
    replace (len (a :: l)) with (1 + len l) by (unfold len; cbn [List.length]; lia).
    rewrite <- IH, <- Hone, <- total_map_add. f_equal. apply List.map_ext.
    intros k. unfold count, len. simpl. destruct (key a =? k); cbn [List.length]; lia.
Qed.

Section StatisticsFacts.

Variable sum : list float -> float.

Lemma stats_entries (db : Store) :
  consistent db ->
  get_remittance_stats sum db
  = Return db
      (mkStats
         (Summary.mk (len (values (remittances_db db)))
            (rounded_sum sum (List.map Remittance.amount (values (remittances_db db))))
            (rounded_average sum
               (List.map Remittance.amount (values (remittances_db db))))
            (rounded_sum sum (List.map Remittance.fee (values (remittances_db db))))
            (len (List.filter Corridor.is_active (values (corridors_db db)))))
         (List.map (fun c => (Corridor.code c, corridor_stats sum db c))
            (values (corridors_db db)))).
Proof.
  intros Hdb. unfold get_remittance_stats. cbv zeta.
  rewrite (fold_assoc_set_distinct str_eqb str_eqb_eq Corridor.code
             (corridor_stats sum db)); [reflexivity|].
  simpl. now apply corridor_codes_distinct.
Qed.

(** X18. On a consistent store the statistics hold one entry per corridor,
    under its code. The entry counts the remittances that name the corridor;
    its histogram gives, for each status, the number of those with that status
    and has no entry for a status none has; the counts of the histogram add up
    to the entry's total; and for a corridor without remittances the three
    amounts are the integer 0 and the histogram is empty. *)
Theorem stats_per_corridor (db : Store) (c : Corridor.t) :
  consistent db -> List.In c (values (corridors_db db)) ->
  exists st cs,
    get_remittance_stats sum db = Return db st
    /\ assoc_get str_eqb (by_corridor st) (Corridor.code c) = Some cs
    /\ CorridorStats.corridor_id cs = Corridor.id c
    /\ CorridorStats.total_remittances cs
       = count (fun r => Remittance.corridor_id r =? Corridor.id c)
           (values (remittances_db db))
    /\ (forall s,
          assoc_get RemittanceStatus_eqb (CorridorStats.by_status cs) s
          = let n := count (fun r => (Remittance.corridor_id r =? Corridor.id c)
                                     && has_status s r)
                       (values (remittances_db db)) in
            if n =? 0 then None else Some n)
    /\ total (List.map snd (CorridorStats.by_status cs))
       = CorridorStats.total_remittances cs
    /\ (CorridorStats.total_remittances cs = 0 ->
        CorridorStats.total_amount cs = Int 0
        /\ CorridorStats.average_amount cs = Int 0
        /\ CorridorStats.total_fees cs = Int 0
        /\ CorridorStats.by_status cs = []).
Proof.
  intros Hdb Hc. rewrite (stats_entries db Hdb).
  do 2 eexists. split; [reflexivity|]. cbn [by_corridor]. split.
  { apply (assoc_get_map str_eqb str_eqb_eq Corridor.code); [|exact Hc].
    now apply corridor_codes_distinct. }
  unfold corridor_stats. cbv zeta.
  cbn [CorridorStats.corridor_id CorridorStats.total_remittances CorridorStats.by_status
       CorridorStats.total_amount CorridorStats.average_amount CorridorStats.total_fees].
  set (mine := List.filter (fun r => Remittance.corridor_id r =? Corridor.id c)
                 (values (remittances_db db))).
  destruct (count_statuses_spec mine) as [Hget Htot].
  split; [reflexivity|]. split; [reflexivity|]. split; [|split; [exact Htot|]].
  - intros s. rewrite Hget. unfold count, mine. now rewrite filter_twice.
  - intros Hz. assert (E : mine = []).
    { apply List.length_zero_iff_nil. unfold len in Hz. lia. }
    rewrite E. repeat split.
Qed.

(** X19. On a consistent store the entries of the statistics follow the
    corridors in dictionary order, their totals add up to the total of the
    summary, which is the number of stored remittances, and the summary counts
    the active corridors. *)
Theorem stats_add_up (db : Store) :
  consistent db ->
  exists st,
    get_remittance_stats sum db = Return db st
    /\ List.map fst (by_corridor st)
       = List.map Corridor.code (values (corridors_db db))
    /\ total (List.map (fun e => CorridorStats.total_remittances (snd e)) (by_corridor st))
       = Summary.total_remittances (summary st)
    /\ Summary.total_remittances (summary st) = len (values (remittances_db db))
    /\ Summary.active_corridors (summary st)
       = count Corridor.is_active (values (corridors_db db)).
Proof.
  intros Hdb. rewrite (stats_entries db Hdb). eexists. split; [reflexivity|].
  cbn [by_corridor summary Summary.total_remittances Summary.active_corridors].
  split; [|split; [|split; reflexivity]].
  - rewrite List.map_map. reflexivity.
  - rewrite List.map_map. cbn [snd]. unfold corridor_stats. cbv zeta.
    cbn [CorridorStats.total_remittances].
    rewrite <- (counts_by_key_add_up Remittance.corridor_id (keys (corridors_db db))).
    + rewrite <- (corridor_ids_are_keys db Hdb), List.map_map. reflexivity.
    + exact (corridor_keys db Hdb).
    + pose proof (corridors_exist db Hdb) as Hce.
      apply List.Forall_forall. intros r Hr. apply In_values in Hr.
      destruct Hr as (k & Hin). rewrite List.Forall_forall in Hce.
      specialize (Hce _ Hin). simpl in Hce.
      destruct (List.in_dec Z.eq_dec (Remittance.corridor_id r) (keys (corridors_db db)))
        as [H | H]; [exact H|].
      apply dict_get_None in H. congruence.
Qed.

End StatisticsFacts.

Lemma stats_per_corridor_seed :
  exists st cs,
    get_remittance_stats sum_left seed = Return seed st
    /\ assoc_get str_eqb (by_corridor st) (u "US-MX") = Some cs
    /\ CorridorStats.total_remittances cs = 3
    /\ assoc_get RemittanceStatus_eqb (CorridorStats.by_status cs) completed = Some 2
    /\ assoc_get RemittanceStatus_eqb (CorridorStats.by_status cs) cancelled = None.
Proof.
  destruct (stats_per_corridor sum_left seed
              (Corridor.mk 1 (u "Estados Unidos a M" ++ e' ++ u "xico") (u "US-MX")
                 (u "Estados Unidos") (u "M" ++ e' ++ u "xico") 3.5 true
                 (at_ 2024 1 1 10 0 0))
              seed_consistent (or_introl eq_refl))
    as (st & cs & H & Hget & _ & Htot & Hst & _).
  exists st, cs. split; [exact H|]. split; [exact Hget|].
  split; [rewrite Htot; reflexivity|].
  split; rewrite Hst; reflexivity.
Defined.

Lemma stats_add_up_seed :
  exists st,
    get_remittance_stats sum_left seed = Return seed st
    /\ List.map fst (by_corridor st)
       = [u "US-MX"; u "US-CO"; u "US-GT"; u "ES-EC"; u "UK-IN"]
    /\ Summary.total_remittances (summary st) = 8
    /\ Summary.active_corridors (summary st) = 4.
Proof.
  destruct (stats_add_up sum_left seed seed_consistent) as (st & H & Hk & _ & Ht & Ha).
  exists st. split; [exact H|]. split; [rewrite Hk; reflexivity|].
  split; [rewrite Ht; reflexivity | rewrite Ha; reflexivity].
Defined.

(** * Reference codes are unique *)

Lemma Remittance_update_reference_code (r current : Remittance.t)
    (body : RemittanceUpdate.t) :
  Remittance_update r body = Some current ->
  Remittance.reference_code current = Remittance.reference_code r.
Proof.
  unfold Remittance_update.
  repeat match goal with
         | |- context [match updated ?a ?f with _ => _ end] =>
             destruct (updated a f); [|discriminate]
         end.
  intros H. injection H as <-. reflexivity.
Qed.

Lemma derived_set (db : Store) (k : Z) (r : Remittance.t) (cs : dict Corridor.t)
    (n1 n2 : Z) :
  derived_codes db ->
  (exists now, Remittance.reference_code r = _generate_reference_code now k) ->
  derived_codes (mkStore cs (dict_set (remittances_db db) k r) n1 n2).
Proof. intros Hd Hr. unfold derived_codes. simpl. now apply Forall_dict_set. Qed.

Lemma derived_stored (db : Store) (k : Z) (r : Remittance.t) :
  derived_codes db -> dict_get (remittances_db db) k = Some r ->
  exists now, Remittance.reference_code r = _generate_reference_code now k.
Proof.
  intros Hd Hr. unfold derived_codes in Hd. rewrite List.Forall_forall in Hd.
  exact (Hd _ (dict_get_In _ _ _ Hr)).
Qed.

Lemma handle_derived (req : Request) (db : Store) :
  derived_codes db -> leaves derived_codes (handle req db).
Proof.
  intros Hd. destruct req; simpl; unfold with_path, with_body.
  - destruct (CorridorCreate.valid body); [|exact Hd]. unfold create_corridor.
    destruct (List.existsb _ _); exact Hd.
  - destruct (0 <? corridor_id); [|exact Hd].
    destruct (CorridorCreate.valid body); [|exact Hd]. unfold replace_corridor.
    destruct (dict_get _ _); [|exact Hd]. destruct (List.existsb _ _); exact Hd.
  - destruct (0 <? corridor_id); [|exact Hd].
    destruct (CorridorUpdate_valid body); [|exact Hd]. unfold update_corridor.
    destruct (dict_get _ _) as [stored|]; [|exact Hd].
    destruct (match CorridorUpdate.code body with Value _ => _ | _ => _ end);
      [exact Hd|].
    destruct (Corridor_update stored body); [exact Hd | exact I].
  - destruct (0 <? corridor_id); [|exact Hd]. unfold delete_corridor.
    destruct (dict_get _ _); [|exact Hd]. destruct (List.existsb _ _); exact Hd.
  - destruct (RemittanceCreate.valid body); [|exact Hd]. unfold create_remittance.
    destruct (dict_get _ _) as [c|]; [|exact Hd].
    destruct (negb (Corridor.is_active c)); [exact Hd|]. simpl.
    destruct (_calculate_fee _ _ _ _); simpl; [|exact Hd].
    apply derived_set; [exact Hd|]. now exists now_ref.
  - destruct (0 <? remittance_id); [|exact Hd].
    destruct (RemittanceCreate.valid body); [|exact Hd]. unfold replace_remittance.
    destruct (dict_get (remittances_db db) remittance_id) as [existing|] eqn:Hr;
      [|exact Hd].
    destruct (dict_get (corridors_db db) _) as [c|]; [|exact Hd].
    destruct (negb (Corridor.is_active c)); [exact Hd|].
    destruct (_calculate_fee _ _ _ _); simpl; [|exact Hd].
    apply derived_set; [exact Hd|]. exact (derived_stored _ _ _ Hd Hr).
  - destruct (0 <? remittance_id); [|exact Hd].
    destruct (RemittanceUpdate.valid body); [|exact Hd]. unfold update_remittance.
    destruct (dict_get (remittances_db db) remittance_id) as [existing|] eqn:Hr;
      [|exact Hd].
    destruct (update_corridor_check db _); [exact Hd|].
    destruct (Remittance_update existing body) as [current|] eqn:Hu; [|exact I].
    pose proof (Remittance_update_reference_code _ _ _ Hu) as Hrc.
    pose proof (derived_stored _ _ _ Hd Hr) as (now & Hnow).
    assert (H1 : derived_codes
                   (set_remittances_db db
                      (dict_set (remittances_db db) remittance_id current))).
    { apply derived_set; [exact Hd|]. exists now. congruence. }
    destruct (is_set _ || is_set _ || is_set _); [|exact H1].
    destruct (_calculate_fee _ _ _ _); simpl; [|exact H1].
    apply (derived_set _ _ _ _ _ _ H1). exists now. simpl. congruence.
  - destruct (0 <? remittance_id); [|exact Hd]. unfold delete_remittance.
    destruct (dict_get (remittances_db db) remittance_id) as [r|]; [|exact Hd].
    destruct (Remittance.status r); simpl; try exact Hd;
      unfold derived_codes; simpl; now apply Forall_dict_del.
Qed.

Lemma seed_derived : derived_codes seed.
Proof.
  unfold derived_codes. simpl.
  repeat (constructor;
          [first [ now exists (at_ 2024 1 15 0 0 0) | now exists (at_ 2024 1 20 0 0 0)
                 | now exists (at_ 2024 2 1 0 0 0) | now exists (at_ 2024 2 10 0 0 0)
                 | now exists (at_ 2024 2 15 0 0 0) | now exists (at_ 2024 3 1 0 0 0)
                 | now exists (at_ 2024 3 5 0 0 0) | now exists (at_ 2024 3 10 0 0 0) ]|]).
  constructor.
Qed.

Lemma run_derived (reqs : list Request) (db0 db : Store) :
  consistent db0 -> derived_codes db0 -> run reqs db0 = Some db ->
  consistent db /\ derived_codes db.
Proof.
  revert db0. induction reqs as [|req reqs IH]; intros db0 Hc Hd; simpl.
  - intros H. injection H as <-. auto.
  - pose proof (handle_preserved req db0 Hc) as Hp.
    pose proof (handle_derived req db0 Hd) as Hl.
    destruct (handle req db0) as [db1 a | db1 e |]; simpl in *; try discriminate.
    + now apply IH.
    + destruct Hp as [-> _]. now apply IH.
Qed.

(** X20. Reference codes are unique: in every store reached from the
    seeded one by write requests, two stored remittances with the same
    reference code are the same record under the same key, whatever the
    dates of the creations and however many remittances were made. *)
Theorem reference_codes_unique (reqs : list Request) (db : Store) :
  run reqs seed = Some db ->
  forall k1 r1 k2 r2,
    List.In (k1, r1) (remittances_db db) -> List.In (k2, r2) (remittances_db db) ->
    Remittance.reference_code r1 = Remittance.reference_code r2 ->
    k1 = k2 /\ r1 = r2.
Proof.
  intros Hrun k1 r1 k2 r2 H1 H2 Hc.
  destruct (run_derived reqs seed db seed_consistent seed_derived Hrun) as [Hdb Hd].
  unfold derived_codes in Hd. rewrite List.Forall_forall in Hd.
  destruct (Hd _ H1) as (n1 & E1). destruct (Hd _ H2) as (n2 & E2). simpl in E1, E2.
  pose proof (remittance_ids db Hdb) as Hri. rewrite List.Forall_forall in Hri.
  destruct (Hri _ H1) as [_ Hb1]. destruct (Hri _ H2) as [_ Hb2]. simpl in Hb1, Hb2.
  assert (k1 = k2).
  { assert (E : reference_id (_generate_reference_code n1 k1)
                 = reference_id (_generate_reference_code n2 k2)) by congruence.
    rewrite !reference_id_generated in E by lia. now injection E. }
  subst k2. split; [reflexivity|].
  pose proof (In_dict_get _ _ _ (remittance_keys db Hdb) H1) as G1.
  pose proof (In_dict_get _ _ _ (remittance_keys db Hdb) H2) as G2.
  congruence.
Qed.

Lemma reference_codes_unique_seed :
  exists db,
    run [POST_remittance (at_ 2024 3 10 9 0 0) (at_ 2024 3 10 9 0 1) (request_for 2);
         DELETE_remittance 8;
         POST_remittance (at_ 2024 3 10 9 5 0) (at_ 2024 3 10 9 5 1) (request_for 1)]
      seed = Some db
    /\ len (remittances_db db) = 9
    /\ forall k1 r1 k2 r2,
         List.In (k1, r1) (remittances_db db) -> List.In (k2, r2) (remittances_db db) ->
         Remittance.reference_code r1 = Remittance.reference_code r2 ->
         k1 = k2 /\ r1 = r2.
Proof.
  eexists. split; [reflexivity|]. split; [reflexivity|].
  exact (reference_codes_unique
           [POST_remittance (at_ 2024 3 10 9 0 0) (at_ 2024 3 10 9 0 1) (request_for 2);
            DELETE_remittance 8;
            POST_remittance (at_ 2024 3 10 9 5 0) (at_ 2024 3 10 9 5 1) (request_for 1)]
           _ eq_refl).
Defined.
